(** * Role-Based Admin Dashboard: authentication and authorization core

    A shallow embedding of the session lifecycle ([AuthService]: login,
    refresh-token rotation, logout, force-logout) and of the permission
    gate ([authorize]) of the backend, together with the properties of
    the design document that speak about them.

    Further sections embed the request gate ([authenticate]),
    registration, the account administration of [UserService] (status,
    creation, update, role assignment) and the feature-flag resolver,
    with the properties the code shows of them.

    Layout: the data model and the operations come first, in the order of
    the JavaScript sources; concrete fixtures follow; the theorems close
    the file. *)

From Stdlib Require Import String List ZArith Bool Lia.
Import ListNotations.
Local Open Scope string_scope.
Local Open Scope Z_scope.

(* ====================================================================== *)
(** ** utils/errors.js: the error hierarchy *)
(* ====================================================================== *)

(** [AppError]: message, HTTP status and machine-readable code. *)
Record AppError := mkAppError {
  message : string;
  statusCode : Z;
  errorCode : string
}.

Definition UnauthorizedError (msg : string) : AppError :=
  mkAppError msg 401 "UNAUTHORIZED".

Definition ForbiddenError : AppError :=
  mkAppError "Forbidden — insufficient permissions" 403 "FORBIDDEN".

Definition NotFoundError (resource : string) : AppError :=
  mkAppError (resource ++ " not found") 404 "NOT_FOUND".

(** Everything an [await] can reject with in the modelled code: an
    operational [AppError], an error of the Prisma client (identified by
    its code: P2002 unique constraint, P2025 record not found, P1001
    database unreachable), or a JavaScript [TypeError]. *)
Inductive Exn :=
| AppErr (e : AppError)
| PrismaErr (code : string)
| TypeErr.

(** The settled state of a promise. *)
Inductive Outcome (A : Type) :=
| Resolved (a : A)
| Rejected (e : Exn).
Arguments Resolved {A} a.
Arguments Rejected {A} e.

(* ====================================================================== *)
(** ** jsonwebtoken: signed tokens, symbolically *)
(* ====================================================================== *)

(** The signing keys of [config.jwt], and any key the server does not
    hold (a forged token). *)
Inductive Secret := accessSecret | refreshSecret | foreignSecret.

(** The payload of a token.  [iat] and [exp] are in seconds since the
    epoch; the access token carries an email and no family, the refresh
    token a family and no email. *)
Record Claims := mkClaims {
  sub : string;
  email : option string;
  organizationId : string;
  family : option string;
  iat : Z;
  exp : option Z
}.

(** A token string is either the compact serialisation of a payload
    signed under some key, or a string that does not parse as a JWT.
    HS256 is deterministic, so equal payloads under one key give the same
    string: equality of token strings is equality of these terms. *)
Inductive Token :=
| Jwt (key : Secret) (payload : Claims)
| Malformed (raw : string).

Definition option_eqb {A} (eqb : A -> A -> bool) (x y : option A) : bool :=
  match x, y with
  | Some a, Some b => eqb a b
  | None, None => true
  | _, _ => false
  end.

Definition Secret_eqb (a b : Secret) : bool :=
  match a, b with
  | accessSecret, accessSecret => true
  | refreshSecret, refreshSecret => true
  | foreignSecret, foreignSecret => true
  | _, _ => false
  end.

Definition Claims_eqb (a b : Claims) : bool :=
  String.eqb (sub a) (sub b)
  && option_eqb String.eqb (email a) (email b)
  && String.eqb (organizationId a) (organizationId b)
  && option_eqb String.eqb (family a) (family b)
  && Z.eqb (iat a) (iat b)
  && option_eqb Z.eqb (exp a) (exp b).

Definition Token_eqb (a b : Token) : bool :=
  match a, b with
  | Jwt k c, Jwt k' c' => Secret_eqb k k' && Claims_eqb c c'
  | Malformed r, Malformed r' => String.eqb r r'
  | _, _ => false
  end.

(** JavaScript truthiness of a string-valued request field: only the
    empty string is falsy. *)
Definition token_truthy (t : Token) : bool :=
  match t with
  | Malformed "" => false
  | _ => true
  end.

Module jwt.

(** [Math.floor(Date.now() / 1000)], the clock of the library. *)
Definition clockTimestamp (now : Z) : Z := now / 1000.

(** [jwt.sign(payload, secret, { expiresIn })]: stamps [iat] and
    [exp = iat + expiresIn] (in seconds) and signs. *)
Definition sign (now : Z) (subject : string) (mail : option string)
    (org : string) (fam : option string) (secret : Secret)
    (expiresIn : Z) : Token :=
  Jwt secret
    (mkClaims subject mail org fam (clockTimestamp now)
       (Some (clockTimestamp now + expiresIn))).

(** [jwt.verify(token, secret)]: the payload when the token parses, is
    signed under [secret] and its expiry claim, if any, lies in the
    future ([clockTimestamp >= exp] is TokenExpiredError); [None]
    stands for every thrown error. *)
Definition verify (now : Z) (t : Token) (secret : Secret) : option Claims :=
  match t with
  | Malformed _ => None
  | Jwt k c =>
      if Secret_eqb k secret then
        match exp c with
        | Some e => if clockTimestamp now >=? e then None else Some c
        | None => Some c
        end
      else None
  end.

(** [jwt.decode(token)]: the payload without any check, [null] for a
    string that is not a JWT. *)
Definition decode (t : Token) : option Claims :=
  match t with
  | Jwt _ c => Some c
  | Malformed _ => None
  end.

End jwt.

(* ====================================================================== *)
(** ** config/index.js *)
(* ====================================================================== *)

(** An expiry of the form [/^(\d+)([smhd])$/], already split into its
    amount and its unit. *)
Inductive TimeUnit := unit_s | unit_m | unit_h | unit_d.

Record Expiry := mkExpiry { amount : Z; timeUnit : TimeUnit }.

Record JwtConfig := mkJwtConfig {
  accessExpiry : Expiry;
  refreshExpiry : Expiry
}.

Module config.

(** [process.env.JWT_ACCESS_EXPIRY || '15m'] and
    [process.env.JWT_REFRESH_EXPIRY || '7d']. *)
Definition jwt_defaults : JwtConfig :=
  mkJwtConfig (mkExpiry 15 unit_m) (mkExpiry 7 unit_d).

(** [config.cache.permissionsTTL], in seconds. *)
Definition permissionsTTL : Z := 300.

End config.

(** The [units] table of [expiryToDate], milliseconds per unit. *)
Definition units (u : TimeUnit) : Z :=
  match u with
  | unit_s => 1000
  | unit_m => 60000
  | unit_h => 3600000
  | unit_d => 86400000
  end.

(** utils/helpers.js [expiryToDate]:
    [new Date(Date.now() + parseInt(match[1], 10) * units[match[2]])]. *)
Definition expiryToDate (now : Z) (e : Expiry) : Z :=
  now + amount e * units (timeUnit e).

(** The [expiresIn] option of [jwt.sign] for the same expiry, in
    seconds. *)
Definition expiresInSeconds (e : Expiry) : Z :=
  amount e * units (timeUnit e) / 1000.

(* ====================================================================== *)
(** ** The relational store (Prisma models used by the core) *)
(* ====================================================================== *)

Record Organization := mkOrganization {
  org_id : string;
  org_slug : string;
  org_isActive : bool
}.

Record User := mkUser {
  user_id : string;
  user_email : string;
  user_passwordHash : string;
  user_firstName : string;
  user_lastName : string;
  user_isActive : bool;
  user_organizationId : string;
  user_lastLoginAt : option Z
}.

Record Role := mkRole {
  role_id : string;
  role_name : string;
  role_description : string;
  role_isSystem : bool;
  role_isActive : bool
}.

Record Permission := mkPermission {
  perm_id : string;
  perm_action : string;
  perm_isActive : bool
}.

Record UserRole := mkUserRole { ur_userId : string; ur_roleId : string }.

Record RolePermission := mkRolePermission {
  rp_roleId : string;
  rp_permissionId : string
}.

(** One outstanding session-renewal credential.  The primary key of a row
    is its position in the table: rows are appended and never deleted. *)
Record RefreshToken := mkRefreshToken {
  rt_token : Token;
  rt_userId : string;
  rt_family : string;
  rt_expiresAt : Z;
  rt_isRevoked : bool
}.

Record Db := mkDb {
  organizations : list Organization;
  users : list User;
  roles : list Role;
  permissions : list Permission;
  userRoles : list UserRole;
  rolePermissions : list RolePermission;
  refreshTokens : list RefreshToken
}.

Definition with_users (db : Db) (us : list User) : Db :=
  mkDb (organizations db) us (roles db) (permissions db) (userRoles db)
    (rolePermissions db) (refreshTokens db).

Definition with_refreshTokens (db : Db) (rts : list RefreshToken) : Db :=
  mkDb (organizations db) (users db) (roles db) (permissions db)
    (userRoles db) (rolePermissions db) rts.

(** [data: { isRevoked: true }] applied to one row. *)
Definition revoke (r : RefreshToken) : RefreshToken :=
  mkRefreshToken (rt_token r) (rt_userId r) (rt_family r) (rt_expiresAt r) true.

(** [data: { lastLoginAt: new Date() }] applied to one row. *)
Definition touch_lastLogin (now : Z) (u : User) : User :=
  mkUser (user_id u) (user_email u) (user_passwordHash u) (user_firstName u)
    (user_lastName u) (user_isActive u) (user_organizationId u) (Some now).

(** [data: { isRevoked: true }] applied to the rows selected by [where_]. *)
Definition revoked_where (where_ : RefreshToken -> bool)
    (rts : list RefreshToken) : list RefreshToken :=
  map (fun r => if where_ r then revoke r else r) rts.

(** First row satisfying [p], with its position. *)
Fixpoint find_index {A} (p : A -> bool) (l : list A) : option (nat * A) :=
  match l with
  | [] => None
  | x :: xs =>
      if p x then Some (O, x)
      else match find_index p xs with
           | Some (i, y) => Some (S i, y)
           | None => None
           end
  end.

(** The row at position [i] replaced by its image under [f]. *)
Fixpoint update_at {A} (i : nat) (f : A -> A) (l : list A) : list A :=
  match l, i with
  | [], _ => []
  | x :: xs, O => f x :: xs
  | x :: xs, S j => x :: update_at j f xs
  end.

(** The projections selected by the queries below. *)
Record RoleSummary := mkRoleSummary {
  rs_id : string;
  rs_name : string;
  rs_description : string;
  rs_isSystem : bool
}.

Definition UserRoleWithRole : Type := UserRole * option RoleSummary.

Definition RolePermissionWithPermission : Type :=
  RolePermission * option Permission.

Definition RoleWithPermissions : Type :=
  Role * list RolePermissionWithPermission.

Definition UserRoleWithPermissions : Type :=
  UserRole * option RoleWithPermissions.

Definition StoredToken : Type := nat * RefreshToken * option User.

Module prisma.

Definition Query (A : Type) : Type := Db -> Outcome A * Db.

(** The row selected by a unique key, if there is one. *)
Definition organization_bySlug (db : Db) (slug : string)
    : option Organization :=
  find (fun o => String.eqb (org_slug o) slug) (organizations db).

Definition user_byEmail (db : Db) (mail orgId : string) : option User :=
  find (fun u => String.eqb (user_email u) mail
                 && String.eqb (user_organizationId u) orgId)
    (users db).

Definition refreshToken_byToken (db : Db) (token : Token)
    : option (nat * RefreshToken) :=
  find_index (fun r => Token_eqb (rt_token r) token) (refreshTokens db).

(** [prisma.organization.findUnique({ where: { slug } })] *)
Definition organization_findUnique (slug : string)
    : Query (option Organization) :=
  fun db => (Resolved (organization_bySlug db slug), db).

(** [prisma.user.findUnique({ where: { email_organizationId } })] *)
Definition user_findUnique (mail orgId : string) : Query (option User) :=
  fun db => (Resolved (user_byEmail db mail orgId), db).

Definition user_byId (db : Db) (id : string) : option User :=
  find (fun u => String.eqb (user_id u) id) (users db).

(** [prisma.user.update({ where: { id }, data: { lastLoginAt } })];
    rejects with P2025 when no row has that id. *)
Definition user_update_lastLoginAt (id : string) (now : Z) : Query unit :=
  fun db =>
    match user_byId db id with
    | None => (Rejected (PrismaErr "P2025"), db)
    | Some _ =>
        (Resolved tt,
         with_users db
           (map (fun u => if String.eqb (user_id u) id
                          then touch_lastLogin now u else u)
              (users db)))
    end.

Definition role_byId (db : Db) (id : string) : option Role :=
  find (fun r => String.eqb (role_id r) id) (roles db).

Definition permission_byId (db : Db) (id : string) : option Permission :=
  find (fun p => String.eqb (perm_id p) id) (permissions db).

Definition summary (r : Role) : RoleSummary :=
  mkRoleSummary (role_id r) (role_name r) (role_description r)
    (role_isSystem r).

(** [prisma.userRole.findMany({ where: { userId }, include: { role:
    { select: { id, name, description, isSystem } } } })] *)
Definition userRole_findMany_role (userId : string)
    : Query (list UserRoleWithRole) :=
  fun db =>
    (Resolved
       (map (fun ur => (ur, option_map summary (role_byId db (ur_roleId ur))))
          (filter (fun ur => String.eqb (ur_userId ur) userId)
             (userRoles db))), db).

(** The [rolePermissions: { include: { permission: true } }] relation
    of one role. *)
Definition rolePermissions_of (db : Db) (r : Role)
    : list RolePermissionWithPermission :=
  map (fun rp => (rp, permission_byId db (rp_permissionId rp)))
    (filter (fun rp => String.eqb (rp_roleId rp) (role_id r))
       (rolePermissions db)).

(** [prisma.userRole.findMany({ where: { userId }, include: { role:
    { include: { rolePermissions: { include: { permission: true } } } } } })]
    The only filter of the query is the user id. *)
Definition userRole_findMany_permissions (userId : string)
    : Query (list UserRoleWithPermissions) :=
  fun db =>
    (Resolved
       (map (fun ur =>
               (ur, option_map (fun r => (r, rolePermissions_of db r))
                      (role_byId db (ur_roleId ur))))
          (filter (fun ur => String.eqb (ur_userId ur) userId)
             (userRoles db))), db).

(** [prisma.refreshToken.findUnique({ where: { token }, include:
    { user: true } })] *)
Definition refreshToken_findUnique (token : Token)
    : Query (option StoredToken) :=
  fun db =>
    (Resolved
       match refreshToken_byToken db token with
       | Some (id, r) => Some (id, r, user_byId db (rt_userId r))
       | None => None
       end, db).

(** [prisma.refreshToken.updateMany({ where, data: { isRevoked: true } })] *)
Definition refreshToken_updateMany (where_ : RefreshToken -> bool)
    : Query unit :=
  fun db =>
    (Resolved tt,
     with_refreshTokens db (revoked_where where_ (refreshTokens db))).

(** [prisma.refreshToken.update({ where: { id }, data: { isRevoked:
    true } })]; rejects with P2025 when the row does not exist. *)
Definition refreshToken_update (id : nat) : Query unit :=
  fun db =>
    match nth_error (refreshTokens db) id with
    | None => (Rejected (PrismaErr "P2025"), db)
    | Some _ =>
        (Resolved tt,
         with_refreshTokens db (update_at id revoke (refreshTokens db)))
    end.

(** [prisma.refreshToken.create({ data: { token, userId, family,
    expiresAt } })].  The [token] column is unique (it is the key of
    [findUnique] above), so a second row with the same token string is
    refused with P2002; [isRevoked] takes its column default, false. *)
Definition refreshToken_create (token : Token) (userId fam : string)
    (expiresAt : Z) : Query unit :=
  fun db =>
    match refreshToken_byToken db token with
    | Some _ => (Rejected (PrismaErr "P2002"), db)
    | None =>
      (Resolved tt,
       with_refreshTokens db
         (refreshTokens db
            ++ [mkRefreshToken token userId fam expiresAt false]))
    end.

End prisma.

(* ====================================================================== *)
(** ** config/redis.js: the cache interface *)
(* ====================================================================== *)

(** The values that travel through the cache: [null] (no entry), [true]
    (a blacklist mark) and arrays of action strings (a resolved
    permission set). *)
Inductive JsValue :=
| JNull
| JBool (b : bool)
| JArr (items : list string).

(** JavaScript truthiness: [null] and [false] are falsy, every array is
    truthy, the empty one included. *)
Definition truthy (v : JsValue) : bool :=
  match v with
  | JNull => false
  | JBool b => b
  | JArr _ => true
  end.

(** The key templates, [`permissions:${userId}:${orgId}`] and
    [`blacklist:${accessToken}`], and the pattern
    [`permissions:${userId}:*`]. *)
Inductive CacheKey :=
| permissionsKey (userId orgId : string)
| blacklistKey (accessToken : Token).

Inductive CachePattern :=
| permissionsOfUser (userId : string).

(** The helper object [cache]: [get] answers [null] for an absent key;
    [set] takes a TTL in seconds. *)
Class CacheApi (C : Type) := {
  cache_get : C -> CacheKey -> JsValue;
  cache_set : C -> CacheKey -> JsValue -> Z -> C;
  cache_delPattern : C -> CachePattern -> C
}.

(** The cache the repository ships: Redis is disabled and every
    operation is a no-op. *)
#[export] Instance noop_cache : CacheApi unit := {
  cache_get := fun _ _ => JNull;
  cache_set := fun c _ _ _ => c;
  cache_delPattern := fun c _ => c
}.

(* ====================================================================== *)
(** ** Asynchronous computations over the store and the cache *)
(* ====================================================================== *)

(** What a request can touch: the relational store, the cache, and the
    fate of the storage calls still to come ([true]: the call is lost
    and rejects with P1001; an exhausted plan means no further loss). *)
Record World (C : Type) := mkWorld {
  w_db : Db;
  w_cache : C;
  w_faults : list bool
}.
Arguments mkWorld {C} _ _ _.
Arguments w_db {C} _.
Arguments w_cache {C} _.
Arguments w_faults {C} _.

(** An [async] function: it settles and leaves a world behind.  A
    rejection does not undo the effects that preceded it. *)
Definition Async (C A : Type) : Type := World C -> Outcome A * World C.

Definition ret {C A} (a : A) : Async C A := fun w => (Resolved a, w).

Definition throw {C A} (e : Exn) : Async C A := fun w => (Rejected e, w).

Definition bind {C A B} (m : Async C A) (k : A -> Async C B) : Async C B :=
  fun w =>
    match m w with
    | (Resolved a, w') => k a w'
    | (Rejected e, w') => (Rejected e, w')
    end.

Notation "x <- m ;; k" := (bind m (fun x => k))
  (at level 61, m at next level, right associativity).
Notation "m ;;; k" := (bind m (fun _ => k))
  (at level 61, right associativity).

(** [try { m } catch { }]: a rejection is swallowed. *)
Definition try_ignore {C} (m : Async C unit) : Async C unit :=
  fun w =>
    match m w with
    | (Resolved _, w') => (Resolved tt, w')
    | (Rejected _, w') => (Resolved tt, w')
    end.

(** [Promise.all([p, q])]: both requests are under way before either
    settles, so each runs whatever happens to the other; the result
    rejects as soon as one of them does. *)
Definition promise_all {C A B} (p : Async C A) (q : Async C B)
    : Async C (A * B) :=
  fun w =>
    let (ra, w1) := p w in
    let (rb, w2) := q w1 in
    match ra, rb with
    | Resolved a, Resolved b => (Resolved (a, b), w2)
    | Rejected e, _ => (Rejected e, w2)
    | Resolved _, Rejected e => (Rejected e, w2)
    end.

(** [await prisma.<model>.<query>(...)] *)
Definition await_prisma {C A} (q : prisma.Query A) : Async C A :=
  fun w =>
    match w_faults w with
    | true :: rest =>
        (Rejected (PrismaErr "P1001"), mkWorld (w_db w) (w_cache w) rest)
    | false :: rest =>
        let (r, db') := q (w_db w) in (r, mkWorld db' (w_cache w) rest)
    | [] =>
        let (r, db') := q (w_db w) in (r, mkWorld db' (w_cache w) [])
    end.

(** [await cache.get(key)] *)
Definition await_cache_get {C} `{CacheApi C} (key : CacheKey)
    : Async C JsValue :=
  fun w => (Resolved (cache_get (w_cache w) key), w).

(** [await cache.set(key, value, ttl)] *)
Definition await_cache_set {C} `{CacheApi C} (key : CacheKey) (v : JsValue)
    (ttl : Z) : Async C unit :=
  fun w =>
    (Resolved tt, mkWorld (w_db w) (cache_set (w_cache w) key v ttl) (w_faults w)).

(** [await cache.delPattern(pattern)] *)
Definition await_cache_delPattern {C} `{CacheApi C} (pat : CachePattern)
    : Async C unit :=
  fun w =>
    (Resolved tt,
     mkWorld (w_db w) (cache_delPattern (w_cache w) pat) (w_faults w)).

(* ====================================================================== *)
(** ** features/auth: AuthService *)
(* ====================================================================== *)

(** [bcrypt.compare(password, hash)] *)
Class BcryptApi := { bcrypt_compare : string -> string -> bool }.

(** What one request reads from its surroundings: the JWT settings, the
    clock ([Date.now()], milliseconds) and the identifier the next
    [uuidv4()] call returns. *)
Record Env := mkEnv {
  env_jwt : JwtConfig;
  env_now : Z;
  env_uuid : string
}.

Record TokenPair := mkTokenPair {
  accessToken : Token;
  refreshToken : Token
}.

Record LoginInput := mkLoginInput {
  login_email : string;
  login_password : string;
  login_organizationSlug : string
}.

Record UserSummary := mkUserSummary {
  us_id : string;
  us_email : string;
  us_firstName : string;
  us_lastName : string;
  us_organizationId : string;
  us_userRoles : list UserRoleWithRole
}.

Record LoginResult := mkLoginResult {
  lr_accessToken : Token;
  lr_refreshToken : Token;
  lr_user : UserSummary
}.

Module AuthService.
Section Service.

Context {C : Type} `{CacheApi C} `{BcryptApi}.
Variable env : Env.

(** [family || uuidv4()]: a missing or empty family draws a new one. *)
Definition tokenFamily (fam : option string) : string :=
  match fam with
  | Some f => if String.eqb f "" then env_uuid env else f
  | None => env_uuid env
  end.

(** [_generateTokenPair(user, organizationId, family = null)] *)
Definition _generateTokenPair (user : User) (orgId : string)
    (fam : option string) : Async C TokenPair :=
  let tokenFamily := tokenFamily fam in
  let accessToken :=
    jwt.sign (env_now env) (user_id user) (Some (user_email user)) orgId None
      accessSecret (expiresInSeconds (accessExpiry (env_jwt env))) in
  let refreshToken :=
    jwt.sign (env_now env) (user_id user) None orgId (Some tokenFamily)
      refreshSecret (expiresInSeconds (refreshExpiry (env_jwt env))) in
  await_prisma
    (prisma.refreshToken_create refreshToken (user_id user) tokenFamily
       (expiryToDate (env_now env) (refreshExpiry (env_jwt env)))) ;;;
  ret (mkTokenPair accessToken refreshToken).

(** [login({ email, password, organizationSlug })] *)
Definition login (input : LoginInput) : Async C LoginResult :=
  organization <-
    await_prisma (prisma.organization_findUnique (login_organizationSlug input)) ;;
  match organization with
  | None => throw (AppErr (NotFoundError "Organization"))
  | Some organization =>
      if negb (org_isActive organization)
      then throw (AppErr (NotFoundError "Organization"))
      else
        user <-
          await_prisma
            (prisma.user_findUnique (login_email input) (org_id organization)) ;;
        match user with
        | None => throw (AppErr (UnauthorizedError "Invalid credentials"))
        | Some user =>
            if negb (user_isActive user)
            then throw (AppErr (UnauthorizedError "Invalid credentials"))
            else if negb (bcrypt_compare (login_password input)
                            (user_passwordHash user))
            then throw (AppErr (UnauthorizedError "Invalid credentials"))
            else
              tokens <- _generateTokenPair user (org_id organization) None ;;
              await_prisma
                (prisma.user_update_lastLoginAt (user_id user) (env_now env)) ;;;
              userRoles <-
                await_prisma (prisma.userRole_findMany_role (user_id user)) ;;
              ret (mkLoginResult (accessToken tokens) (refreshToken tokens)
                     (mkUserSummary (user_id user) (user_email user)
                        (user_firstName user) (user_lastName user)
                        (org_id organization) userRoles))
        end
  end.

(** [refresh({ refreshToken })] *)
Definition refresh (presented : Token) : Async C TokenPair :=
  match jwt.verify (env_now env) presented refreshSecret with
  | None => throw (AppErr (UnauthorizedError "Invalid refresh token"))
  | Some decoded =>
      storedToken <- await_prisma (prisma.refreshToken_findUnique presented) ;;
      match storedToken with
      | None => throw (AppErr (UnauthorizedError "Refresh token not found"))
      | Some (id, stored, user) =>
          if rt_isRevoked stored then
            await_prisma
              (prisma.refreshToken_updateMany
                 (fun r => String.eqb (rt_family r) (rt_family stored))) ;;;
            throw (AppErr (UnauthorizedError
                             "Token reuse detected — all sessions revoked"))
          else if env_now env >? rt_expiresAt stored then
            throw (AppErr (UnauthorizedError "Refresh token expired"))
          else
            match user with
            | None =>
                throw (AppErr (UnauthorizedError "User account is deactivated"))
            | Some user =>
                if negb (user_isActive user) then
                  throw (AppErr (UnauthorizedError
                                   "User account is deactivated"))
                else
                  settled <-
                    promise_all
                      (await_prisma (prisma.refreshToken_update id))
                      (_generateTokenPair user (organizationId decoded)
                         (Some (rt_family stored))) ;;
                  ret (mkTokenPair (accessToken (snd settled))
                         (refreshToken (snd settled)))
            end
      end
  end.

(** The blacklisting block of [logout]: the body of
    [if (accessToken) { try { ... } catch { } }]. *)
Definition blacklist (token : Token) : Async C unit :=
  try_ignore
    match jwt.decode token with
    | None => ret tt
    | Some decoded =>
        match exp decoded with
        | None => ret tt
        | Some e =>
            if Z.eqb e 0 then ret tt
            else
              let ttl := e - env_now env / 1000 in
              if ttl >? 0
              then await_cache_set (blacklistKey token) (JBool true) ttl
              else ret tt
        end
    end.

(** The revocation block of [logout]:
    [if (refreshToken) { await prisma.refreshToken.updateMany(...) }];
    an absent field is [None]. *)
Definition revoke_presented (presented : option Token) (userId : string)
    : Async C unit :=
  match presented with
  | Some token =>
      if token_truthy token then
        await_prisma
          (prisma.refreshToken_updateMany
             (fun r => Token_eqb (rt_token r) token
                       && String.eqb (rt_userId r) userId))
      else ret tt
  | None => ret tt
  end.

(** [logout({ accessToken, refreshToken, userId })] *)
Definition logout (access presented : option Token) (userId : string)
    : Async C unit :=
  match access with
  | Some token => if token_truthy token then blacklist token else ret tt
  | None => ret tt
  end ;;;
  revoke_presented presented userId.

(** [forceLogout(userId)] *)
Definition forceLogout (userId : string) : Async C unit :=
  await_prisma
    (prisma.refreshToken_updateMany
       (fun r => String.eqb (rt_userId r) userId && negb (rt_isRevoked r))) ;;;
  await_cache_delPattern (permissionsOfUser userId).

End Service.
End AuthService.

(* ====================================================================== *)
(** ** middleware/authorize.js *)
(* ====================================================================== *)

(** [req.user], as the authentication middleware leaves it. *)
Record ReqUser := mkReqUser {
  req_id : string;
  req_email : string;
  req_organizationId : string
}.

(** How the middleware hands over: [next()] or [next(err)]. *)
Inductive Next :=
| next_ok
| next_err (e : Exn).

(** What the middleware leaves behind: the call to [next] and the value
    attached as [req.userPermissions], if that line was reached. *)
Record Handled := mkHandled {
  next : Next;
  req_userPermissions : option JsValue
}.

(** [[...new Set(xs)]]: the distinct elements in order of first
    occurrence. *)
Fixpoint spread_Set (xs : list string) : list string :=
  match xs with
  | [] => []
  | x :: rest =>
      x :: filter (fun y => negb (String.eqb x y)) (spread_Set rest)
  end.

(** [userPermissions.includes(perm)]; a cached value that is not an array
    has no such method. *)
Definition includes (userPermissions : JsValue) (perm : string)
    : Outcome bool :=
  match userPermissions with
  | JArr items => Resolved (existsb (String.eqb perm) items)
  | JBool _ | JNull => Rejected TypeErr
  end.

(** [requiredPermissions.some(callback)] *)
Fixpoint some (requiredPermissions : list string)
    (callback : string -> Outcome bool) : Outcome bool :=
  match requiredPermissions with
  | [] => Resolved false
  | perm :: rest =>
      match callback perm with
      | Rejected e => Rejected e
      | Resolved true => Resolved true
      | Resolved false => some rest callback
      end
  end.

Module Authorize.
Section Middleware.

Context {C : Type} `{CacheApi C}.

(** The flattening of the query result: active roles, their active
    permissions, the action strings. *)
Definition flatten (userRoles : list UserRoleWithPermissions) : list string :=
  spread_Set
    (flat_map
       (fun ur : UserRoleWithPermissions =>
          match snd ur with
          | Some (_, rolePermissions) =>
              map (fun rp : RolePermissionWithPermission =>
                     match snd rp with
                     | Some p => perm_action p
                     | None => "" (* excluded by the filter *)
                     end)
                (filter (fun rp : RolePermissionWithPermission =>
                           match snd rp with
                           | Some p => perm_isActive p
                           | None => false
                           end)
                   rolePermissions)
          | None => []
          end)
       (filter (fun ur : UserRoleWithPermissions =>
                  match snd ur with
                  | Some (role, _) => role_isActive role
                  | None => false
                  end)
          userRoles)).

(** Steps 1 to 3 of the middleware: the value [userPermissions] holds
    when the check of step 4 starts. *)
Definition loadUserPermissions (userId orgId : string) : Async C JsValue :=
  let cacheKey := permissionsKey userId orgId in
  userPermissions <- await_cache_get cacheKey ;;
  if negb (truthy userPermissions) then
    userRoles <-
      await_prisma (prisma.userRole_findMany_permissions userId) ;;
    let userPermissions := JArr (flatten userRoles) in
    await_cache_set cacheKey userPermissions config.permissionsTTL ;;;
    ret userPermissions
  else ret userPermissions.

(** [authorize(...requiredPermissions)(req, _res, next)] *)
Definition authorize (requiredPermissions : list string) (user : ReqUser)
    : World C -> Handled * World C :=
  fun w =>
    match loadUserPermissions (req_id user) (req_organizationId user) w with
    | (Rejected err, w') => (mkHandled (next_err err) None, w')
    | (Resolved userPermissions, w') =>
        match some requiredPermissions (includes userPermissions) with
        | Rejected err => (mkHandled (next_err err) (Some userPermissions), w')
        | Resolved false =>
            (mkHandled (next_err (AppErr ForbiddenError))
               (Some userPermissions), w')
        | Resolved true => (mkHandled next_ok (Some userPermissions), w')
        end
    end.

End Middleware.
End Authorize.

(* ====================================================================== *)
(** ** Fixtures: a seeded store and stand-ins for Redis and bcrypt *)
(* ====================================================================== *)

Definition CacheKey_eqb (a b : CacheKey) : bool :=
  match a, b with
  | permissionsKey u o, permissionsKey u' o' => String.eqb u u' && String.eqb o o'
  | blacklistKey t, blacklistKey t' => Token_eqb t t'
  | _, _ => false
  end.

Definition pattern_matches (pat : CachePattern) (k : CacheKey) : bool :=
  match pat, k with
  | permissionsOfUser u, permissionsKey u' _ => String.eqb u u'
  | _, _ => false
  end.

(** An in-memory cache that answers like a running Redis within one
    request: the entries written so far, newest first, each with the TTL
    it was written with. *)
Definition MemCache : Type := list (CacheKey * JsValue * Z).

#[export] Instance mem_cache : CacheApi MemCache := {
  cache_get := fun c k =>
    match find (fun e => CacheKey_eqb (fst (fst e)) k) c with
    | Some e => snd (fst e)
    | None => JNull
    end;
  cache_set := fun c k v ttl => (k, v, ttl) :: c;
  cache_delPattern := fun c pat =>
    filter (fun e => negb (pattern_matches pat (fst (fst e)))) c
}.

(** A stand-in for bcrypt: the hash of a password is the password behind
    a cost prefix. *)
Definition plain_hash (password : string) : string := "$2b$12$" ++ password.

#[export] Instance plain_bcrypt : BcryptApi := {
  bcrypt_compare := fun password hash => String.eqb hash (plain_hash password)
}.

Module Seed.

Definition acme : Organization := mkOrganization "org-acme" "acme-corp" true.
Definition startup : Organization :=
  mkOrganization "org-startup" "startup-inc" true.
Definition closed : Organization := mkOrganization "org-closed" "closed-llc" false.

Definition manager : User :=
  mkUser "u-manager" "manager@acme.com" (plain_hash "Admin@123") "Jane"
    "Manager" true "org-acme" None.
Definition john : User :=
  mkUser "u-user" "user@acme.com" (plain_hash "Admin@123") "John" "User"
    true "org-acme" None.
Definition former : User :=
  mkUser "u-former" "former@acme.com" (plain_hash "Admin@123") "Ann"
    "Former" false "org-acme" None.
Definition startupAdmin : User :=
  mkUser "u-startup" "admin@startup.com" (plain_hash "Admin@123") "Startup"
    "Admin" true "org-startup" None.

Definition MANAGER : Role :=
  mkRole "r-manager" "MANAGER" "Team manager" true true.
Definition USER : Role := mkRole "r-user" "USER" "Standard user" true true.
Definition RETIRED : Role := mkRole "r-retired" "RETIRED" "Retired role" false false.

Definition USER_READ : Permission := mkPermission "p-user-read" "USER_READ" true.
Definition USER_DELETE : Permission :=
  mkPermission "p-user-delete" "USER_DELETE" true.
Definition DASHBOARD_READ : Permission :=
  mkPermission "p-dashboard-read" "DASHBOARD_READ" true.
Definition AUDIT_READ : Permission :=
  mkPermission "p-audit-read" "AUDIT_READ" false.

Definition db : Db :=
  mkDb [acme; startup; closed]
    [manager; john; former; startupAdmin]
    [MANAGER; USER; RETIRED]
    [USER_READ; USER_DELETE; DASHBOARD_READ; AUDIT_READ]
    [mkUserRole "u-manager" "r-manager"; mkUserRole "u-manager" "r-user";
     mkUserRole "u-manager" "r-retired"; mkUserRole "u-user" "r-user"]
    [mkRolePermission "r-manager" "p-user-read";
     mkRolePermission "r-manager" "p-dashboard-read";
     mkRolePermission "r-manager" "p-audit-read";
     mkRolePermission "r-user" "p-user-read";
     mkRolePermission "r-user" "p-dashboard-read";
     mkRolePermission "r-retired" "p-user-delete"]
    [].

(** The surroundings of a request at [now] milliseconds, with the default
    expiries; [uuid] is what [uuidv4()] would return. *)
Definition env (now : Z) (uuid : string) : Env :=
  mkEnv config.jwt_defaults now uuid.

Definition world (faults : list bool) : World MemCache := mkWorld db [] faults.

Definition credentials : LoginInput :=
  mkLoginInput "manager@acme.com" "Admin@123" "acme-corp".

(** The refresh token a login of [manager] at [now] draws in family
    [fam]. *)
Definition refreshTokenOf (now : Z) (fam : string) : Token :=
  jwt.sign now "u-manager" None "org-acme" (Some fam) refreshSecret 604800.

Definition accessTokenOf (now : Z) : Token :=
  jwt.sign now "u-manager" (Some "manager@acme.com") "org-acme" None
    accessSecret 900.

(** The store after [manager] logged in at 1000 ms in family "f1". *)
Definition db_loggedIn : Db :=
  with_refreshTokens
    (with_users db
       [touch_lastLogin 1000 manager; john; former; startupAdmin])
    [mkRefreshToken (refreshTokenOf 1000 "f1") "u-manager" "f1" 604801000 false].

(** ... and after that session was rotated once, at 5000 ms. *)
Definition db_rotated : Db :=
  with_refreshTokens db_loggedIn
    [mkRefreshToken (refreshTokenOf 1000 "f1") "u-manager" "f1" 604801000 true;
     mkRefreshToken (refreshTokenOf 5000 "f1") "u-manager" "f1" 604805000 false].

(** The manager as the authentication middleware presents him. *)
Definition managerReq : ReqUser :=
  mkReqUser "u-manager" "manager@acme.com" "org-acme".

Definition world_loggedIn : World MemCache := mkWorld db_loggedIn [] [].

Definition world_rotated : World MemCache := mkWorld db_rotated [] [].

End Seed.

(** Running an operation: the outcome and the world it leaves. *)
Definition run {C A} (m : Async C A) (w : World C) : Outcome A * World C := m w.

(* ====================================================================== *)
(** ** Vocabulary of the properties *)
(* ====================================================================== *)

(** The storage calls of the request all reach the database. *)
Definition storage_reliable {C} (w : World C) : Prop := w_faults w = [].

(** The next [n] storage calls of the request reach the database. *)
Definition arrive (n : nat) (faults : list bool) : Prop :=
  forallb negb (firstn n faults) = true.

(** The rows of family [fam] that are not revoked. *)
Definition active_in (fam : string) (rts : list RefreshToken)
    : list RefreshToken :=
  filter (fun r => String.eqb (rt_family r) fam && negb (rt_isRevoked r)) rts.

(** The token-family invariant: no family has two live tokens. *)
Definition family_invariant (db : Db) : Prop :=
  forall fam, (length (active_in fam (refreshTokens db)) <= 1)%nat.

(** The identifier has not named a family yet: no row belongs to it and
    no stored token carries it as its family claim. *)
Definition uuid_unused (db : Db) (uuid : string) : Prop :=
  forall r, In r (refreshTokens db) ->
    rt_family r <> uuid /\
    forall k c, rt_token r = Jwt k c -> family c <> Some uuid.

(** The action [a] is granted to [userId] by the relational store: some
    role assignment of the user leads to an active role, one of whose
    permission assignments leads to an active permission with action [a]. *)
Definition granted (db : Db) (userId a : string) : Prop :=
  exists ur role rp p,
    In ur (userRoles db) /\ ur_userId ur = userId /\
    prisma.role_byId db (ur_roleId ur) = Some role /\
    role_isActive role = true /\
    In rp (rolePermissions db) /\ rp_roleId rp = role_id role /\
    prisma.permission_byId db (rp_permissionId rp) = Some p /\
    perm_isActive p = true /\ perm_action p = a.

(** The credentials match an active user of an active organization. *)
Definition valid_credentials `{BcryptApi} (db : Db) (input : LoginInput)
    (organization : Organization) (user : User) : Prop :=
  prisma.organization_bySlug db (login_organizationSlug input) = Some organization
  /\ org_isActive organization = true
  /\ prisma.user_byEmail db (login_email input) (org_id organization) = Some user
  /\ user_isActive user = true
  /\ bcrypt_compare (login_password input) (user_passwordHash user) = true.

(** The slug names no organization that is active. *)
Definition unknown_organization (db : Db) (input : LoginInput) : Prop :=
  match prisma.organization_bySlug db (login_organizationSlug input) with
  | Some organization => org_isActive organization = false
  | None => True
  end.

(** Within the organization the slug names, the email names no active
    user, or the password does not match that user's hash. *)
Definition bad_credentials `{BcryptApi} (db : Db) (input : LoginInput)
    (organization : Organization) : Prop :=
  match prisma.user_byEmail db (login_email input) (org_id organization) with
  | Some user =>
      user_isActive user = false
      \/ bcrypt_compare (login_password input) (user_passwordHash user) = false
  | None => True
  end.

(** The store a successful login leaves: one more RefreshToken row, and
    the user's last-login time. *)
Definition db_after_login (env : Env) (db : Db) (organization : Organization)
    (user : User) : Db :=
  with_users
    (with_refreshTokens db
       (refreshTokens db
          ++ [mkRefreshToken
                (jwt.sign (env_now env) (user_id user) None (org_id organization)
                   (Some (env_uuid env)) refreshSecret
                   (expiresInSeconds (refreshExpiry (env_jwt env))))
                (user_id user) (env_uuid env)
                (expiryToDate (env_now env) (refreshExpiry (env_jwt env)))
                false]))
    (map (fun u => if String.eqb (user_id u) (user_id user)
                   then touch_lastLogin (env_now env) u else u)
       (users db)).

(** What a login with valid credentials returns when the storage calls
    all arrive. *)
Definition login_result (env : Env) (db : Db) (organization : Organization)
    (user : User) : LoginResult :=
  mkLoginResult
    (jwt.sign (env_now env) (user_id user) (Some (user_email user))
       (org_id organization) None accessSecret
       (expiresInSeconds (accessExpiry (env_jwt env))))
    (jwt.sign (env_now env) (user_id user) None (org_id organization)
       (Some (env_uuid env)) refreshSecret
       (expiresInSeconds (refreshExpiry (env_jwt env))))
    (mkUserSummary (user_id user) (user_email user) (user_firstName user)
       (user_lastName user) (org_id organization)
       (map (fun ur =>
               (ur, option_map prisma.summary
                      (prisma.role_byId db (ur_roleId ur))))
          (filter (fun ur => String.eqb (ur_userId ur) (user_id user))
             (userRoles db)))).

(** The operations that touch the RefreshToken table. *)
Inductive Operation :=
| op_login (input : LoginInput)
| op_refresh (presented : Token)
| op_logout (access presented : option Token) (userId : string)
| op_forceLogout (userId : string).

(** The world an operation leaves, whether it resolves or rejects. *)
Definition exec {C} `{CacheApi C} `{BcryptApi} (env : Env) (op : Operation)
    (w : World C) : World C :=
  match op with
  | op_login input => snd (run (AuthService.login env input) w)
  | op_refresh presented => snd (run (AuthService.refresh env presented) w)
  | op_logout access presented userId =>
      snd (run (AuthService.logout env access presented userId) w)
  | op_forceLogout userId => snd (run (AuthService.forceLogout userId) w)
  end.

(** What the environment must provide for the operation: where a family
    identifier may be drawn, one that is new; for a rotation, storage
    calls that are not lost half-way. *)
Definition well_served {C} (env : Env) (op : Operation) (w : World C) : Prop :=
  match op with
  | op_login _ => uuid_unused (w_db w) (env_uuid env)
  | op_refresh _ => uuid_unused (w_db w) (env_uuid env) /\ storage_reliable w
  | op_logout _ _ _ | op_forceLogout _ => True
  end.

(** A run of requests, one after the other, each in its own
    surroundings. *)
Fixpoint exec_all {C} `{CacheApi C} `{BcryptApi}
    (requests : list (Env * Operation)) (w : World C) : World C :=
  match requests with
  | [] => w
  | (env, op) :: rest => exec_all rest (exec env op w)
  end.

Fixpoint all_well_served {C} `{CacheApi C} `{BcryptApi}
    (requests : list (Env * Operation)) (w : World C) : Prop :=
  match requests with
  | [] => True
  | (env, op) :: rest =>
      well_served env op w /\ all_well_served rest (exec env op w)
  end.

(** A specification of an asynchronous computation by what it leaves in
    the store: from a store satisfying [P], a resolution with [a] leaves
    one satisfying [Q a], a rejection one satisfying [E]. *)
Definition triple {C A} (P : Db -> Prop) (m : Async C A)
    (Q : A -> Db -> Prop) (E : Db -> Prop) : Prop :=
  forall w, P (w_db w) ->
    match m w with
    | (Resolved a, w') => Q a (w_db w')
    | (Rejected _, w') => E (w_db w')
    end.

(** The same for a query run directly against the store. *)
Definition query_triple {A} (P : Db -> Prop) (q : prisma.Query A)
    (Q : A -> Db -> Prop) (E : Db -> Prop) : Prop :=
  forall db, P db ->
    match q db with
    | (Resolved a, db') => Q a db'
    | (Rejected _, db') => E db'
    end.

(** The table after [updateMany({ where: { family } })]. *)
Definition family_revoked (fam : string) (rts : list RefreshToken)
    : list RefreshToken :=
  revoked_where (fun r => String.eqb (rt_family r) fam) rts.

(* ====================================================================== *)
(** ** Vocabulary of the further properties *)
(* ====================================================================== *)

(** The refresh token a rotation of the row [stored] issues for [user]:
    same subject and family, the organization of the presented token. *)
Definition successor_token (env : Env) (user : User) (decoded : Claims)
    (stored : RefreshToken) : Token :=
  jwt.sign (env_now env) (user_id user) None (organizationId decoded)
    (Some (AuthService.tokenFamily env (Some (rt_family stored))))
    refreshSecret (expiresInSeconds (refreshExpiry (env_jwt env))).

(** ... and the row stored for it. *)
Definition successor_row (env : Env) (user : User) (decoded : Claims)
    (stored : RefreshToken) : RefreshToken :=
  mkRefreshToken (successor_token env user decoded stored) (user_id user)
    (AuthService.tokenFamily env (Some (rt_family stored)))
    (expiryToDate (env_now env) (refreshExpiry (env_jwt env))) false.

(** The store a completed rotation leaves. *)
Definition db_after_rotation (env : Env) (db : Db) (id : nat) (user : User)
    (decoded : Claims) (stored : RefreshToken) : Db :=
  with_refreshTokens db
    (update_at id revoke (refreshTokens db)
       ++ [successor_row env user decoded stored]).

(** Everything a rotation needs to go through: the presented token
    verifies, its row is found live and unexpired, its owner is active,
    the successor's token string is not stored yet, and the storage
    calls arrive. *)
Definition rotation_ready {C} (env : Env) (presented : Token) (w : World C)
    (decoded : Claims) (id : nat) (stored : RefreshToken) (user : User) : Prop :=
  storage_reliable w
  /\ jwt.verify (env_now env) presented refreshSecret = Some decoded
  /\ fst (prisma.refreshToken_findUnique presented (w_db w))
     = Resolved (Some (id, stored, Some user))
  /\ rt_isRevoked stored = false
  /\ (env_now env >? rt_expiresAt stored) = false
  /\ user_isActive user = true
  /\ prisma.refreshToken_byToken (w_db w)
       (successor_token env user decoded stored) = None.

(** The refresh fails with Unauthorized, whatever the message. *)
Definition unauthorized {A} (r : Outcome A) : Prop :=
  exists msg, r = Rejected (AppErr (UnauthorizedError msg)).

(* ====================================================================== *)
(** ** middleware/authenticate.js *)
(* ====================================================================== *)

(** The errors [jwt.verify] throws, by their [name]. *)
Inductive VerifyError := TokenExpiredError | JsonWebTokenError.

(** [jwt.verify(token, secret)] with the error it throws: a string that
    is no JWT and a signature under another key are JsonWebTokenError;
    the expiry claim is looked at only once the signature holds. *)
Definition jwt_verify_result (now : Z) (t : Token) (secret : Secret)
    : Claims + VerifyError :=
  match t with
  | Malformed _ => inr JsonWebTokenError
  | Jwt k c =>
      if Secret_eqb k secret then
        match exp c with
        | Some e =>
            if jwt.clockTimestamp now >=? e then inr TokenExpiredError else inl c
        | None => inl c
        end
      else inr JsonWebTokenError
  end.

(** The [Authorization] header as the middleware sees it: absent; a
    value that does not start with "Bearer "; or "Bearer " followed by a
    token string, of which [authHeader.split(' ')[1]], the segment up to
    the next space, is the part that counts. *)
Inductive AuthorizationHeader :=
| header_absent
| header_other (raw : string)
| header_bearer (segment : Token).

(** [req.user] as the middleware builds it from the payload; a claim the
    payload lacks stays undefined. *)
Record AuthenticatedUser := mkAuthenticatedUser {
  au_id : string;
  au_email : option string;
  au_organizationId : string
}.

Record Authenticated := mkAuthenticated {
  auth_next : Next;
  auth_user : option AuthenticatedUser
}.

(** [authenticate(req, _res, next)].  [lost] says that the read of the
    blacklist rejects (a Redis failure): the [.catch] handler then
    attaches the user and lets the request through. *)
Definition authenticate {C} `{CacheApi C} (now : Z)
    (authHeader : AuthorizationHeader) (lost : bool) (cache : C)
    : Authenticated :=
  match authHeader with
  | header_absent | header_other _ =>
      mkAuthenticated
        (next_err (AppErr (UnauthorizedError
                             "Missing or malformed authorization header")))
        None
  | header_bearer token =>
      match jwt_verify_result now token accessSecret with
      | inl decoded =>
          if lost then
            mkAuthenticated next_ok
              (Some (mkAuthenticatedUser (sub decoded) (email decoded)
                       (organizationId decoded)))
          else if truthy (cache_get cache (blacklistKey token)) then
            mkAuthenticated
              (next_err (AppErr (UnauthorizedError "Token has been revoked")))
              None
          else
            mkAuthenticated next_ok
              (Some (mkAuthenticatedUser (sub decoded) (email decoded)
                       (organizationId decoded)))
      | inr TokenExpiredError =>
          mkAuthenticated
            (next_err (AppErr (UnauthorizedError "Access token expired"))) None
      | inr JsonWebTokenError =>
          mkAuthenticated
            (next_err (AppErr (UnauthorizedError "Invalid access token"))) None
      end
  end.

(** A cache that answers a read of a key with what was last written
    under it. *)
Definition reads_own_writes (C : Type) `{CacheApi C} : Prop :=
  forall (c : C) key v ttl, cache_get (cache_set c key v ttl) key = v.

(** A cache whose deletion of a user's permission entries leaves the
    blacklist marks alone. *)
Definition delPattern_spares_blacklist (C : Type) `{CacheApi C} : Prop :=
  forall (c : C) userId token,
    cache_get (cache_delPattern c (permissionsOfUser userId)) (blacklistKey token)
    = cache_get c (blacklistKey token).

(* ====================================================================== *)
(** ** features/auth: AuthService.register *)
(* ====================================================================== *)

(** utils/errors.js, further classes. *)
Definition ConflictError (msg : string) : AppError :=
  mkAppError msg 409 "CONFLICT".

Definition BadRequestError (msg : string) : AppError :=
  mkAppError msg 400 "BAD_REQUEST".

(** [bcrypt.hash(password, saltRounds)] *)
Class BcryptHashApi := { bcrypt_hash : string -> Z -> string }.

(** What bcrypt guarantees of the two: a password matches its own hash. *)
Definition hash_then_compare `{BcryptApi} `{BcryptHashApi} : Prop :=
  forall password rounds,
    bcrypt_compare password (bcrypt_hash password rounds) = true.

(** [prisma.$transaction(async (tx) => { ... })]: when the callback
    rejects, what it wrote to the store is rolled back. *)
Definition transaction {C A} (body : Async C A) : Async C A :=
  fun w =>
    match body w with
    | (Resolved a, w') => (Resolved a, w')
    | (Rejected e, w') =>
        (Rejected e, mkWorld (w_db w) (w_cache w') (w_faults w'))
    end.

Definition with_userRoles (db : Db) (urs : list UserRole) : Db :=
  mkDb (organizations db) (users db) (roles db) (permissions db) urs
    (rolePermissions db) (refreshTokens db).

(** [tx.user.create({ data: { email, passwordHash, firstName, lastName,
    organizationId } })].  The pair (email, organizationId) is unique (it
    is the key of [findUnique]); [id] is the id the store draws and
    [active] the default of the column [isActive]; the account has never
    logged in. *)
Definition user_create (id : string) (active : bool)
    (mail passwordHash firstName lastName orgId : string)
    : prisma.Query User :=
  fun db =>
    match prisma.user_byEmail db mail orgId with
    | Some _ => (Rejected (PrismaErr "P2002"), db)
    | None =>
        let newUser :=
          mkUser id mail passwordHash firstName lastName active orgId None in
        (Resolved newUser, with_users db (users db ++ [newUser]))
    end.

(** [tx.userRole.create({ data: { userId, roleId } })] *)
Definition userRole_create (userId roleId : string) : prisma.Query unit :=
  fun db =>
    (Resolved tt,
     with_userRoles db (userRoles db ++ [mkUserRole userId roleId])).

Record RegisterInput := mkRegisterInput {
  reg_email : string;
  reg_password : string;
  reg_firstName : string;
  reg_lastName : string;
  reg_organizationSlug : string
}.

Record Registered := mkRegistered {
  registered_id : string;
  registered_email : string;
  registered_firstName : string;
  registered_lastName : string;
  registered_organizationId : string
}.

Module Register.
Section Service.

Context {C : Type} `{BcryptHashApi}.

(** [config.bcrypt.saltRounds] *)
Variable saltRounds : Z.

(** The answer of the default-role query,
    [prisma.role.findFirst({ where: { name: 'USER', OR: [{ organizationId },
    { organizationId: null }], isActive: true }, orderBy: ... })], for an
    organization id.  The scope of a role is not part of the store
    modelled here, so the answer is taken as given. *)
Variable defaultRoleOf : Db -> string -> option Role.

(** The default of the column [User.isActive], and the id the store draws
    for the new row. *)
Variable isActiveDefault : bool.
Variable newId : string.

(** [register({ email, password, firstName, lastName, organizationSlug })] *)
Definition register (input : RegisterInput) : Async C Registered :=
  organization <-
    await_prisma (prisma.organization_findUnique (reg_organizationSlug input)) ;;
  match organization with
  | None => throw (AppErr (NotFoundError "Organization"))
  | Some organization =>
      if negb (org_isActive organization)
      then throw (AppErr (NotFoundError "Organization"))
      else
        existingUser <-
          await_prisma
            (prisma.user_findUnique (reg_email input) (org_id organization)) ;;
        match existingUser with
        | Some _ =>
            throw (AppErr (ConflictError
              "User with this email already exists in this organization"))
        | None =>
            let passwordHash := bcrypt_hash (reg_password input) saltRounds in
            defaultRole <-
              await_prisma
                (fun db => (Resolved (defaultRoleOf db (org_id organization)), db)) ;;
            user <-
              transaction
                (newUser <-
                   await_prisma
                     (user_create newId isActiveDefault (reg_email input)
                        passwordHash (reg_firstName input)
                        (reg_lastName input) (org_id organization)) ;;
                 match defaultRole with
                 | Some role =>
                     await_prisma
                       (userRole_create (user_id newUser) (role_id role))
                 | None => ret tt
                 end ;;;
                 ret newUser) ;;
            ret (mkRegistered (user_id user) (user_email user)
                   (user_firstName user) (user_lastName user)
                   (org_id organization))
        end
  end.

End Service.
End Register.

(* ====================================================================== *)
(** ** features/users: repository and service, account status *)
(* ====================================================================== *)

(** [data: { isActive }] applied to one row. *)
Definition set_isActive (b : bool) (u : User) : User :=
  mkUser (user_id u) (user_email u) (user_passwordHash u) (user_firstName u)
    (user_lastName u) b (user_organizationId u) (user_lastLoginAt u).

(** The [USER_WITH_ROLES] selection of a row, for the columns the store
    carries (not [emailVerified], [createdAt], [updatedAt]): never the
    password hash. *)
Record UserView := mkUserView {
  uv_id : string;
  uv_email : string;
  uv_firstName : string;
  uv_lastName : string;
  uv_isActive : bool;
  uv_lastLoginAt : option Z;
  uv_organizationId : string;
  uv_userRoles : list UserRoleWithRole
}.

Definition view (db : Db) (u : User) : UserView :=
  mkUserView (user_id u) (user_email u) (user_firstName u) (user_lastName u)
    (user_isActive u) (user_lastLoginAt u) (user_organizationId u)
    (map (fun ur => (ur, option_map prisma.summary
                           (prisma.role_byId db (ur_roleId ur))))
       (filter (fun ur => String.eqb (ur_userId ur) (user_id u))
          (userRoles db))).

Module userRepository.

(** The row [prisma.user.findFirst({ where: { id, organizationId } })]
    selects. *)
Definition user_inTenant (db : Db) (id orgId : string) : option User :=
  find (fun u => String.eqb (user_id u) id
                 && String.eqb (user_organizationId u) orgId)
    (users db).

(** [findById(id, organizationId)] *)
Definition findById {C} (id orgId : string) : Async C (option UserView) :=
  await_prisma
    (fun db => (Resolved (option_map (view db) (user_inTenant db id orgId)), db)).

(** [prisma.user.update({ where: { id }, data: { isActive }, select })] *)
Definition user_update_isActive (id : string) (b : bool)
    : prisma.Query UserView :=
  fun db =>
    match prisma.user_byId db id with
    | None => (Rejected (PrismaErr "P2025"), db)
    | Some u =>
        let db' :=
          with_users db
            (map (fun u => if String.eqb (user_id u) id then set_isActive b u
                           else u)
               (users db)) in
        (Resolved (view db' (set_isActive b u)), db')
    end.

(** [findAndUpdate(id, organizationId, { isActive })] *)
Definition findAndUpdate {C} (id orgId : string) (b : bool)
    : Async C (option UserView) :=
  user <- await_prisma
            (fun db => (Resolved (user_inTenant db id orgId), db)) ;;
  match user with
  | None => ret None
  | Some _ =>
      updated <- await_prisma (user_update_isActive id b) ;;
      ret (Some updated)
  end.

(** [deactivate(id, organizationId)] and [activate(id, organizationId)] *)
Definition deactivate {C} (id orgId : string) : Async C (option UserView) :=
  findAndUpdate id orgId false.

Definition activate {C} (id orgId : string) : Async C (option UserView) :=
  findAndUpdate id orgId true.

End userRepository.

Module UserService.
Section Service.

Context {C : Type} `{CacheApi C}.

(** [deactivateUser(id, organizationId, requestingUserId)] *)
Definition deactivateUser (id orgId requestingUserId : string)
    : Async C (option UserView) :=
  if String.eqb id requestingUserId then
    throw (AppErr (BadRequestError "Cannot deactivate your own account"))
  else
    user <- userRepository.findById id orgId ;;
    match user with
    | None => throw (AppErr (NotFoundError "User"))
    | Some _ =>
        deactivated <- userRepository.deactivate id orgId ;;
        await_cache_delPattern (permissionsOfUser id) ;;;
        ret deactivated
    end.

(** [activateUser(id, organizationId)] *)
Definition activateUser (id orgId : string) : Async C (option UserView) :=
  user <- userRepository.findById id orgId ;;
  match user with
  | None => throw (AppErr (NotFoundError "User"))
  | Some _ => userRepository.activate id orgId
  end.

End Service.
End UserService.

(* ====================================================================== *)
(** ** Vocabulary of the properties of registration and account status *)
(* ====================================================================== *)

(** The row a registration stores. *)
Definition registered_user `{BcryptHashApi} (saltRounds : Z) (active : bool)
    (newId : string) (input : RegisterInput) (organization : Organization)
    : User :=
  mkUser newId (reg_email input)
    (bcrypt_hash (reg_password input) saltRounds)
    (reg_firstName input) (reg_lastName input) active (org_id organization)
    None.

(** The store a completed registration leaves: the new row, and its
    assignment to the default role when there is one. *)
Definition db_after_register (db : Db) (newUser : User)
    (defaultRole : option Role) : Db :=
  match defaultRole with
  | Some role =>
      with_userRoles (with_users db (users db ++ [newUser]))
        (userRoles db ++ [mkUserRole (user_id newUser) (role_id role)])
  | None => with_users db (users db ++ [newUser])
  end.

(** The credentials a registration was made with, presented for login. *)
Definition credentials_of (input : RegisterInput) : LoginInput :=
  mkLoginInput (reg_email input) (reg_password input)
    (reg_organizationSlug input).

(** A stand-in for [bcrypt.hash], the counterpart of [plain_bcrypt]. *)
#[export] Instance plain_bcrypt_hash : BcryptHashApi := {
  bcrypt_hash := fun password _ => plain_hash password
}.

(** The store after the accounts with id [id] had their status set. *)
Definition db_with_status (db : Db) (id : string) (b : bool) : Db :=
  with_users db
    (map (fun u => if String.eqb (user_id u) id then set_isActive b u else u)
       (users db)).

(** The id is the primary key of the User table. *)
Definition user_ids_unique (db : Db) : Prop := NoDup (map user_id (users db)).

(* ====================================================================== *)
(** ** Fixtures: a registration on the seeded store *)
(* ====================================================================== *)

Module Newcomer.

(** The default-role query over a store whose roles are all global: the
    active role named USER. *)
Definition defaultRoleOf (db : Db) (orgId : string) : option Role :=
  find (fun r => String.eqb (role_name r) "USER" && role_isActive r) (roles db).

Definition input : RegisterInput :=
  mkRegisterInput "new@acme.com" "Secret@1" "New" "Comer" "acme-corp".

(** The same email and organization, under another password and name. *)
Definition again : RegisterInput :=
  mkRegisterInput "new@acme.com" "Other@2" "Newer" "Comer" "acme-corp".

Definition user : User :=
  mkUser "u-new" "new@acme.com" (plain_hash "Secret@1") "New" "Comer" true
    "org-acme" None.

(** The seeded store after the registration of [input] under id "u-new". *)
Definition db_registered : Db :=
  with_userRoles (with_users Seed.db (users Seed.db ++ [user]))
    (userRoles Seed.db ++ [mkUserRole "u-new" "r-user"]).

Definition world_registered : World MemCache := mkWorld db_registered [] [].

End Newcomer.

(** The seeded session after the manager's account was deactivated. *)
Module Suspended.

Definition db : Db := db_with_status Seed.db_loggedIn "u-manager" false.

Definition world : World MemCache := mkWorld db [] [].

End Suspended.

(* ====================================================================== *)
(** ** features/users: role assignment *)
(* ====================================================================== *)

(** [tx.userRole.deleteMany({ where: { userId } })] *)
Definition userRole_deleteMany (userId : string) : prisma.Query unit :=
  fun db =>
    (Resolved tt,
     with_userRoles db
       (filter (fun ur => negb (String.eqb (ur_userId ur) userId))
          (userRoles db))).

Definition UserRole_eqb (a b : UserRole) : bool :=
  String.eqb (ur_userId a) (ur_userId b)
  && String.eqb (ur_roleId a) (ur_roleId b).

Fixpoint distinct_rows (rows : list UserRole) : bool :=
  match rows with
  | [] => true
  | r :: rest => negb (existsb (UserRole_eqb r) rest) && distinct_rows rest
  end.

(** [tx.userRole.createMany({ data })].  The pair (userId, roleId) is
    unique (it is the key [userId_roleId] of the seed's upserts): a batch
    that repeats a pair, or brings one that is stored, is refused with
    P2002. *)
Definition userRole_createMany (data : list UserRole) : prisma.Query unit :=
  fun db =>
    if distinct_rows data
       && negb (existsb (fun r => existsb (UserRole_eqb r) (userRoles db)) data)
    then (Resolved tt, with_userRoles db (userRoles db ++ data))
    else (Rejected (PrismaErr "P2002"), db).

(** [tx.user.findUnique({ where: { id }, select: USER_WITH_ROLES })] *)
Definition user_findUnique_view (id : string) : prisma.Query (option UserView) :=
  fun db => (Resolved (option_map (view db) (prisma.user_byId db id)), db).

(** [invalidRoleIds.join(', ')] *)
Definition join (sep : string) (xs : list string) : string :=
  String.concat sep xs.

Module RoleAssignment.
Section Roles.

Context {C : Type} `{CacheApi C}.

(** The column [Role.organizationId] ([None] for a global role); the
    store modelled here does not carry it. *)
Variable role_organizationId : Role -> option string.

(** [OR: [{ organizationId }, { organizationId: null }]] *)
Definition accessible (orgId : string) (r : Role) : bool :=
  match role_organizationId r with
  | Some o => String.eqb o orgId
  | None => true
  end.

(** [tx.role.findMany({ where: { id: { in: roleIds }, isActive: true,
    OR: [...] }, select: { id: true } })] *)
Definition role_findMany_valid (orgId : string) (roleIds : list string)
    : prisma.Query (list Role) :=
  fun db =>
    (Resolved
       (filter (fun r => existsb (String.eqb (role_id r)) roleIds
                         && role_isActive r && accessible orgId r)
          (roles db)), db).

(** [userRepository.assignRoles(userId, organizationId, roleIds,
    assignedBy)]; the column [assignedBy] is not part of the rows
    modelled here. *)
Definition repository_assignRoles (userId orgId : string)
    (roleIds : list string) : Async C (option UserView) :=
  transaction
    (validRoles <- await_prisma (role_findMany_valid orgId roleIds) ;;
     let validRoleIds := map role_id validRoles in
     let invalidRoleIds :=
       filter (fun id => negb (existsb (String.eqb id) validRoleIds)) roleIds in
     if Nat.ltb 0 (length invalidRoleIds) then
       throw (AppErr (BadRequestError
                        ("Invalid or inaccessible role IDs: "
                           ++ join ", " invalidRoleIds)))
     else
       await_prisma (userRole_deleteMany userId) ;;;
       await_prisma
         (userRole_createMany (map (mkUserRole userId) validRoleIds)) ;;;
       await_prisma (user_findUnique_view userId)).

(** [userService.assignRoles(userId, organizationId, roleIds,
    assignedBy)] *)
Definition assignRoles (userId orgId : string) (roleIds : list string)
    : Async C (option UserView) :=
  user <- userRepository.findById userId orgId ;;
  match user with
  | None => throw (AppErr (NotFoundError "User"))
  | Some _ =>
      updated <- repository_assignRoles userId orgId roleIds ;;
      await_cache_delPattern (permissionsOfUser userId) ;;;
      ret updated
  end.

End Roles.
End RoleAssignment.

(* ====================================================================== *)
(** ** Vocabulary of the properties of role assignment *)
(* ====================================================================== *)

(** The id is the primary key of the Role table. *)
Definition role_ids_unique (db : Db) : Prop := NoDup (map role_id (roles db)).

(** The role id names an active role that the organization may use. *)
Definition assignable (role_organizationId : Role -> option string)
    (db : Db) (orgId roleId : string) : Prop :=
  exists role,
    In role (roles db) /\ role_id role = roleId
    /\ role_isActive role = true
    /\ RoleAssignment.accessible role_organizationId orgId role = true.

(** The role with id [roleId] grants the action [a]: it is active and one
    of its permission assignments leads to an active permission with
    that action. *)
Definition role_grants (db : Db) (roleId a : string) : Prop :=
  exists role rp p,
    prisma.role_byId db roleId = Some role /\
    role_isActive role = true /\
    In rp (rolePermissions db) /\ rp_roleId rp = role_id role /\
    prisma.permission_byId db (rp_permissionId rp) = Some p /\
    perm_isActive p = true /\ perm_action p = a.

(** The cache forgets the permission sets of a user when they are deleted
    by pattern. *)
Definition delPattern_clears_permissions (C : Type) `{CacheApi C} : Prop :=
  forall (c : C) userId orgId,
    cache_get (cache_delPattern c (permissionsOfUser userId))
      (permissionsKey userId orgId) = JNull.

(** The ids of [roleIds] that name an active role the organization may
    use, as the validation query finds them. *)
Definition validRoleIds (role_organizationId : Role -> option string)
    (db : Db) (orgId : string) (roleIds : list string) : list string :=
  map role_id
    (filter (fun r => existsb (String.eqb (role_id r)) roleIds
                      && role_isActive r
                      && RoleAssignment.accessible role_organizationId orgId r)
       (roles db)).

(** The store a completed role assignment leaves: the assignments of
    the other users, then one row for each valid role id. *)
Definition db_after_assignRoles (role_organizationId : Role -> option string)
    (db : Db) (userId orgId : string) (roleIds : list string) : Db :=
  with_userRoles db
    (filter (fun ur => negb (String.eqb (ur_userId ur) userId)) (userRoles db)
       ++ map (mkUserRole userId)
            (validRoleIds role_organizationId db orgId roleIds)).
(** The seeded roles with a scope: MANAGER belongs to Acme, the others
    are global. *)
Module Scoped.

Definition role_organizationId (r : Role) : option string :=
  if String.eqb (role_id r) "r-manager" then Some "org-acme" else None.

(** The seeded store after John was given the role MANAGER alone. *)
Definition db_promoted : Db :=
  with_userRoles Seed.db
    [mkUserRole "u-manager" "r-manager"; mkUserRole "u-manager" "r-user";
     mkUserRole "u-manager" "r-retired"; mkUserRole "u-user" "r-manager"].

End Scoped.

(* ====================================================================== *)
(** ** features/feature-flags: FeatureFlagService.isEnabled *)
(* ====================================================================== *)

(** A row of the FeatureFlag table: a flag for a key, optionally scoped
    to an organization and to a role. *)
Record FeatureFlag := mkFeatureFlag {
  ff_key : string;
  ff_organizationId : option string;
  ff_roleId : option string;
  ff_isEnabled : bool
}.

(** The cache module of config/redis.js as the feature flags use it,
    addressed by the key string. *)
Class FlagCacheApi (C : Type) := {
  flags_get : C -> string -> JsValue;
  flags_set : C -> string -> JsValue -> Z -> C
}.

(** ... and as the repository ships it: [get] answers [null], [set] does
    nothing. *)
#[export] Instance noop_flag_cache : FlagCacheApi unit := {
  flags_get := fun _ _ => JNull;
  flags_set := fun c _ _ _ => c
}.

(** [config.cache.featureFlagsTTL] *)
Definition featureFlagsTTL : Z := 300.

(** [cached !== null] *)
Definition not_null (v : JsValue) : bool :=
  match v with
  | JNull => false
  | _ => true
  end.

(** [await cache.get(key)] and [await cache.set(key, value, ttl)] *)
Definition await_flags_get {C} `{FlagCacheApi C} (key : string)
    : Async C JsValue :=
  fun w => (Resolved (flags_get (w_cache w) key), w).

Definition await_flags_set {C} `{FlagCacheApi C} (key : string) (v : JsValue)
    (ttl : Z) : Async C unit :=
  fun w =>
    (Resolved tt, mkWorld (w_db w) (flags_set (w_cache w) key v ttl) (w_faults w)).

Module FeatureFlagService.
Section Service.

Context {C : Type} `{FlagCacheApi C}.

(** The FeatureFlag table; [isEnabled] only reads it. *)
Variable featureFlags : list FeatureFlag.

(** The order of the store on ids, descending: [id_desc a b] when [a]
    sorts before [b]. *)
Variable id_desc : string -> string -> bool.

(** [{ sort: 'desc', nulls: 'last' }] on one nullable id column; [None]
    stands for a tie. *)
Definition desc_nulls_last (a b : option string) : option bool :=
  match a, b with
  | Some x, Some y => if String.eqb x y then None else Some (id_desc x y)
  | Some _, None => Some true
  | None, Some _ => Some false
  | None, None => None
  end.

(** [orderBy: [{ organizationId: ... }, { roleId: ... }]]: whether row
    [a] may stand before row [b]. *)
Definition precedes (a b : FeatureFlag) : bool :=
  match desc_nulls_last (ff_organizationId a) (ff_organizationId b) with
  | Some before => before
  | None =>
      match desc_nulls_last (ff_roleId a) (ff_roleId b) with
      | Some before => before
      | None => true
      end
  end.

Fixpoint insert (x : FeatureFlag) (sorted : list FeatureFlag)
    : list FeatureFlag :=
  match sorted with
  | [] => [x]
  | y :: rest => if precedes x y then x :: sorted else y :: insert x rest
  end.

Definition orderBy (rows : list FeatureFlag) : list FeatureFlag :=
  fold_right insert [] rows.

(** [roleId: { in: roleIds }] *)
Definition roleId_in (roleIds : list string) (f : FeatureFlag) : bool :=
  match ff_roleId f with
  | Some r => existsb (String.eqb r) roleIds
  | None => false
  end.

Definition is_some (o : option string) (x : string) : bool :=
  match o with
  | Some y => String.eqb y x
  | None => false
  end.

Definition is_null (o : option string) : bool :=
  match o with
  | Some _ => false
  | None => true
  end.

(** The [where] of the query: the key, and one of the four scopes. *)
Definition where_ (key organizationId : string) (roleIds : list string)
    (f : FeatureFlag) : bool :=
  String.eqb (ff_key f) key
  && ((is_some (ff_organizationId f) organizationId && roleId_in roleIds f)
      || (is_null (ff_organizationId f) && roleId_in roleIds f)
      || (is_some (ff_organizationId f) organizationId && is_null (ff_roleId f))
      || (is_null (ff_organizationId f) && is_null (ff_roleId f))).

(** [prisma.featureFlag.findMany({ where, orderBy })] *)
Definition featureFlag_findMany (key organizationId : string)
    (roleIds : list string) : prisma.Query (list FeatureFlag) :=
  fun db =>
    (Resolved (orderBy (filter (where_ key organizationId roleIds) featureFlags)),
     db).

Definition cacheKey (key organizationId : string) : string :=
  "featureflags:" ++ key ++ ":" ++ organizationId.

(** [isEnabled(key, organizationId, roleIds)] *)
Definition isEnabled (key organizationId : string) (roleIds : list string)
    : Async C JsValue :=
  cached <- await_flags_get (cacheKey key organizationId) ;;
  if not_null cached then ret cached
  else
    flags <- await_prisma (featureFlag_findMany key organizationId roleIds) ;;
    let isEnabled :=
      match flags with
      | first :: _ => ff_isEnabled first
      | [] => false
      end in
    await_flags_set (cacheKey key organizationId) (JBool isEnabled)
      featureFlagsTTL ;;;
    ret (JBool isEnabled).

End Service.
End FeatureFlagService.

(* ====================================================================== *)
(** ** Vocabulary of the properties of feature flags *)
(* ====================================================================== *)

(** How specific the scope of a row is, the most specific first: an
    organization and a role, an organization, a role, neither. *)
Definition specificity (f : FeatureFlag) : nat :=
  match ff_organizationId f, ff_roleId f with
  | Some _, Some _ => 0
  | Some _, None => 1
  | None, Some _ => 2
  | None, None => 3
  end.

(** The rows the query of [isEnabled] selects. *)
Definition applicable (featureFlags : list FeatureFlag)
    (key organizationId : string) (roleIds : list string) (f : FeatureFlag)
    : Prop :=
  In f featureFlags
  /\ FeatureFlagService.where_ key organizationId roleIds f = true.

(** A flag cache that answers a read with what was last written. *)
Definition flags_read_own_writes (C : Type) `{FlagCacheApi C} : Prop :=
  forall (c : C) key v ttl, flags_get (flags_set c key v ttl) key = v.

(** An in-memory flag cache: the entries written so far, newest first. *)
Definition MemFlagCache : Type := list (string * JsValue * Z).

#[export] Instance mem_flag_cache : FlagCacheApi MemFlagCache := {
  flags_get := fun c k =>
    match find (fun e => String.eqb (fst (fst e)) k) c with
    | Some e => snd (fst e)
    | None => JNull
    end;
  flags_set := fun c k v ttl => (k, v, ttl) :: c
}.
(** A flag that is on for managers everywhere and off for Acme. *)
Module Flags.

Definition id_desc (a b : string) : bool :=
  match String.compare a b with
  | Gt => true
  | _ => false
  end.

Definition managers_on : FeatureFlag :=
  mkFeatureFlag "beta" None (Some "r-manager") true.

Definition acme_off : FeatureFlag :=
  mkFeatureFlag "beta" (Some "org-acme") None false.

Definition table : list FeatureFlag := [managers_on; acme_off].

Definition world : World MemFlagCache := mkWorld Seed.db [] [].

(** ... and the cache after the flag was resolved for Acme. *)
Definition resolved : MemFlagCache :=
  [("featureflags:beta:org-acme", JBool false, 300)].

End Flags.

(* ====================================================================== *)
(** ** features/users: UserService.createUser *)
(* ====================================================================== *)

(** The body of POST /users after validation. *)
Record CreateUserInput := mkCreateUserInput {
  cu_email : string;
  cu_password : string;
  cu_firstName : string;
  cu_lastName : string;
  cu_roleIds : option (list string)
}.

(** The [USER_SELECT] selection of a row, for the columns the store
    carries: no password hash, no roles. *)
Record UserSelected := mkUserSelected {
  sel_id : string;
  sel_email : string;
  sel_firstName : string;
  sel_lastName : string;
  sel_isActive : bool;
  sel_lastLoginAt : option Z;
  sel_organizationId : string
}.

Definition selected (u : User) : UserSelected :=
  mkUserSelected (user_id u) (user_email u) (user_firstName u)
    (user_lastName u) (user_isActive u) (user_lastLoginAt u)
    (user_organizationId u).

(** What [createUser] returns: the created row, or what the role
    assignment returned. *)
Inductive Created :=
| created_user (user : UserSelected)
| created_with_roles (updated : option UserView).

Module UserCreation.
Section Service.

Context {C : Type} `{BcryptHashApi}.

(** [config.bcrypt.saltRounds], the column [Role.organizationId], the
    default of the column [User.isActive] and the id the store draws for
    the new row. *)
Variable saltRounds : Z.
Variable role_organizationId : Role -> option string.
Variable isActiveDefault : bool.
Variable newId : string.

(** [userRepository.findByEmail(email, organizationId)] *)
Definition findByEmail (mail orgId : string) : Async C (option UserSelected) :=
  await_prisma
    (fun db =>
       (Resolved (option_map selected (prisma.user_byEmail db mail orgId)), db)).

(** [userRepository.create(data, organizationId)], for the data
    [{ email, firstName, lastName, passwordHash }] the service picks. *)
Definition create (mail firstName lastName passwordHash orgId : string)
    : Async C UserSelected :=
  user <- await_prisma
            (user_create newId isActiveDefault mail passwordHash firstName
               lastName orgId) ;;
  ret (selected user).

(** [createUser(data, organizationId)] *)
Definition createUser (data : CreateUserInput) (orgId : string)
    : Async C Created :=
  existing <- findByEmail (cu_email data) orgId ;;
  match existing with
  | Some _ =>
      throw (AppErr (ConflictError "User with this email already exists"))
  | None =>
      let passwordHash := bcrypt_hash (cu_password data) saltRounds in
      user <- create (cu_email data) (cu_firstName data) (cu_lastName data)
                passwordHash orgId ;;
      match cu_roleIds data with
      | Some roleIds =>
          if Nat.ltb 0 (length roleIds) then
            updated <-
              RoleAssignment.repository_assignRoles role_organizationId
                (sel_id user) orgId roleIds ;;
            ret (created_with_roles updated)
          else ret (created_user user)
      | None => ret (created_user user)
      end
  end.

End Service.
End UserCreation.

(* ====================================================================== *)
(** ** features/users: UserService.updateUser *)
(* ====================================================================== *)

(** The body of PATCH /users/:id after validation: each field is
    optional ([None] is [undefined]). *)
Record UpdateUserInput := mkUpdateUserInput {
  up_firstName : option string;
  up_lastName : option string;
  up_email : option string;
  up_isActive : option bool
}.

(** [pick(data, ['firstName', 'lastName', 'email', 'isActive'])]: the
    keys of the list that the object defines. *)
Definition pick_updateData (data : UpdateUserInput) : UpdateUserInput :=
  mkUpdateUserInput (up_firstName data) (up_lastName data) (up_email data)
    (up_isActive data).

(** [Object.keys(updateData).length === 0] *)
Definition no_keys (updateData : UpdateUserInput) : bool :=
  match up_firstName updateData, up_lastName updateData,
        up_email updateData, up_isActive updateData with
  | None, None, None, None => true
  | _, _, _, _ => false
  end.

Definition or_else {A} (o : option A) (d : A) : A :=
  match o with
  | Some a => a
  | None => d
  end.

(** [data: updateData] applied to one row. *)
Definition apply_updateData (updateData : UpdateUserInput) (u : User) : User :=
  mkUser (user_id u) (or_else (up_email updateData) (user_email u))
    (user_passwordHash u)
    (or_else (up_firstName updateData) (user_firstName u))
    (or_else (up_lastName updateData) (user_lastName u))
    (or_else (up_isActive updateData) (user_isActive u))
    (user_organizationId u) (user_lastLoginAt u).

(** [prisma.user.update({ where: { id }, data: updateData, select:
    USER_WITH_ROLES })]; rejects with P2025 when no row has that id, and
    with P2002 when the email it writes is that of another account of
    the organization. *)
Definition user_update (id : string) (updateData : UpdateUserInput)
    : prisma.Query UserView :=
  fun db =>
    match prisma.user_byId db id with
    | None => (Rejected (PrismaErr "P2025"), db)
    | Some u =>
        let taken :=
          match up_email updateData with
          | Some mail =>
              existsb (fun other =>
                         negb (String.eqb (user_id other) id)
                         && String.eqb (user_email other) mail
                         && String.eqb (user_organizationId other)
                              (user_organizationId u))
                (users db)
          | None => false
          end in
        if taken then (Rejected (PrismaErr "P2002"), db)
        else
          let db' :=
            with_users db
              (map (fun x => if String.eqb (user_id x) id
                             then apply_updateData updateData x else x)
                 (users db)) in
          (Resolved (view db' (apply_updateData updateData u)), db')
    end.

Module UserUpdate.
Section Service.

Context {C : Type}.

(** [userRepository.findAndUpdate(id, organizationId, data)] *)
Definition findAndUpdate (id orgId : string) (data : UpdateUserInput)
    : Async C (option UserView) :=
  user <- await_prisma
            (fun db => (Resolved (userRepository.user_inTenant db id orgId), db)) ;;
  match user with
  | None => ret None
  | Some _ =>
      updated <- await_prisma (user_update id data) ;;
      ret (Some updated)
  end.

(** [updateUser(id, organizationId, data)] *)
Definition updateUser (id orgId : string) (data : UpdateUserInput)
    : Async C (option UserView) :=
  user <- userRepository.findById id orgId ;;
  match user with
  | None => throw (AppErr (NotFoundError "User"))
  | Some user =>
      let updateData := pick_updateData data in
      if no_keys updateData then
        throw (AppErr (BadRequestError "No valid fields to update"))
      else
        match up_email updateData with
        | Some mail =>
            if negb (String.eqb mail "") && negb (String.eqb mail (uv_email user))
            then
              existing <- UserCreation.findByEmail mail orgId ;;
              match existing with
              | Some _ => throw (AppErr (ConflictError "Email already in use"))
              | None => ret tt
              end
            else ret tt
        | None => ret tt
        end ;;;
        findAndUpdate id orgId updateData
  end.

End Service.
End UserUpdate.

(** The update that switches an account off and writes nothing else. *)
Definition switch_off : UpdateUserInput :=
  mkUpdateUserInput None None None (Some false).

(* ====================================================================== *)
(** ** AuthService.refresh, with the readings of the clock told apart *)
(* ====================================================================== *)

(** The readings of the clock during one [refresh]: [jwt.verify] reads
    it first; [new Date()] of the expiry check reads it after the
    awaited lookup; the new pair is issued last. *)
Record RefreshClock := mkRefreshClock {
  at_verify : Z;
  at_check : Z;
  at_issue : Z
}.

(** [refresh({ refreshToken })] under these readings.  [AuthService.refresh]
    is the case in which they coincide. *)
Definition refresh_clocked {C} (env : Env) (clock : RefreshClock)
    (presented : Token) : Async C TokenPair :=
  match jwt.verify (at_verify clock) presented refreshSecret with
  | None => throw (AppErr (UnauthorizedError "Invalid refresh token"))
  | Some decoded =>
      storedToken <- await_prisma (prisma.refreshToken_findUnique presented) ;;
      match storedToken with
      | None => throw (AppErr (UnauthorizedError "Refresh token not found"))
      | Some (id, stored, user) =>
          if rt_isRevoked stored then
            await_prisma
              (prisma.refreshToken_updateMany
                 (fun r => String.eqb (rt_family r) (rt_family stored))) ;;;
            throw (AppErr (UnauthorizedError
                             "Token reuse detected — all sessions revoked"))
          else if at_check clock >? rt_expiresAt stored then
            throw (AppErr (UnauthorizedError "Refresh token expired"))
          else
            match user with
            | None =>
                throw (AppErr (UnauthorizedError "User account is deactivated"))
            | Some user =>
                if negb (user_isActive user) then
                  throw (AppErr (UnauthorizedError
                                   "User account is deactivated"))
                else
                  settled <-
                    promise_all
                      (await_prisma (prisma.refreshToken_update id))
                      (AuthService._generateTokenPair
                         (mkEnv (env_jwt env) (at_issue clock) (env_uuid env))
                         user (organizationId decoded)
                         (Some (rt_family stored))) ;;
                  ret (mkTokenPair (accessToken (snd settled))
                         (refreshToken (snd settled)))
            end
      end
  end.

(* ====================================================================== *)
(** ** AuthService.refresh, two requests under way at once *)
(* ====================================================================== *)

(** What [refresh] does once its awaited lookup is answered with
    [storedToken]. *)
Definition refresh_after_lookup {C} (env : Env) (decoded : Claims)
    (storedToken : option StoredToken) : Async C TokenPair :=
  match storedToken with
  | None => throw (AppErr (UnauthorizedError "Refresh token not found"))
  | Some (id, stored, user) =>
      if rt_isRevoked stored then
        await_prisma
          (prisma.refreshToken_updateMany
             (fun r => String.eqb (rt_family r) (rt_family stored))) ;;;
        throw (AppErr (UnauthorizedError
                         "Token reuse detected — all sessions revoked"))
      else if env_now env >? rt_expiresAt stored then
        throw (AppErr (UnauthorizedError "Refresh token expired"))
      else
        match user with
        | None =>
            throw (AppErr (UnauthorizedError "User account is deactivated"))
        | Some user =>
            if negb (user_isActive user) then
              throw (AppErr (UnauthorizedError "User account is deactivated"))
            else
              settled <-
                promise_all
                  (await_prisma (prisma.refreshToken_update id))
                  (AuthService._generateTokenPair env user
                     (organizationId decoded) (Some (rt_family stored))) ;;
              ret (mkTokenPair (accessToken (snd settled))
                     (refreshToken (snd settled)))
        end
  end.

(** [refresh] up to and including its awaited lookup: the verified
    payload and the row found. *)
Definition refresh_lookup {C} (env : Env) (presented : Token)
    : Async C (Claims * option StoredToken) :=
  match jwt.verify (env_now env) presented refreshSecret with
  | None => throw (AppErr (UnauthorizedError "Invalid refresh token"))
  | Some decoded =>
      storedToken <- await_prisma (prisma.refreshToken_findUnique presented) ;;
      ret (decoded, storedToken)
  end.

(** ... and [refresh] from there on, once the lookup has settled. *)
Definition refresh_resume {C} (env : Env)
    (looked : Outcome (Claims * option StoredToken)) : Async C TokenPair :=
  match looked with
  | Resolved (decoded, storedToken) =>
      refresh_after_lookup env decoded storedToken
  | Rejected e => throw e
  end.

(** Two requests that present the same token and overlap: the function
    yields at its first [await], so the lookups of both are answered
    before either request goes on; then each runs to its end, the first
    one first. *)
Definition overlapping_refreshes {C} (envA envB : Env) (presented : Token)
    (w : World C)
    : Outcome TokenPair * Outcome TokenPair * World C :=
  let (lookedA, w1) := refresh_lookup envA presented w in
  let (lookedB, w2) := refresh_lookup envB presented w1 in
  let (resultA, w3) := refresh_resume envA lookedA w2 in
  let (resultB, w4) := refresh_resume envB lookedB w3 in
  (resultA, resultB, w4).

(* ====================================================================== *)
(** ** Basic facts: token equality, list helpers *)
(* ====================================================================== *)

Lemma option_eqb_eq {A} (eqb : A -> A -> bool) :
  (forall a b, eqb a b = true <-> a = b) ->
  forall x y, option_eqb eqb x y = true <-> x = y.
Proof.
  intros Heq [a|] [b|]; simpl; try (split; congruence).
  rewrite Heq. split; congruence.
Qed.

Lemma Secret_eqb_eq a b : Secret_eqb a b = true <-> a = b.
Proof. destruct a, b; simpl; split; congruence. Qed.

Lemma Claims_eqb_eq a b : Claims_eqb a b = true <-> a = b.
Proof.
  destruct a, b. unfold Claims_eqb; simpl.
  rewrite !andb_true_iff, !String.eqb_eq, Z.eqb_eq.
  rewrite !(option_eqb_eq String.eqb String.eqb_eq).
  rewrite (option_eqb_eq Z.eqb Z.eqb_eq).
  split.
  - intros [[[[[-> ->] ->] ->] ->] ->]. reflexivity.
  - intros E; injection E; intros; subst; repeat split.
Qed.

Lemma Token_eqb_eq a b : Token_eqb a b = true <-> a = b.
Proof.
  destruct a as [k c|r], b as [k' c'|r']; simpl; try (split; congruence).
  - rewrite andb_true_iff, Secret_eqb_eq, Claims_eqb_eq.
    split; [intros [-> ->]; reflexivity | intros E; injection E; auto].
  - rewrite String.eqb_eq. split; congruence.
Qed.

Lemma Token_eqb_neq a b : Token_eqb a b = false <-> a <> b.
Proof.
  rewrite <- Token_eqb_eq. destruct (Token_eqb a b); split; congruence.
Qed.

Lemma find_index_Some {A} (p : A -> bool) l i x :
  find_index p l = Some (i, x) -> nth_error l i = Some x /\ p x = true.
Proof.
  revert i. induction l as [|y l IH]; simpl; intros i; [discriminate|].
  destruct (p y) eqn:Hp.
  - intros E; injection E; intros; subst. auto.
  - destruct (find_index p l) as [[j z]|]; [|discriminate].
    intros E; injection E; intros; subst. simpl. apply IH. reflexivity.
Qed.

Lemma find_index_None {A} (p : A -> bool) l :
  find_index p l = None <-> existsb p l = false.
Proof.
  induction l as [|y l IH]; simpl; [tauto|].
  destruct (p y); simpl; [split; discriminate|].
  destruct (find_index p l) as [[j z]|]; split; intros E; try discriminate.
  - apply IH in E; discriminate.
  - apply IH. reflexivity.
  - reflexivity.
Qed.

Lemma length_update_at {A} i (f : A -> A) l :
  length (update_at i f l) = length l.
Proof.
  revert i; induction l as [|x l IH]; intros [|i]; simpl; auto.
Qed.

Lemma nth_error_update_at {A} i j (f : A -> A) l :
  nth_error (update_at i f l) j =
  if Nat.eqb i j then option_map f (nth_error l j) else nth_error l j.
Proof.
  revert i j; induction l as [|x l IH]; intros [|i] [|j]; simpl; auto.
  - destruct (Nat.eqb i j); reflexivity.
Qed.

Lemma revoke_family (r : RefreshToken) : rt_family (revoke r) = rt_family r.
Proof. reflexivity. Qed.

Lemma revoke_isRevoked (r : RefreshToken) : rt_isRevoked (revoke r) = true.
Proof. reflexivity. Qed.

(** Running one storage call when none is lost. *)
Lemma await_prisma_reliable {C A} (q : prisma.Query A) (w : World C) :
  storage_reliable w ->
  await_prisma q w = (fst (q (w_db w)), mkWorld (snd (q (w_db w))) (w_cache w) []).
Proof.
  unfold storage_reliable, await_prisma. intros ->.
  destruct (q (w_db w)); reflexivity.
Qed.

(* ====================================================================== *)
(** ** Refresh rotation: replay detection *)
(* ====================================================================== *)

Section Replay.

Context {C : Type} `{CacheApi C} `{BcryptApi}.
Variable env : Env.

Lemma family_revoked_all fam rts r :
  In r (family_revoked fam rts) -> rt_family r = fam -> rt_isRevoked r = true.
Proof.
  unfold family_revoked, revoked_where. rewrite in_map_iff. intros [r0 [E _]] Hf.
  destruct (String.eqb (rt_family r0) fam) eqn:Hfam; subst r.
  - reflexivity.
  - apply String.eqb_neq in Hfam. contradiction.
Qed.

Lemma family_revoked_others fam rts i r :
  nth_error rts i = Some r -> rt_family r <> fam ->
  nth_error (family_revoked fam rts) i = Some r.
Proof.
  intros Hi Hf. unfold family_revoked, revoked_where.
  rewrite nth_error_map, Hi. simpl.
  apply String.eqb_neq in Hf. rewrite Hf. reflexivity.
Qed.

(** C1.  A presented refresh token that verifies and whose stored record
    is already revoked is a replay: the refresh marks every row of that
    record's family revoked (rows of other families are untouched, no
    row is added) and then rejects with Unauthorized, "Token reuse
    detected — all sessions revoked". *)
Theorem refresh_replay_revokes_family :
  forall (presented : Token) (w : World C) decoded id stored user,
    storage_reliable w ->
    jwt.verify (env_now env) presented refreshSecret = Some decoded ->
    fst (prisma.refreshToken_findUnique presented (w_db w))
      = Resolved (Some (id, stored, user)) ->
    rt_isRevoked stored = true ->
    let rts := refreshTokens (w_db w) in
    let rts' := family_revoked (rt_family stored) rts in
    run (AuthService.refresh env presented) w
      = (Rejected (AppErr (UnauthorizedError
                             "Token reuse detected — all sessions revoked")),
         mkWorld (with_refreshTokens (w_db w) rts') (w_cache w) [])
    /\ (forall r, In r rts' -> rt_family r = rt_family stored ->
                  rt_isRevoked r = true)
    /\ (forall i r, nth_error rts i = Some r ->
                    rt_family r <> rt_family stored ->
                    nth_error rts' i = Some r)
    /\ length rts' = length rts.
Proof.
  intros presented w decoded id stored user Hrel Hver Hfind Hrev rts rts'.
  split; [|split; [|split]].
  - unfold run, AuthService.refresh. rewrite Hver.
    unfold bind at 1. rewrite (await_prisma_reliable _ _ Hrel).
    rewrite Hfind. simpl snd. cbv beta iota. rewrite Hrev.
    unfold bind, throw. rewrite await_prisma_reliable by reflexivity.
    reflexivity.
  - intros r. apply family_revoked_all.
  - intros i r. apply family_revoked_others.
  - unfold rts', family_revoked, revoked_where. apply length_map.
Qed.

End Replay.

(* ====================================================================== *)
(** ** Refresh rotation: the two writes *)
(* ====================================================================== *)

Lemma existsb_update_at_revoke (p : RefreshToken -> bool) i rts :
  (forall r, p (revoke r) = p r) ->
  existsb p (update_at i revoke rts) = existsb p rts.
Proof.
  intros Hp. revert i. induction rts as [|r rts IH]; intros [|i]; simpl; auto.
  - rewrite Hp. reflexivity.
  - rewrite IH. reflexivity.
Qed.

Section Rotation.

Context {C : Type}.
Variable env : Env.

(** A rotation whose successor row is refused, because a row with the
    successor's token string is already stored, rejects with P2002 and
    nevertheless leaves the presented row revoked: the two writes are
    not one unit. *)
Lemma rotation_partial_when_create_refused presented (w : World C)
      decoded id stored user :
  storage_reliable w ->
  jwt.verify (env_now env) presented refreshSecret = Some decoded ->
  fst (prisma.refreshToken_findUnique presented (w_db w))
    = Resolved (Some (id, stored, Some user)) ->
  rt_isRevoked stored = false ->
  (env_now env >? rt_expiresAt stored) = false ->
  user_isActive user = true ->
  prisma.refreshToken_byToken (w_db w)
    (jwt.sign (env_now env) (user_id user) None (organizationId decoded)
       (Some (AuthService.tokenFamily env (Some (rt_family stored))))
       refreshSecret (expiresInSeconds (refreshExpiry (env_jwt env)))) <> None ->
  run (AuthService.refresh env presented) w
  = (Rejected (PrismaErr "P2002"),
     mkWorld
       (with_refreshTokens (w_db w) (update_at id revoke (refreshTokens (w_db w))))
       (w_cache w) []).
Proof.
  intros Hrel Hver Hfind Hlive Hfresh Hactive Hstored.
  unfold run, AuthService.refresh. rewrite Hver.
  unfold bind at 1. rewrite (await_prisma_reliable _ _ Hrel).
  rewrite Hfind. unfold prisma.refreshToken_findUnique at 1. cbn [snd].
  rewrite Hlive, Hfresh, Hactive. cbn [negb].
  assert (Hnth : nth_error (refreshTokens (w_db w)) id = Some stored).
  { unfold prisma.refreshToken_findUnique in Hfind. cbn [fst] in Hfind.
    destruct (prisma.refreshToken_byToken (w_db w) presented) as [[i r]|] eqn:E;
      [|discriminate].
    injection Hfind as -> -> _. apply find_index_Some in E. apply E. }
  unfold bind at 1. unfold promise_all.
  rewrite await_prisma_reliable by reflexivity.
  unfold prisma.refreshToken_update at 1 2. cbn [w_db]. rewrite Hnth.
  cbn [fst snd]. unfold AuthService._generateTokenPair.
  unfold bind at 1. rewrite await_prisma_reliable by reflexivity.
  unfold prisma.refreshToken_create. cbn [w_db w_cache].
  match goal with
  | |- context [prisma.refreshToken_byToken ?db ?t] =>
      destruct (prisma.refreshToken_byToken db t) as [found|] eqn:Hlook
  end.
  - reflexivity.
  - exfalso. apply Hstored.
    unfold prisma.refreshToken_byToken in *. apply find_index_None.
    apply find_index_None in Hlook. cbn [refreshTokens with_refreshTokens] in Hlook.
    rewrite existsb_update_at_revoke in Hlook by reflexivity. exact Hlook.
Qed.

End Rotation.

(* ====================================================================== *)
(** ** Rules for reasoning about what a computation leaves in the store *)
(* ====================================================================== *)

Section Rules.

Context {C : Type} `{CacheApi C}.

Lemma triple_ret {A} (P : Db -> Prop) (a : A) Q E :
  (forall db, P db -> Q a db) -> triple (C:=C) P (ret a) Q E.
Proof. intros HQ w HP. simpl. auto. Qed.

Lemma triple_throw {A} (P : Db -> Prop) e (Q : A -> Db -> Prop) E :
  (forall db, P db -> E db) -> triple (C:=C) P (throw e) Q E.
Proof. intros HE w HP. simpl. auto. Qed.

Lemma triple_bind {A B} P (m : Async C A) (k : A -> Async C B) R Q E :
  triple P m R E -> (forall a, triple (R a) (k a) Q E) ->
  triple P (bind m k) Q E.
Proof.
  intros Hm Hk w HP. unfold bind. specialize (Hm w HP).
  destruct (m w) as [[a|e] w']; [apply (Hk a w' Hm) | exact Hm].
Qed.

Lemma triple_await_prisma {A} P (q : prisma.Query A) Q E :
  query_triple P q Q E -> (forall db, P db -> E db) ->
  triple (C:=C) P (await_prisma q) Q E.
Proof.
  intros Hq HE w HP. unfold await_prisma.
  destruct (w_faults w) as [|[|] rest]; simpl; auto;
    specialize (Hq (w_db w) HP); destruct (q (w_db w)) as [[a|e] db']; exact Hq.
Qed.

Lemma triple_cache_set P key v ttl (Q : unit -> Db -> Prop) E :
  (forall db, P db -> Q tt db) ->
  triple (C:=C) P (await_cache_set key v ttl) Q E.
Proof. intros HQ w HP. simpl. auto. Qed.

Lemma triple_cache_delPattern P pat (Q : unit -> Db -> Prop) E :
  (forall db, P db -> Q tt db) ->
  triple (C:=C) P (await_cache_delPattern pat) Q E.
Proof. intros HQ w HP. simpl. auto. Qed.

Lemma triple_try_ignore P (m : Async C unit) (R : Db -> Prop) E :
  triple P m (fun _ => R) R -> triple P (try_ignore m) (fun _ => R) E.
Proof.
  intros Hm w HP. unfold try_ignore. specialize (Hm w HP).
  destruct (m w) as [[a|e] w']; exact Hm.
Qed.

(** A query that only reads keeps whatever held. *)
Lemma query_triple_read {A} (P : Db -> Prop) (q : prisma.Query A) E :
  (forall db, exists a, q db = (Resolved a, db)) ->
  query_triple P q (fun _ => P) E.
Proof. intros Hq db HP. destruct (Hq db) as [a ->]. exact HP. Qed.

End Rules.

(* ====================================================================== *)
(** ** The token-family invariant *)
(* ====================================================================== *)

Lemma family_invariant_ext db db' :
  refreshTokens db' = refreshTokens db -> family_invariant db -> family_invariant db'.
Proof. unfold family_invariant. intros ->. auto. Qed.

Lemma active_in_revoked_where where_ fam rts :
  (length (active_in fam (revoked_where where_ rts))
   <= length (active_in fam rts))%nat.
Proof.
  induction rts as [|r rts IH]; simpl; [lia|].
  destruct (where_ r); simpl.
  - rewrite andb_false_r.
    destruct (String.eqb (rt_family r) fam && negb (rt_isRevoked r)); simpl; lia.
  - destruct (String.eqb (rt_family r) fam && negb (rt_isRevoked r)); simpl; lia.
Qed.

Lemma family_invariant_revoked_where where_ db :
  family_invariant db ->
  family_invariant (with_refreshTokens db (revoked_where where_ (refreshTokens db))).
Proof.
  intros Hinv fam. simpl.
  pose proof (active_in_revoked_where where_ fam (refreshTokens db)).
  specialize (Hinv fam). lia.
Qed.

Lemma active_in_unused db uuid :
  uuid_unused db uuid -> active_in uuid (refreshTokens db) = [].
Proof.
  unfold uuid_unused. induction (refreshTokens db) as [|r rts IH]; intros Hu.
  - reflexivity.
  - simpl. destruct (Hu r (or_introl eq_refl)) as [Hne _].
    apply String.eqb_neq in Hne. rewrite Hne. simpl.
    apply IH. intros r' Hin. apply Hu. right. exact Hin.
Qed.

(** Appending a live row to a family that has none keeps the invariant. *)
Lemma family_invariant_append db tok uid fam expires :
  family_invariant db ->
  active_in fam (refreshTokens db) = [] ->
  family_invariant
    (with_refreshTokens db
       (refreshTokens db ++ [mkRefreshToken tok uid fam expires false])).
Proof.
  intros Hinv Hnone g. simpl. unfold active_in. rewrite filter_app, length_app.
  simpl. destruct (String.eqb fam g) eqn:Hg; simpl.
  - apply String.eqb_eq in Hg. subst g. fold (active_in fam (refreshTokens db)).
    rewrite Hnone. simpl. lia.
  - specialize (Hinv g). unfold active_in in Hinv. lia.
Qed.

(** Revoking one row never adds a live token to any family ... *)
Lemma active_in_update_at_le fam i rts :
  (length (active_in fam (update_at i revoke rts))
   <= length (active_in fam rts))%nat.
Proof.
  revert i. induction rts as [|r rts IH]; intros [|i]; simpl; try lia.
  - rewrite andb_false_r.
    destruct (String.eqb (rt_family r) fam && negb (rt_isRevoked r)); simpl; lia.
  - specialize (IH i).
    destruct (String.eqb (rt_family r) fam && negb (rt_isRevoked r)); simpl; lia.
Qed.

(** ... and revoking the live row of a family takes one away. *)
Lemma active_in_update_at_live fam i rts r :
  nth_error rts i = Some r -> rt_family r = fam -> rt_isRevoked r = false ->
  S (length (active_in fam (update_at i revoke rts)))
  = length (active_in fam rts).
Proof.
  revert i. induction rts as [|x rts IH]; intros [|i]; simpl; try discriminate.
  - intros E Hf Hr. injection E as ->. rewrite Hf, Hr, String.eqb_refl. simpl.
    reflexivity.
  - intros Hi Hf Hr. specialize (IH i Hi Hf Hr).
    destruct (String.eqb (rt_family x) fam && negb (rt_isRevoked x)); simpl; lia.
Qed.

Section FamilyInvariant.

Context {C : Type} `{CacheApi C} `{BcryptApi}.
Variable env : Env.

Local Ltac read_only :=
  apply triple_await_prisma;
  [apply query_triple_read; intros db; eexists; reflexivity | tauto].

Lemma create_keeps_invariant tok uid fam expires :
  query_triple
    (fun db => family_invariant db /\ active_in fam (refreshTokens db) = [])
    (prisma.refreshToken_create tok uid fam expires)
    (fun _ => family_invariant) family_invariant.
Proof.
  intros db [Hinv Hnone]. unfold prisma.refreshToken_create.
  destruct (prisma.refreshToken_byToken db tok); [exact Hinv|].
  apply family_invariant_append; assumption.
Qed.

Lemma updateMany_keeps_invariant where_ :
  query_triple family_invariant (prisma.refreshToken_updateMany where_)
    (fun _ => family_invariant) family_invariant.
Proof.
  intros db Hinv. unfold prisma.refreshToken_updateMany.
  apply (family_invariant_revoked_where where_ db Hinv).
Qed.

Lemma lastLogin_keeps_invariant id now :
  query_triple family_invariant (prisma.user_update_lastLoginAt id now)
    (fun _ => family_invariant) family_invariant.
Proof.
  intros db Hinv. unfold prisma.user_update_lastLoginAt.
  destruct (prisma.user_byId db id); [|exact Hinv].
  revert Hinv. apply family_invariant_ext. reflexivity.
Qed.

Lemma generateTokenPair_keeps_invariant user orgId fam :
  triple (C:=C)
    (fun db => family_invariant db
               /\ active_in (AuthService.tokenFamily env fam) (refreshTokens db) = [])
    (AuthService._generateTokenPair env user orgId fam)
    (fun _ => family_invariant) family_invariant.
Proof.
  unfold AuthService._generateTokenPair.
  eapply triple_bind.
  - apply triple_await_prisma; [apply create_keeps_invariant | tauto].
  - intros ?. apply triple_ret. auto.
Qed.

(** A login leaves the invariant in place however far it gets. *)
Lemma login_keeps_invariant input :
  triple (C:=C)
    (fun db => family_invariant db /\ uuid_unused db (env_uuid env))
    (AuthService.login env input)
    (fun _ => family_invariant) family_invariant.
Proof.
  unfold AuthService.login.
  eapply triple_bind; [read_only|].
  intros [organization|]; [|apply triple_throw; tauto].
  destruct (negb (org_isActive organization)); [apply triple_throw; tauto|].
  eapply triple_bind; [read_only|].
  intros [user|]; [|apply triple_throw; tauto].
  destruct (negb (user_isActive user)); [apply triple_throw; tauto|].
  destruct (negb (bcrypt_compare _ _)); [apply triple_throw; tauto|].
  eapply triple_bind.
  { intros w [Hinv Hu].
    apply (generateTokenPair_keeps_invariant user (org_id organization) None w).
    split; [exact Hinv | apply active_in_unused; exact Hu]. }
  intros tokens. eapply triple_bind.
  { apply triple_await_prisma; [apply lastLogin_keeps_invariant | auto]. }
  intros ?. eapply triple_bind; [read_only|].
  intros userRoles. apply triple_ret. auto.
Qed.

Lemma blacklist_keeps_store (P : Db -> Prop) token :
  triple (C:=C) P (AuthService.blacklist env token) (fun _ => P) P.
Proof.
  unfold AuthService.blacklist. apply triple_try_ignore.
  destruct (jwt.decode token) as [decoded|]; [|apply triple_ret; auto].
  destruct (exp decoded) as [e|]; [|apply triple_ret; auto].
  destruct (Z.eqb e 0); [apply triple_ret; auto|].
  cbv zeta. destruct (_ >? 0); [apply triple_cache_set | apply triple_ret]; auto.
Qed.

Lemma logout_keeps_invariant access presented userId :
  triple (C:=C) family_invariant
    (AuthService.logout env access presented userId)
    (fun _ => family_invariant) family_invariant.
Proof.
  unfold AuthService.logout. eapply triple_bind.
  - instantiate (1 := fun _ => family_invariant).
    destruct access as [token|]; [|apply triple_ret; auto].
    destruct (token_truthy token); [apply blacklist_keeps_store | apply triple_ret; auto].
  - intros ?. unfold AuthService.revoke_presented.
    destruct presented as [token|]; [|apply triple_ret; auto].
    destruct (token_truthy token); [|apply triple_ret; auto].
    apply triple_await_prisma; [apply updateMany_keeps_invariant | auto].
Qed.

Lemma forceLogout_keeps_invariant userId :
  triple (C:=C) family_invariant (AuthService.forceLogout userId)
    (fun _ => family_invariant) family_invariant.
Proof.
  unfold AuthService.forceLogout. eapply triple_bind.
  - apply triple_await_prisma; [apply updateMany_keeps_invariant | auto].
  - intros ?. apply triple_cache_delPattern. auto.
Qed.

(** A rotation whose storage calls all arrive leaves the invariant in
    place: the presented row is revoked before its successor counts. *)
Lemma refresh_keeps_invariant presented (w : World C) :
  storage_reliable w ->
  family_invariant (w_db w) -> uuid_unused (w_db w) (env_uuid env) ->
  family_invariant (w_db (snd (run (AuthService.refresh env presented) w))).
Proof.
  intros Hrel Hinv Hu. unfold run, AuthService.refresh.
  destruct (jwt.verify _ _ _) as [decoded|]; [|exact Hinv].
  unfold bind at 1. rewrite (await_prisma_reliable _ _ Hrel).
  unfold prisma.refreshToken_findUnique at 1 2. simpl fst. simpl snd.
  destruct (prisma.refreshToken_byToken _ _) as [[id stored]|] eqn:Hfind;
    [|exact Hinv].
  apply find_index_Some in Hfind. destruct Hfind as [Hnth _].
  destruct (rt_isRevoked stored) eqn:Hrev.
  { unfold bind, throw. rewrite await_prisma_reliable by reflexivity.
    simpl. apply (family_invariant_revoked_where _ (w_db w) Hinv). }
  destruct (env_now env >? rt_expiresAt stored); [exact Hinv|].
  destruct (prisma.user_byId (w_db w) (rt_userId stored)) as [user|];
    [|exact Hinv].
  destruct (negb (user_isActive user)); [exact Hinv|].
  unfold bind, promise_all.
  rewrite await_prisma_reliable by reflexivity.
  unfold prisma.refreshToken_update at 1 2. simpl w_db. rewrite Hnth.
  simpl fst. simpl snd.
  set (db1 := with_refreshTokens (w_db w)
                (update_at id revoke (refreshTokens (w_db w)))).
  assert (Hinv1 : family_invariant db1).
  { intros g. simpl.
    pose proof (active_in_update_at_le g id (refreshTokens (w_db w))).
    specialize (Hinv g). lia. }
  assert (Hnone : active_in (AuthService.tokenFamily env (Some (rt_family stored)))
                    (refreshTokens db1) = []).
  { unfold AuthService.tokenFamily.
    destruct (String.eqb (rt_family stored) "").
    - apply length_zero_iff_nil.
      pose proof (active_in_update_at_le (env_uuid env) id
                    (refreshTokens (w_db w))) as Hle.
      rewrite (active_in_unused _ _ Hu) in Hle. simpl in *. lia.
    - apply length_zero_iff_nil.
      pose proof (active_in_update_at_live (rt_family stored) id _ _
                    Hnth eq_refl Hrev).
      specialize (Hinv (rt_family stored)). simpl. lia. }
  pose proof (generateTokenPair_keeps_invariant user (organizationId decoded)
                (Some (rt_family stored)) (mkWorld db1 (w_cache w) [])
                (conj Hinv1 Hnone)) as Hgen.
  destruct (AuthService._generateTokenPair env user (organizationId decoded)
              (Some (rt_family stored)) (mkWorld db1 (w_cache w) []))
    as [[tokens|e] w2]; exact Hgen.
Qed.

(** What does hold of the token-family invariant.  Served in turn, one
    request run to its end before the next begins, every operation that
    touches the RefreshToken table (login, refresh, logout, forceLogout)
    preserves it, resolved or rejected, provided a login or rotation
    draws an unused family id and, for a refresh, that none of its
    storage calls is lost.  Login, logout and forceLogout need no such
    proviso on the storage. *)
Theorem family_invariant_preserved :
  forall (op : Operation) (w : World C),
    family_invariant (w_db w) ->
    well_served env op w ->
    family_invariant (w_db (exec env op w)).
Proof.
  intros op w Hinv Hop.
  destruct op as [input|presented|access presented userId|userId];
    unfold exec, run; simpl in Hop.
  - pose proof (login_keeps_invariant input w (conj Hinv Hop)) as Hl.
    destruct (AuthService.login env input w) as [[a|e] w']; exact Hl.
  - destruct Hop as [Hu Hrel]. apply refresh_keeps_invariant; assumption.
  - pose proof (logout_keeps_invariant access presented userId w Hinv) as Hl.
    destruct (AuthService.logout env access presented userId w) as [[a|e] w'];
      exact Hl.
  - pose proof (forceLogout_keeps_invariant userId w Hinv) as Hl.
    destruct (AuthService.forceLogout userId w) as [[a|e] w']; exact Hl.
Qed.

End FamilyInvariant.

(** Hence the invariant holds at every observation point between
    requests: along any run that starts from a store satisfying it, the
    empty table for one. *)
Lemma family_invariant_along_runs {C} `{CacheApi C} `{BcryptApi}
    (requests : list (Env * Operation)) (w : World C) :
  family_invariant (w_db w) ->
  all_well_served requests w ->
  family_invariant (w_db (exec_all requests w)).
Proof.
  revert w. induction requests as [|[env op] rest IH]; intros w Hinv Hserved.
  - exact Hinv.
  - destruct Hserved as [Hop Hrest]. simpl. apply IH; [|exact Hrest].
    clear IH Hrest.
    destruct op as [input|presented|access presented userId|userId];
      unfold exec, run; simpl in Hop.
    + pose proof (login_keeps_invariant env input w (conj Hinv Hop)) as Hl.
      destruct (AuthService.login env input w) as [[a|e] w']; exact Hl.
    + destruct Hop as [Hu Hrel]. apply refresh_keeps_invariant; assumption.
    + pose proof (logout_keeps_invariant env access presented userId w Hinv) as Hl.
      destruct (AuthService.logout env access presented userId w) as [[a|e] w'];
        exact Hl.
    + pose proof (forceLogout_keeps_invariant userId w Hinv) as Hl.
      destruct (AuthService.forceLogout userId w) as [[a|e] w']; exact Hl.
Qed.

Lemma family_invariant_empty db : refreshTokens db = [] -> family_invariant db.
Proof. intros E fam. rewrite E. simpl. lia. Qed.

(* ====================================================================== *)
(** ** The permission resolver and the authorization gate *)
(* ====================================================================== *)

Lemma spread_Set_In a xs : In a (spread_Set xs) <-> In a xs.
Proof.
  induction xs as [|x xs IH]; simpl; [tauto|].
  rewrite filter_In, IH, negb_true_iff, String.eqb_neq.
  destruct (String.eqb_spec x a); subst; tauto.
Qed.

Lemma spread_Set_NoDup xs : NoDup (spread_Set xs).
Proof.
  induction xs as [|x xs IH]; simpl; constructor.
  - rewrite filter_In, String.eqb_refl. simpl. intros [_ Hf]; discriminate.
  - apply NoDup_filter. exact IH.
Qed.

(** The array spread keeps the first occurrence of each element where it
    stood: a list without repetition is left alone. *)
Lemma spread_Set_fixed xs : NoDup xs -> spread_Set xs = xs.
Proof.
  induction 1 as [|x xs Hnotin Hnd IH]; simpl; [reflexivity|].
  rewrite IH. f_equal. apply forallb_filter_id. apply forallb_forall.
  intros y Hy. apply negb_true_iff, String.eqb_neq. intros ->. contradiction.
Qed.

Lemma some_includes required items :
  some required (includes (JArr items))
  = Resolved (existsb (fun perm => existsb (String.eqb perm) items) required).
Proof.
  induction required as [|perm rest IH]; simpl; [reflexivity|].
  destruct (existsb (String.eqb perm) items); simpl; [reflexivity | exact IH].
Qed.

Lemma existsb_eqb_In perm items :
  existsb (String.eqb perm) items = true <-> In perm items.
Proof.
  rewrite existsb_exists. split.
  - intros [x [Hin E]]. apply String.eqb_eq in E. subst. exact Hin.
  - intros Hin. exists perm. split; [exact Hin | apply String.eqb_refl].
Qed.

Section Gate.

Context {C : Type} `{CacheApi C}.

(** What the flattening of the query result contains. *)
Lemma flatten_granted (db : Db) userId a :
  let userRoles := fst (prisma.userRole_findMany_permissions userId db) in
  forall rows, userRoles = Resolved rows ->
  In a (Authorize.flatten rows) <-> granted db userId a.
Proof.
  simpl. intros rows E. injection E as <-.
  unfold Authorize.flatten, granted.
  rewrite spread_Set_In, in_flat_map. split.
  - intros [[ur joined] [Hin Ha]].
    apply filter_In in Hin. destruct Hin as [Hin Hact].
    apply in_map_iff in Hin. destruct Hin as [ur0 [E Hur]].
    injection E as -> <-.
    apply filter_In in Hur. destruct Hur as [Hur Huid].
    apply String.eqb_eq in Huid. simpl in Hact, Ha.
    destruct (prisma.role_byId db (ur_roleId ur)) as [role|] eqn:Hrole;
      simpl in Hact, Ha; [|contradiction].
    apply in_map_iff in Ha. destruct Ha as [[rp perm] [Hact' Hrp]].
    apply filter_In in Hrp. destruct Hrp as [Hrp Hpact].
    unfold prisma.rolePermissions_of in Hrp.
    apply in_map_iff in Hrp. destruct Hrp as [rp0 [E Hrp]].
    injection E as -> <-.
    apply filter_In in Hrp. destruct Hrp as [Hrp Hrid].
    apply String.eqb_eq in Hrid. simpl in Hact', Hpact.
    destruct (prisma.permission_byId db (rp_permissionId rp)) as [p|] eqn:Hp;
      [|discriminate].
    exists ur, role, rp, p. repeat split; assumption.
  - intros [ur [role [rp [p [Hur [Huid [Hrole [Hact [Hrp [Hrid [Hp [Hpact Ha]]]]]]]]]]]].
    exists (ur, Some (role, prisma.rolePermissions_of db role)). split.
    + apply filter_In. split; [|exact Hact].
      apply in_map_iff. exists ur. rewrite Hrole. split; [reflexivity|].
      apply filter_In. split; [exact Hur | apply String.eqb_eq; exact Huid].
    + simpl. apply in_map_iff. exists (rp, Some p). split; [exact Ha|].
      apply filter_In. split; [|exact Hpact].
      unfold prisma.rolePermissions_of. apply in_map_iff.
      exists rp. rewrite Hp. split; [reflexivity|].
      apply filter_In. split; [exact Hrp | apply String.eqb_eq; exact Hrid].
Qed.

Lemma load_hit userId orgId (w : World C) :
  truthy (cache_get (w_cache w) (permissionsKey userId orgId)) = true ->
  run (Authorize.loadUserPermissions userId orgId) w
  = (Resolved (cache_get (w_cache w) (permissionsKey userId orgId)), w).
Proof.
  intros Hhit. unfold run, Authorize.loadUserPermissions, bind, await_cache_get.
  rewrite Hhit. reflexivity.
Qed.

Lemma load_miss userId orgId (w : World C) :
  truthy (cache_get (w_cache w) (permissionsKey userId orgId)) = false ->
  storage_reliable w ->
  let actions :=
    match fst (prisma.userRole_findMany_permissions userId (w_db w)) with
    | Resolved rows => Authorize.flatten rows
    | Rejected _ => []
    end in
  run (Authorize.loadUserPermissions userId orgId) w
  = (Resolved (JArr actions),
     mkWorld (w_db w)
       (cache_set (w_cache w) (permissionsKey userId orgId) (JArr actions)
          config.permissionsTTL) []).
Proof.
  intros Hmiss Hrel. unfold run, Authorize.loadUserPermissions.
  unfold bind at 1. unfold await_cache_get at 1. rewrite Hmiss.
  cbn [negb]. unfold bind at 1. rewrite (await_prisma_reliable _ _ Hrel).
  reflexivity.
Qed.

(** C5.  Permission resolution is cache-first.  On a hit (the cached
    value is truthy) the cached set is returned, nothing is written and
    the answer is the same whatever the relational store holds and even
    if it is unreachable: the store is not read.  On a miss the resolver
    returns the list, without repetition, of exactly the actions reached
    through the user's role assignments, active roles and active
    permissions, and writes it to the cache under the key of
    (userId, organizationId) with a TTL of 300 seconds. *)
Theorem resolution_is_cache_first :
  forall userId orgId (w : World C),
    let key := permissionsKey userId orgId in
    let cached := cache_get (w_cache w) key in
    (truthy cached = true ->
       run (Authorize.loadUserPermissions userId orgId) w = (Resolved cached, w)
       /\ forall db faults,
            fst (run (Authorize.loadUserPermissions userId orgId)
                   (mkWorld db (w_cache w) faults)) = Resolved cached)
    /\
    (truthy cached = false -> storage_reliable w ->
       exists actions,
         run (Authorize.loadUserPermissions userId orgId) w
         = (Resolved (JArr actions),
            mkWorld (w_db w) (cache_set (w_cache w) key (JArr actions) 300) [])
         /\ NoDup actions
         /\ forall a, In a actions <-> granted (w_db w) userId a).
Proof.
  intros userId orgId w key cached. split.
  - intros Hhit. split; [apply load_hit; exact Hhit|].
    intros db faults.
    rewrite (load_hit userId orgId (mkWorld db (w_cache w) faults) Hhit).
    reflexivity.
  - intros Hmiss Hrel.
    exists (Authorize.flatten
              (map (fun ur =>
                      (ur, option_map
                             (fun r => (r, prisma.rolePermissions_of (w_db w) r))
                             (prisma.role_byId (w_db w) (ur_roleId ur))))
                 (filter (fun ur => String.eqb (ur_userId ur) userId)
                    (userRoles (w_db w))))).
    split; [apply (load_miss userId orgId w Hmiss Hrel)|].
    split; [apply spread_Set_NoDup|].
    intros a. apply (flatten_granted (w_db w) userId a). reflexivity.
Qed.

(** C4.  Once the user's permission set is resolved, the gate calls
    [next()] exactly when one of the required permissions is in the set
    (any one suffices) and [next(new ForbiddenError())] otherwise; with
    an empty set every check is denied. *)
Theorem authorize_any_of :
  forall (requiredPermissions : list string) (user : ReqUser)
         (w w' : World C) (granted_actions : list string),
    run (Authorize.loadUserPermissions (req_id user) (req_organizationId user)) w
      = (Resolved (JArr granted_actions), w') ->
    let handled := fst (Authorize.authorize requiredPermissions user w) in
    (next handled = next_ok <->
       exists perm, In perm requiredPermissions /\ In perm granted_actions)
    /\ (next handled <> next_ok ->
        next handled = next_err (AppErr ForbiddenError))
    /\ (granted_actions = [] ->
        next handled = next_err (AppErr ForbiddenError)).
Proof.
  intros required user w w' perms Hload handled.
  assert (Hnext : next handled =
                  if existsb (fun perm => existsb (String.eqb perm) perms) required
                  then next_ok else next_err (AppErr ForbiddenError)).
  { unfold handled, Authorize.authorize. unfold run in Hload. rewrite Hload.
    rewrite some_includes. destruct (existsb _ required); reflexivity. }
  rewrite Hnext. split; [|split].
  - destruct (existsb _ required) eqn:Hex.
    + split; [intros _|reflexivity].
      apply existsb_exists in Hex. destruct Hex as [perm [Hin Hp]].
      exists perm. split; [exact Hin | apply existsb_eqb_In; exact Hp].
    + split; [discriminate|]. intros [perm [Hin Hp]].
      assert (existsb (fun perm => existsb (String.eqb perm) perms) required = true).
      { apply existsb_exists. exists perm. split; [exact Hin|].
        apply existsb_eqb_In. exact Hp. }
      congruence.
  - destruct (existsb _ required); [intros Hne; contradiction | reflexivity].
  - intros ->.
    assert (Hnone : existsb (fun perm => existsb (String.eqb perm) []) required
                    = false)
      by (clear; induction required; simpl; auto).
    rewrite Hnone. reflexivity.
Qed.

(** C10.  A resolution from the relational store does not depend on the
    organization: for one user and two organization ids that both miss
    the cache, over the same store, the middleware computes the same
    permission set and takes the same decision; the organization id
    only names the cache key the set is written under. *)
Theorem resolution_ignores_organization :
  forall userId orgA orgB (w : World C),
    truthy (cache_get (w_cache w) (permissionsKey userId orgA)) = false ->
    truthy (cache_get (w_cache w) (permissionsKey userId orgB)) = false ->
    fst (run (Authorize.loadUserPermissions userId orgA) w)
      = fst (run (Authorize.loadUserPermissions userId orgB) w)
    /\ (forall requiredPermissions mailA mailB,
          fst (Authorize.authorize requiredPermissions
                 (mkReqUser userId mailA orgA) w)
          = fst (Authorize.authorize requiredPermissions
                   (mkReqUser userId mailB orgB) w))
    /\ (storage_reliable w ->
        exists actions,
          (forall a, In a actions <-> granted (w_db w) userId a)
          /\ snd (run (Authorize.loadUserPermissions userId orgA) w)
             = mkWorld (w_db w)
                 (cache_set (w_cache w) (permissionsKey userId orgA)
                    (JArr actions) 300) []
          /\ snd (run (Authorize.loadUserPermissions userId orgB) w)
             = mkWorld (w_db w)
                 (cache_set (w_cache w) (permissionsKey userId orgB)
                    (JArr actions) 300) []).
Proof.
  intros userId orgA orgB w HA HB.
  assert (Hsame : forall org,
            truthy (cache_get (w_cache w) (permissionsKey userId org)) = false ->
            fst (run (Authorize.loadUserPermissions userId org) w)
            = fst (bind (await_prisma (prisma.userRole_findMany_permissions userId))
                     (fun rows => ret (JArr (Authorize.flatten rows))) w)).
  { intros org Hmiss. unfold run, Authorize.loadUserPermissions.
    unfold bind at 1. unfold await_cache_get at 1. rewrite Hmiss.
    cbn [negb]. unfold bind, await_prisma, prisma.userRole_findMany_permissions.
    destruct (w_faults w) as [|[|] rest]; reflexivity. }
  assert (Hfst : fst (run (Authorize.loadUserPermissions userId orgA) w)
                 = fst (run (Authorize.loadUserPermissions userId orgB) w)).
  { rewrite (Hsame orgA HA), (Hsame orgB HB). reflexivity. }
  split; [exact Hfst|]. split.
  - intros required mailA mailB. unfold Authorize.authorize. simpl req_id.
    simpl req_organizationId. unfold run in Hfst.
    destruct (Authorize.loadUserPermissions userId orgA w) as [ra wa].
    destruct (Authorize.loadUserPermissions userId orgB w) as [rb wb].
    simpl in Hfst. subst rb. destruct ra as [v|e]; [|reflexivity].
    destruct (some required (includes v)) as [[|]|e]; reflexivity.
  - intros Hrel.
    rewrite (load_miss userId orgA w HA Hrel), (load_miss userId orgB w HB Hrel).
    eexists. split; [|split; reflexivity].
    intros a. apply (flatten_granted (w_db w) userId a). reflexivity.
Qed.

End Gate.

(* ====================================================================== *)
(** ** Login *)
(* ====================================================================== *)

Lemma await_prisma_arrives {C A} (q : prisma.Query A) (w : World C) :
  hd false (w_faults w) = false ->
  await_prisma q w
  = (fst (q (w_db w)), mkWorld (snd (q (w_db w))) (w_cache w) (tl (w_faults w))).
Proof.
  unfold await_prisma. destruct (w_faults w) as [|[|] rest]; simpl;
    try discriminate; intros _; destruct (q (w_db w)); reflexivity.
Qed.

Lemma await_prisma_lost {C A} (q : prisma.Query A) (w : World C) :
  hd false (w_faults w) = true ->
  await_prisma q w
  = (Rejected (PrismaErr "P1001"), mkWorld (w_db w) (w_cache w) (tl (w_faults w))).
Proof.
  unfold await_prisma. destruct (w_faults w) as [|[|] rest]; simpl;
    try discriminate; reflexivity.
Qed.

Lemma world_eta {C} (w : World C) :
  mkWorld (w_db w) (w_cache w) (w_faults w) = w.
Proof. destruct w; reflexivity. Qed.

(** A token that carries an unused family claim is not in the table. *)
Lemma unused_token_absent db uuid k subject mail org issued expires :
  uuid_unused db uuid ->
  prisma.refreshToken_byToken db
    (Jwt k (mkClaims subject mail org (Some uuid) issued expires)) = None.
Proof.
  intros Hu. unfold prisma.refreshToken_byToken. apply find_index_None.
  destruct (existsb _ _) eqn:Hex; [|reflexivity].
  apply existsb_exists in Hex. destruct Hex as [r [Hin Heq]].
  apply Token_eqb_eq in Heq. destruct (Hu r Hin) as [_ Hclaim].
  exfalso. apply (Hclaim _ _ Heq). reflexivity.
Qed.

Lemma user_byEmail_byId db mail orgId user :
  prisma.user_byEmail db mail orgId = Some user ->
  exists first, prisma.user_byId db (user_id user) = Some first.
Proof.
  unfold prisma.user_byEmail, prisma.user_byId. intros Hfind.
  apply find_some in Hfind. destruct Hfind as [Hin _].
  destruct (find _ (users db)) as [first|] eqn:Hid; [eauto|].
  exfalso. apply (find_none _ _ Hid) in Hin.
  rewrite String.eqb_refl in Hin. discriminate.
Qed.

Section Login.

Context {C : Type} `{CacheApi C} `{BcryptApi}.
Variable env : Env.

(** The run of a login with valid credentials up to and including the
    issue of the token pair, when its first three storage calls arrive:
    what remains is the last-login update and the role query. *)
Lemma login_issues input organization user (w : World C) :
  valid_credentials (w_db w) input organization user ->
  uuid_unused (w_db w) (env_uuid env) ->
  arrive 3 (w_faults w) ->
  AuthService.login env input w
  = (await_prisma
       (prisma.user_update_lastLoginAt (user_id user) (env_now env)) ;;;
     userRoles <- await_prisma (prisma.userRole_findMany_role (user_id user)) ;;
     ret (mkLoginResult
            (jwt.sign (env_now env) (user_id user) (Some (user_email user))
               (org_id organization) None accessSecret
               (expiresInSeconds (accessExpiry (env_jwt env))))
            (jwt.sign (env_now env) (user_id user) None (org_id organization)
               (Some (env_uuid env)) refreshSecret
               (expiresInSeconds (refreshExpiry (env_jwt env))))
            (mkUserSummary (user_id user) (user_email user)
               (user_firstName user) (user_lastName user)
               (org_id organization) userRoles)))
      (mkWorld
         (with_refreshTokens (w_db w)
            (refreshTokens (w_db w)
               ++ [mkRefreshToken
                     (jwt.sign (env_now env) (user_id user) None
                        (org_id organization) (Some (env_uuid env))
                        refreshSecret
                        (expiresInSeconds (refreshExpiry (env_jwt env))))
                     (user_id user) (env_uuid env)
                     (expiryToDate (env_now env) (refreshExpiry (env_jwt env)))
                     false]))
         (w_cache w) (skipn 3 (w_faults w))).
Proof.
  intros (Horg & Hactive & Huser & Huactive & Hpw) Hu Hfaults.
  assert (H1 : hd false (w_faults w) = false
               /\ hd false (tl (w_faults w)) = false
               /\ hd false (tl (tl (w_faults w))) = false
               /\ tl (tl (tl (w_faults w))) = skipn 3 (w_faults w)).
  { unfold arrive in Hfaults.
    destruct (w_faults w) as [|[|] [|[|] [|[|] rest]]]; simpl in *;
      try discriminate; auto. }
  destruct H1 as (Hf1 & Hf2 & Hf3 & Hrest).
  unfold AuthService.login.
  unfold bind at 1. rewrite (await_prisma_arrives _ _ Hf1).
  unfold prisma.organization_findUnique. cbn [fst snd].
  rewrite Horg, Hactive. cbn [negb].
  unfold bind at 1. rewrite await_prisma_arrives by exact Hf2.
  unfold prisma.user_findUnique. cbn [fst snd w_db w_cache w_faults].
  rewrite Huser, Huactive, Hpw. cbn [negb].
  unfold bind at 1. unfold AuthService._generateTokenPair.
  unfold bind at 1. rewrite await_prisma_arrives by exact Hf3.
  unfold prisma.refreshToken_create, AuthService.tokenFamily, jwt.sign.
  cbn [w_db w_cache w_faults]. rewrite (unused_token_absent _ _ _ _ _ _ _ _ Hu).
  cbn [fst snd]. unfold ret at 1. cbn [accessToken refreshToken].
  rewrite Hrest. reflexivity.
Qed.

Lemma login_succeeds input organization user (w : World C) :
  storage_reliable w ->
  valid_credentials (w_db w) input organization user ->
  uuid_unused (w_db w) (env_uuid env) ->
  run (AuthService.login env input) w
  = (Resolved (login_result env (w_db w) organization user),
     mkWorld (db_after_login env (w_db w) organization user) (w_cache w) []).
Proof.
  intros Hrel Hvalid Hu. unfold run.
  rewrite (login_issues input organization user w Hvalid Hu)
    by (rewrite Hrel; reflexivity).
  rewrite Hrel. cbn [skipn].
  destruct Hvalid as (_ & _ & Huser & _ & _).
  destruct (user_byEmail_byId _ _ _ _ Huser) as [first Hfirst].
  unfold bind at 1. rewrite await_prisma_reliable by reflexivity.
  unfold prisma.user_update_lastLoginAt. cbn [w_db w_cache].
  unfold prisma.user_byId in *. cbn [users with_refreshTokens].
  rewrite Hfirst. cbn [fst snd].
  unfold bind at 1. rewrite await_prisma_reliable by reflexivity.
  reflexivity.
Qed.

Lemma login_unknown_organization input (w : World C) :
  storage_reliable w ->
  unknown_organization (w_db w) input ->
  run (AuthService.login env input) w
  = (Rejected (AppErr (NotFoundError "Organization")), w).
Proof.
  intros Hrel Hunknown. unfold run, AuthService.login.
  unfold bind at 1. rewrite (await_prisma_reliable _ _ Hrel).
  unfold prisma.organization_findUnique. cbn [fst snd].
  unfold unknown_organization in Hunknown.
  destruct (prisma.organization_bySlug _ _) as [organization|].
  - rewrite Hunknown. cbn [negb]. unfold throw. rewrite <- Hrel, world_eta.
    reflexivity.
  - unfold throw. rewrite <- Hrel, world_eta. reflexivity.
Qed.

Lemma login_bad_credentials input organization (w : World C) :
  storage_reliable w ->
  prisma.organization_bySlug (w_db w) (login_organizationSlug input)
    = Some organization ->
  org_isActive organization = true ->
  bad_credentials (w_db w) input organization ->
  run (AuthService.login env input) w
  = (Rejected (AppErr (UnauthorizedError "Invalid credentials")), w).
Proof.
  intros Hrel Horg Hactive Hbad. unfold run, AuthService.login.
  unfold bind at 1. rewrite (await_prisma_reliable _ _ Hrel).
  unfold prisma.organization_findUnique. cbn [fst snd].
  rewrite Horg, Hactive. cbn [negb].
  unfold bind at 1. rewrite await_prisma_reliable by reflexivity.
  unfold prisma.user_findUnique. cbn [fst snd w_db w_cache].
  unfold bad_credentials in Hbad.
  destruct (prisma.user_byEmail _ _ _) as [user|].
  - destruct Hbad as [Hinactive | Hmismatch].
    + rewrite Hinactive. cbn [negb]. unfold throw.
      rewrite <- Hrel, world_eta. reflexivity.
    + rewrite Hmismatch. cbn [negb]. unfold throw.
      destruct (negb (user_isActive user)); rewrite <- Hrel, world_eta;
        reflexivity.
  - unfold throw. rewrite <- Hrel, world_eta. reflexivity.
Qed.

(** C6, as the code has it.  Credentials that match an active user of
    an active organization give a token pair.  A wrong email or a wrong
    password fails with Unauthorized and the one message "Invalid
    credentials", whichever of the two was wrong.  An organization slug
    that names no active organization fails with NotFound,
    "Organization not found". *)
Theorem login_outcomes :
  forall (input : LoginInput) (w : World C),
    storage_reliable w ->
    (forall organization user,
       valid_credentials (w_db w) input organization user ->
       uuid_unused (w_db w) (env_uuid env) ->
       run (AuthService.login env input) w
       = (Resolved (login_result env (w_db w) organization user),
          mkWorld (db_after_login env (w_db w) organization user)
            (w_cache w) []))
    /\ (forall organization,
          prisma.organization_bySlug (w_db w) (login_organizationSlug input)
            = Some organization ->
          org_isActive organization = true ->
          bad_credentials (w_db w) input organization ->
          run (AuthService.login env input) w
          = (Rejected (AppErr (UnauthorizedError "Invalid credentials")), w))
    /\ (unknown_organization (w_db w) input ->
        run (AuthService.login env input) w
        = (Rejected (AppErr (NotFoundError "Organization")), w)).
Proof.
  intros input w Hrel. split; [|split].
  - intros organization user. apply login_succeeds. exact Hrel.
  - intros organization. apply login_bad_credentials. exact Hrel.
  - apply login_unknown_organization. exact Hrel.
Qed.

(** C9, as the code has it.  The last-login update is awaited inside
    the login: when that storage call is lost, a login with valid
    credentials rejects with the storage error and returns no token
    pair, although the RefreshToken row of the session is already
    stored; when every storage call arrives, it resolves with the token
    pair and the user summary and the last-login time is recorded. *)
Theorem login_awaits_lastLogin_update :
  forall (input : LoginInput) organization user (w : World C),
    valid_credentials (w_db w) input organization user ->
    uuid_unused (w_db w) (env_uuid env) ->
    (arrive 3 (w_faults w) -> nth_error (w_faults w) 3 = Some true ->
     run (AuthService.login env input) w
     = (Rejected (PrismaErr "P1001"),
        mkWorld
          (with_refreshTokens (w_db w)
             (refreshTokens (db_after_login env (w_db w) organization user)))
          (w_cache w) (skipn 4 (w_faults w))))
    /\ (storage_reliable w ->
        run (AuthService.login env input) w
        = (Resolved (login_result env (w_db w) organization user),
           mkWorld (db_after_login env (w_db w) organization user)
             (w_cache w) [])).
Proof.
  intros input organization user w Hvalid Hu. split.
  - intros Harrive Hlost. unfold run.
    rewrite (login_issues input organization user w Hvalid Hu Harrive).
    unfold bind at 1. rewrite await_prisma_lost.
    + cbn [w_db w_cache w_faults]. f_equal. f_equal.
      destruct (w_faults w) as [|a [|b [|c [|d rest]]]]; reflexivity.
    + cbn [w_faults].
      destruct (w_faults w) as [|a [|b [|c [|d rest]]]]; try discriminate.
      simpl in Hlost. injection Hlost as ->. reflexivity.
  - intros Hrel. apply login_succeeds; assumption.
Qed.

End Login.

(* ====================================================================== *)
(** ** Logout *)
(* ====================================================================== *)

Section Logout.

Context {C : Type} `{CacheApi C} `{BcryptApi}.
Variable env : Env.

(** The blacklisting block always resolves and touches the cache only. *)
Lemma blacklist_settles token (w : World C) :
  exists cache',
    AuthService.blacklist env token w
    = (Resolved tt, mkWorld (w_db w) cache' (w_faults w)).
Proof.
  unfold AuthService.blacklist, try_ignore.
  destruct (jwt.decode token) as [decoded|];
    [|exists (w_cache w); simpl; rewrite world_eta; reflexivity].
  destruct (exp decoded) as [e|];
    [|exists (w_cache w); simpl; rewrite world_eta; reflexivity].
  destruct (Z.eqb e 0);
    [exists (w_cache w); simpl; rewrite world_eta; reflexivity|].
  cbv zeta. destruct (_ >? 0).
  - eexists. reflexivity.
  - exists (w_cache w). simpl. rewrite world_eta. reflexivity.
Qed.

(** With an expiry claim in the token, the block writes the mark for
    the remaining lifetime, or nothing when none remains. *)
Lemma blacklist_remaining token claims expiry (w : World C) :
  jwt.decode token = Some claims -> exp claims = Some expiry ->
  0 <= env_now env ->
  AuthService.blacklist env token w
  = (Resolved tt,
     mkWorld (w_db w)
       (if 0 <? expiry - env_now env / 1000
        then cache_set (w_cache w) (blacklistKey token) (JBool true)
               (expiry - env_now env / 1000)
        else w_cache w)
       (w_faults w)).
Proof.
  intros Hdecode Hexp Hnow. unfold AuthService.blacklist, try_ignore.
  rewrite Hdecode, Hexp. cbv zeta. rewrite Z.gtb_ltb.
  destruct (Z.eqb_spec expiry 0) as [->|Hne].
  - assert (Hle : 0 <= env_now env / 1000) by (apply Z.div_pos; lia).
    destruct (Z.ltb_spec 0 (0 - env_now env / 1000)); [lia|].
    simpl. rewrite world_eta. reflexivity.
  - destruct (0 <? expiry - env_now env / 1000); simpl;
      [reflexivity | rewrite world_eta; reflexivity].
Qed.

Lemma await_prisma_cache {A} (q : prisma.Query A) (w : World C) :
  w_cache (snd (await_prisma q w)) = w_cache w.
Proof.
  unfold await_prisma. destruct (w_faults w) as [|[|] rest]; simpl;
    try reflexivity; destruct (q (w_db w)); reflexivity.
Qed.

Lemma logout_steps access presented userId (w : World C) :
  exists cache',
    (access = None -> cache' = w_cache w)
    /\ (forall token claims expiry,
          access = Some token -> jwt.decode token = Some claims ->
          exp claims = Some expiry -> 0 <= env_now env ->
          cache' = if 0 <? expiry - env_now env / 1000
                   then cache_set (w_cache w) (blacklistKey token) (JBool true)
                          (expiry - env_now env / 1000)
                   else w_cache w)
    /\ run (AuthService.logout env access presented userId) w
       = AuthService.revoke_presented presented userId
           (mkWorld (w_db w) cache' (w_faults w)).
Proof.
  unfold run, AuthService.logout, bind.
  destruct access as [token|].
  - destruct (token_truthy token) eqn:Htruthy.
    + destruct (blacklist_settles token w) as [cache' Hrun].
      exists cache'. split; [discriminate|]. split.
      * intros t claims expiry E Hdecode Hexp Hnow. injection E as <-.
        rewrite (blacklist_remaining token claims expiry w Hdecode Hexp Hnow) in Hrun.
        injection Hrun as <-. reflexivity.
      * rewrite Hrun. reflexivity.
    + exists (w_cache w). split; [reflexivity|]. split.
      * intros t claims expiry E Hdecode. injection E as <-.
        destruct token as [k c|[|a raw]]; discriminate.
      * simpl. rewrite world_eta. reflexivity.
  - exists (w_cache w). split; [reflexivity|]. split; [discriminate|].
    simpl. rewrite world_eta. reflexivity.
Qed.

(** C7.  A logout that presents an access token with an expiry claim
    writes the blacklist entry of that token with a TTL equal to the
    remaining lifetime, expiry minus the current time in seconds, when
    that is positive, and writes nothing at all when it is zero or
    negative. *)
Theorem logout_blacklists_for_remaining_lifetime :
  forall (access : Token) claims expiry presented userId (w : World C),
    jwt.decode access = Some claims ->
    exp claims = Some expiry ->
    0 <= env_now env ->
    let remaining := expiry - env_now env / 1000 in
    let w' := snd (run (AuthService.logout env (Some access) presented userId) w) in
    (0 < remaining ->
     w_cache w' = cache_set (w_cache w) (blacklistKey access) (JBool true) remaining)
    /\ (remaining <= 0 -> w_cache w' = w_cache w).
Proof.
  intros access claims expiry presented userId w Hdecode Hexp Hnow remaining w'.
  destruct (logout_steps (Some access) presented userId w)
    as [cache' [_ [Hcache Hrun]]].
  specialize (Hcache access claims expiry eq_refl Hdecode Hexp Hnow).
  assert (Hw' : w_cache w' = cache').
  { unfold w'. rewrite Hrun. unfold AuthService.revoke_presented.
    destruct presented as [token|]; [|reflexivity].
    destruct (token_truthy token); [|reflexivity].
    rewrite await_prisma_cache. reflexivity. }
  rewrite Hw', Hcache. fold remaining. split; intros Hrem.
  - destruct (Z.ltb_spec 0 remaining); [reflexivity | lia].
  - destruct (Z.ltb_spec 0 remaining); [lia | reflexivity].
Qed.

(** C8.  A logout that presents a refresh token changes nothing in the
    RefreshToken table except the revoked flag of rows whose token
    string is the presented one: every row with another token string,
    the other rows of the same family included, is left as it was, and
    no row is added or removed.  The row holding the presented token,
    when it belongs to the caller, is revoked. *)
Theorem logout_revokes_only_the_presented_token :
  forall access (presented : Token) userId (w : World C),
    let rts := refreshTokens (w_db w) in
    let rts' :=
      refreshTokens
        (w_db (snd (run (AuthService.logout env access (Some presented) userId) w))) in
    length rts' = length rts
    /\ (forall i r, nth_error rts i = Some r -> rt_token r <> presented ->
                    nth_error rts' i = Some r)
    /\ (forall i r, nth_error rts i = Some r ->
                    nth_error rts' i = Some r \/ nth_error rts' i = Some (revoke r))
    /\ (token_truthy presented = true -> hd false (w_faults w) = false ->
        forall i r, nth_error rts i = Some r ->
                    rt_token r = presented -> rt_userId r = userId ->
                    nth_error rts' i = Some (revoke r)).
Proof.
  intros access presented userId w rts rts'.
  destruct (logout_steps access (Some presented) userId w) as [cache' [_ [_ Hrun]]].
  set (where_ := fun r => Token_eqb (rt_token r) presented
                          && String.eqb (rt_userId r) userId).
  assert (Hcases : rts' = rts
                   \/ (rts' = revoked_where where_ rts)).
  { unfold rts'. rewrite Hrun. unfold AuthService.revoke_presented.
    destruct (token_truthy presented); [|left; reflexivity].
    unfold await_prisma. cbn [w_faults w_db].
    destruct (w_faults w) as [|[|] rest]; simpl; auto. }
  assert (Hmatch : token_truthy presented = true -> hd false (w_faults w) = false ->
                   rts' = revoked_where where_ rts).
  { intros Htruthy Harrives. unfold rts'. rewrite Hrun. unfold AuthService.revoke_presented.
    rewrite Htruthy, await_prisma_arrives by exact Harrives. reflexivity. }
  split; [|split; [|split]].
  - destruct Hcases as [-> | ->]; [reflexivity|].
    unfold revoked_where. apply length_map.
  - intros i r Hi Hne. destruct Hcases as [-> | ->]; [exact Hi|].
    unfold revoked_where. rewrite nth_error_map, Hi. simpl.
    unfold where_. apply Token_eqb_neq in Hne. rewrite Hne. reflexivity.
  - intros i r Hi. destruct Hcases as [-> | ->]; [left; exact Hi|].
    unfold revoked_where. rewrite nth_error_map, Hi. simpl.
    destruct (where_ r); auto.
  - intros Htruthy Harrives i r Hi Htok Huid.
    rewrite (Hmatch Htruthy Harrives).
    unfold revoked_where. rewrite nth_error_map, Hi. simpl.
    unfold where_. rewrite Htok, Huid.
    rewrite (proj2 (Token_eqb_eq presented presented) eq_refl), String.eqb_refl.
    reflexivity.
Qed.

End Logout.

(* ====================================================================== *)
(** ** The properties on the seeded store *)
(* ====================================================================== *)

Lemma seed_credentials_valid :
  valid_credentials Seed.db Seed.credentials Seed.acme Seed.manager.
Proof. repeat split. Qed.

Lemma seed_uuid_unused uuid : uuid_unused Seed.db uuid.
Proof. intros r []. Qed.

Example login_on_seed :
  run (AuthService.login (Seed.env 1000 "f1") Seed.credentials) (Seed.world [])
  = (Resolved
       (mkLoginResult (Seed.accessTokenOf 1000) (Seed.refreshTokenOf 1000 "f1")
          (mkUserSummary "u-manager" "manager@acme.com" "Jane" "Manager" "org-acme"
             [(mkUserRole "u-manager" "r-manager",
               Some (mkRoleSummary "r-manager" "MANAGER" "Team manager" true));
              (mkUserRole "u-manager" "r-user",
               Some (mkRoleSummary "r-user" "USER" "Standard user" true));
              (mkUserRole "u-manager" "r-retired",
               Some (mkRoleSummary "r-retired" "RETIRED" "Retired role" false))])),
     mkWorld Seed.db_loggedIn [] []).
Proof. reflexivity. Qed.

Example rotation_on_seed :
  run (AuthService.refresh (Seed.env 5000 "f2") (Seed.refreshTokenOf 1000 "f1"))
    Seed.world_loggedIn
  = (Resolved (mkTokenPair (Seed.accessTokenOf 5000) (Seed.refreshTokenOf 5000 "f1")),
     mkWorld Seed.db_rotated [] []).
Proof. reflexivity. Qed.

(** C2 on the code.  The two writes of a rotation are separate storage
    calls joined by [Promise.all], not one transaction.  The manager logs
    in at 1000 ms and presents the refresh token again at 1500 ms, within
    the clock second of its issue: the successor token has the same
    payload, so its row is refused (unique token, P2002) and the refresh
    rejects, yet the presented row has been revoked.  The family is left
    with no live token and the stored state has changed. *)
Theorem rotation_is_not_atomic :
  let w := Seed.world_loggedIn in
  let result :=
    run (AuthService.refresh (Seed.env 1500 "f2") (Seed.refreshTokenOf 1000 "f1")) w in
  fst result = Rejected (PrismaErr "P2002")
  /\ refreshTokens (w_db (snd result))
     = [mkRefreshToken (Seed.refreshTokenOf 1000 "f1") "u-manager" "f1" 604801000 true]
  /\ w_db (snd result) <> w_db w
  /\ active_in "f1" (refreshTokens (w_db (snd result))) = [].
Proof.
  cbv zeta. split; [reflexivity|]. split; [reflexivity|].
  split; [|reflexivity]. vm_compute. discriminate.
Qed.

(** The same defect under a lost storage call: when the create does not
    reach the database, the revocation of the presented row stays. *)
Example rotation_with_lost_create :
  let w := mkWorld Seed.db_loggedIn ([] : MemCache) [false; false; true] in
  let result :=
    run (AuthService.refresh (Seed.env 5000 "f2") (Seed.refreshTokenOf 1000 "f1")) w in
  fst result = Rejected (PrismaErr "P1001")
  /\ refreshTokens (w_db (snd result))
     = [mkRefreshToken (Seed.refreshTokenOf 1000 "f1") "u-manager" "f1" 604801000 true].
Proof. split; reflexivity. Qed.

(** C6, against the statement as the design document words it: with the
    email and the password of a seeded active user and a slug that names
    no organization, the login does not fail with Unauthorized "Invalid
    credentials" but with NotFound "Organization not found". *)
Lemma login_wrong_organization_is_not_found :
  valid_credentials Seed.db Seed.credentials Seed.acme Seed.manager
  /\ fst (run (AuthService.login (Seed.env 1000 "f1")
               (mkLoginInput "manager@acme.com" "Admin@123" "acme-inc"))
            (Seed.world []))
     = Rejected (AppErr (mkAppError "Organization not found" 404 "NOT_FOUND"))
  /\ fst (run (AuthService.login (Seed.env 1000 "f1")
               (mkLoginInput "manager@acme.com" "Admin@123" "acme-inc"))
            (Seed.world []))
     <> Rejected (AppErr (UnauthorizedError "Invalid credentials")).
Proof.
  split; [exact seed_credentials_valid|].
  split; [reflexivity|]. vm_compute. discriminate.
Qed.

(** C9, against the statement as the design document words it: with
    valid credentials, when the last-login update (the fourth storage
    call of the login) is lost, the login does not resolve with a token
    pair: it rejects, and the RefreshToken row it created stays. *)
Lemma login_rejects_when_lastLogin_update_is_lost :
  valid_credentials Seed.db Seed.credentials Seed.acme Seed.manager
  /\ fst (run (AuthService.login (Seed.env 1000 "f1") Seed.credentials)
            (Seed.world [false; false; false; true]))
     = Rejected (PrismaErr "P1001")
  /\ (forall result,
        fst (run (AuthService.login (Seed.env 1000 "f1") Seed.credentials)
               (Seed.world [false; false; false; true]))
        <> Resolved result)
  /\ refreshTokens
       (w_db (snd (run (AuthService.login (Seed.env 1000 "f1") Seed.credentials)
                     (Seed.world [false; false; false; true]))))
     = refreshTokens Seed.db_loggedIn.
Proof.
  split; [exact seed_credentials_valid|]. split; [reflexivity|].
  split; [|reflexivity]. intros result. vm_compute. discriminate.
Qed.

Lemma family_invariant_single db r :
  refreshTokens db = [r] -> family_invariant db.
Proof.
  intros E fam. rewrite E. unfold active_in, filter.
  destruct (_ && _); simpl; lia.
Qed.

Lemma loggedIn_invariant : family_invariant Seed.db_loggedIn.
Proof. eapply family_invariant_single. reflexivity. Qed.

Lemma loggedIn_uuid_unused : uuid_unused Seed.db_loggedIn "f2".
Proof.
  intros r [<-|[]]. split; [discriminate|].
  intros k c E. injection E as _ <-. discriminate.
Qed.

(** C3 on the code.  A refresh does not preserve the token-family
    invariant.  The revocation of the presented row and the creation of
    its successor are separate storage calls joined by [Promise.all]:
    when the revocation is lost and the creation goes through, the
    refresh rejects with the storage error and the family is left with
    two rows that are not revoked, the presented token (still good for
    another rotation) and its successor.  The store the manager's login
    left satisfied the invariant. *)
Theorem rotation_leaves_two_live_tokens :
  let w := mkWorld Seed.db_loggedIn ([] : MemCache) [false; true; false] in
  let result :=
    run (AuthService.refresh (Seed.env 5000 "f2") (Seed.refreshTokenOf 1000 "f1")) w in
  family_invariant (w_db w)
  /\ fst result = Rejected (PrismaErr "P1001")
  /\ active_in "f1" (refreshTokens (w_db (snd result)))
     = [mkRefreshToken (Seed.refreshTokenOf 1000 "f1") "u-manager" "f1"
          604801000 false;
        mkRefreshToken (Seed.refreshTokenOf 5000 "f1") "u-manager" "f1"
          604805000 false]
  /\ ~ family_invariant (w_db (snd result)).
Proof.
  cbv zeta. split; [exact loggedIn_invariant|]. split; [reflexivity|].
  split; [reflexivity|].
  intros Hinv. specialize (Hinv "f1").
  apply Nat.leb_le in Hinv. vm_compute in Hinv. discriminate.
Qed.

(** One request alone: [refresh] is its lookup followed by the rest. *)
Lemma refresh_is_lookup_then_resume {C} env presented (w : World C) :
  run (AuthService.refresh env presented) w
  = (let (looked, w1) := refresh_lookup env presented w in
     refresh_resume env looked w1).
Proof.
  unfold run, AuthService.refresh, refresh_lookup, refresh_resume.
  destruct (jwt.verify (env_now env) presented refreshSecret) as [decoded|];
    [|reflexivity].
  unfold bind.
  destruct (await_prisma (prisma.refreshToken_findUnique presented) w)
    as [[storedToken|e] w1]; reflexivity.
Qed.

(** The same defect with every storage call answered: two requests that
    present the seeded token and overlap, one stamping its tokens at
    5000 ms and one at 6000 ms.  Both find the row live, both resolve
    with a new pair, and the family holds two live successors. *)
Example overlapping_refreshes_both_rotate :
  let result :=
    overlapping_refreshes (Seed.env 5000 "f2") (Seed.env 6000 "f3")
      (Seed.refreshTokenOf 1000 "f1") Seed.world_loggedIn in
  fst result
  = (Resolved (mkTokenPair (Seed.accessTokenOf 5000)
                 (Seed.refreshTokenOf 5000 "f1")),
     Resolved (mkTokenPair (Seed.accessTokenOf 6000)
                 (Seed.refreshTokenOf 6000 "f1")))
  /\ active_in "f1" (refreshTokens (w_db (snd result)))
     = [mkRefreshToken (Seed.refreshTokenOf 5000 "f1") "u-manager" "f1"
          604805000 false;
        mkRefreshToken (Seed.refreshTokenOf 6000 "f1") "u-manager" "f1"
          604806000 false].
Proof. split; reflexivity. Qed.

(** The replay of the rotated-away token of the seeded session. *)
Lemma refresh_replay_witness :
  run (AuthService.refresh (Seed.env 9000 "f2") (Seed.refreshTokenOf 1000 "f1"))
    Seed.world_rotated
  = (Rejected (AppErr (UnauthorizedError
                         "Token reuse detected — all sessions revoked")),
     mkWorld
       (with_refreshTokens Seed.db_rotated
          [mkRefreshToken (Seed.refreshTokenOf 1000 "f1") "u-manager" "f1"
             604801000 true;
           mkRefreshToken (Seed.refreshTokenOf 5000 "f1") "u-manager" "f1"
             604805000 true])
       [] []).
Proof.
  exact (proj1 (refresh_replay_revokes_family (Seed.env 9000 "f2")
                  (Seed.refreshTokenOf 1000 "f1") Seed.world_rotated _ _ _ _
                  eq_refl eq_refl eq_refl eq_refl)).
Defined.

(** The rotation of the seeded session keeps the invariant. *)
Lemma family_invariant_witness :
  family_invariant
    (w_db (exec (Seed.env 5000 "f2") (op_refresh (Seed.refreshTokenOf 1000 "f1"))
             Seed.world_loggedIn)).
Proof.
  apply family_invariant_preserved.
  - exact loggedIn_invariant.
  - split; [exact loggedIn_uuid_unused | reflexivity].
Defined.

(** The manager is let through for USER_READ and stopped for USER_DELETE. *)
Lemma authorize_witness :
  next (fst (Authorize.authorize ["USER_DELETE"; "USER_READ"] Seed.managerReq
               (Seed.world [])))
    = next_ok
  /\ next (fst (Authorize.authorize ["USER_DELETE"] Seed.managerReq
                  (Seed.world [])))
     = next_err (AppErr ForbiddenError).
Proof.
  pose (w' := mkWorld Seed.db
                ([(permissionsKey "u-manager" "org-acme",
                   JArr ["USER_READ"; "DASHBOARD_READ"], 300)] : MemCache) []).
  split.
  - apply (proj1 (authorize_any_of (H:=mem_cache)
                    ["USER_DELETE"; "USER_READ"] Seed.managerReq
                    (Seed.world []) w' ["USER_READ"; "DASHBOARD_READ"] eq_refl)).
    exists "USER_READ". simpl. auto.
  - apply (proj1 (proj2 (authorize_any_of (H:=mem_cache) ["USER_DELETE"]
                           Seed.managerReq (Seed.world []) w'
                           ["USER_READ"; "DASHBOARD_READ"] eq_refl))).
    discriminate.
Defined.

(** A miss on the empty cache, and a hit on an entry, over a store whose
    next call would be lost. *)
Lemma resolution_witness :
  (exists actions,
     run (Authorize.loadUserPermissions "u-manager" "org-acme") (Seed.world [])
     = (Resolved (JArr actions),
        mkWorld Seed.db
          [(permissionsKey "u-manager" "org-acme", JArr actions, 300)] [])
     /\ NoDup actions
     /\ forall a, In a actions <-> granted Seed.db "u-manager" a)
  /\ run (Authorize.loadUserPermissions "u-manager" "org-acme")
       (mkWorld Seed.db
          [(permissionsKey "u-manager" "org-acme", JArr ["USER_READ"], 300)]
          [true])
     = (Resolved (JArr ["USER_READ"]),
        mkWorld Seed.db
          [(permissionsKey "u-manager" "org-acme", JArr ["USER_READ"], 300)]
          [true]).
Proof.
  split.
  - exact (proj2 (resolution_is_cache_first "u-manager" "org-acme" (Seed.world []))
             eq_refl eq_refl).
  - exact (proj1 (proj1 (resolution_is_cache_first "u-manager" "org-acme"
                           (mkWorld Seed.db
                              [(permissionsKey "u-manager" "org-acme",
                                JArr ["USER_READ"], 300)] [true]))
                    eq_refl)).
Defined.

(** The three outcomes of a login on the seeded store. *)
Lemma login_outcomes_witness :
  run (AuthService.login (Seed.env 1000 "f1") Seed.credentials) (Seed.world [])
  = (Resolved (login_result (Seed.env 1000 "f1") Seed.db Seed.acme Seed.manager),
     mkWorld (db_after_login (Seed.env 1000 "f1") Seed.db Seed.acme Seed.manager)
       [] [])
  /\ run (AuthService.login (Seed.env 1000 "f1")
            (mkLoginInput "manager@acme.com" "Admin@124" "acme-corp"))
       (Seed.world [])
     = (Rejected (AppErr (UnauthorizedError "Invalid credentials")), Seed.world [])
  /\ run (AuthService.login (Seed.env 1000 "f1")
            (mkLoginInput "nobody@acme.com" "Admin@123" "acme-corp"))
       (Seed.world [])
     = (Rejected (AppErr (UnauthorizedError "Invalid credentials")), Seed.world [])
  /\ run (AuthService.login (Seed.env 1000 "f1")
            (mkLoginInput "manager@acme.com" "Admin@123" "closed-llc"))
       (Seed.world [])
     = (Rejected (AppErr (NotFoundError "Organization")), Seed.world []).
Proof.
  split; [|split; [|split]].
  - apply (proj1 (login_outcomes (Seed.env 1000 "f1") Seed.credentials
                    (Seed.world []) eq_refl)).
    + exact seed_credentials_valid.
    + exact (seed_uuid_unused "f1").
  - apply (proj1 (proj2 (login_outcomes (Seed.env 1000 "f1") _ (Seed.world [])
                           eq_refl)) Seed.acme);
      [reflexivity | reflexivity | right; reflexivity].
  - apply (proj1 (proj2 (login_outcomes (Seed.env 1000 "f1") _ (Seed.world [])
                           eq_refl)) Seed.acme);
      [reflexivity | reflexivity | exact I].
  - apply (proj2 (proj2 (login_outcomes (Seed.env 1000 "f1") _ (Seed.world [])
                           eq_refl))).
    reflexivity.
Defined.

(** The login whose last-login update is lost. *)
Lemma login_lastLogin_witness :
  run (AuthService.login (Seed.env 1000 "f1") Seed.credentials)
    (Seed.world [false; false; false; true])
  = (Rejected (PrismaErr "P1001"),
     mkWorld (with_refreshTokens Seed.db (refreshTokens Seed.db_loggedIn)) [] []).
Proof.
  exact (proj1 (login_awaits_lastLogin_update (Seed.env 1000 "f1")
                  Seed.credentials Seed.acme Seed.manager
                  (Seed.world [false; false; false; true])
                  seed_credentials_valid (seed_uuid_unused "f1"))
           eq_refl eq_refl).
Defined.

(** A logout at 2000 ms with the access token issued at 1000 ms (expiry
    901 s): 899 seconds remain.  At 901000 ms nothing remains. *)
Lemma logout_blacklist_witness :
  w_cache (snd (run (AuthService.logout (Seed.env 2000 "f2")
                       (Some (Seed.accessTokenOf 1000)) None "u-manager")
                  Seed.world_loggedIn))
  = [(blacklistKey (Seed.accessTokenOf 1000), JBool true, 899)]
  /\ w_cache (snd (run (AuthService.logout (Seed.env 901000 "f2")
                          (Some (Seed.accessTokenOf 1000)) None "u-manager")
                     Seed.world_loggedIn))
     = [].
Proof.
  split.
  - apply (proj1 (logout_blacklists_for_remaining_lifetime (Seed.env 2000 "f2")
                    (Seed.accessTokenOf 1000) _ 901 None "u-manager"
                    Seed.world_loggedIn
                    eq_refl eq_refl ltac:(vm_compute; discriminate))).
    vm_compute. reflexivity.
  - apply (proj2 (logout_blacklists_for_remaining_lifetime (Seed.env 901000 "f2")
                    (Seed.accessTokenOf 1000) _ 901 None "u-manager"
                    Seed.world_loggedIn
                    eq_refl eq_refl ltac:(vm_compute; discriminate))).
    vm_compute. discriminate.
Defined.

(** A logout with the live token of the rotated session leaves its
    revoked predecessor as it was and revokes the live one. *)
Lemma logout_frame_witness :
  nth_error
    (refreshTokens
       (w_db (snd (run (AuthService.logout (Seed.env 6000 "f2") None
                          (Some (Seed.refreshTokenOf 5000 "f1")) "u-manager")
                     Seed.world_rotated)))) 0
  = Some (mkRefreshToken (Seed.refreshTokenOf 1000 "f1") "u-manager" "f1"
            604801000 true)
  /\ nth_error
       (refreshTokens
          (w_db (snd (run (AuthService.logout (Seed.env 6000 "f2") None
                             (Some (Seed.refreshTokenOf 5000 "f1")) "u-manager")
                        Seed.world_rotated)))) 1
     = Some (mkRefreshToken (Seed.refreshTokenOf 5000 "f1") "u-manager" "f1"
               604805000 true).
Proof.
  split.
  - apply (proj1 (proj2 (logout_revokes_only_the_presented_token
                           (Seed.env 6000 "f2") None (Seed.refreshTokenOf 5000 "f1")
                           "u-manager" Seed.world_rotated))
             0%nat); [reflexivity | discriminate].
  - apply (proj2 (proj2 (proj2 (logout_revokes_only_the_presented_token
                                  (Seed.env 6000 "f2") None
                                  (Seed.refreshTokenOf 5000 "f1") "u-manager"
                                  Seed.world_rotated)))
             eq_refl eq_refl 1%nat
             (mkRefreshToken (Seed.refreshTokenOf 5000 "f1") "u-manager" "f1"
                604805000 false)); reflexivity.
Defined.

(** The manager's set is the same under either organization id. *)
Lemma resolution_organization_witness :
  fst (run (Authorize.loadUserPermissions "u-manager" "org-acme") (Seed.world []))
  = fst (run (Authorize.loadUserPermissions "u-manager" "org-startup")
           (Seed.world [])).
Proof.
  exact (proj1 (resolution_ignores_organization "u-manager" "org-acme"
                  "org-startup" (Seed.world []) eq_refl eq_refl)).
Defined.

(* ====================================================================== *)
(** ** Further properties: the life of a refresh token *)
(* ====================================================================== *)

Lemma find_index_app_found {A} (p : A -> bool) l l' i x :
  find_index p l = Some (i, x) -> find_index p (l ++ l') = Some (i, x).
Proof.
  revert i. induction l as [|y l IH]; simpl; intros i; [discriminate|].
  destruct (p y); [auto|].
  destruct (find_index p l) as [[j z]|]; [|discriminate].
  intros E. injection E as <- <-. rewrite (IH j eq_refl). reflexivity.
Qed.

Lemma find_index_app_last {A} (p : A -> bool) l x :
  find_index p l = None ->
  find_index p (l ++ [x]) = if p x then Some (length l, x) else None.
Proof.
  induction l as [|y l IH]; simpl; [destruct (p x); reflexivity|].
  destruct (p y); [discriminate|].
  destruct (find_index p l) as [[j z]|]; [discriminate|].
  intros _. rewrite (IH eq_refl). destruct (p x); reflexivity.
Qed.

Lemma find_index_map {A} (p : A -> bool) (g : A -> A) l :
  (forall r, p (g r) = p r) ->
  find_index p (map g l)
  = match find_index p l with
    | Some (i, x) => Some (i, g x)
    | None => None
    end.
Proof.
  intros Hg. induction l as [|y l IH]; simpl; [reflexivity|].
  rewrite Hg. destruct (p y); [reflexivity|].
  rewrite IH. destruct (find_index p l) as [[j z]|]; reflexivity.
Qed.

Lemma find_index_update_at {A} (p : A -> bool) (g : A -> A) l i x :
  (forall r, p (g r) = p r) ->
  find_index p l = Some (i, x) ->
  find_index p (update_at i g l) = Some (i, g x).
Proof.
  intros Hg. revert i. induction l as [|y l IH]; simpl; intros i; [discriminate|].
  destruct (p y) eqn:Hy.
  - intros E. injection E as <- <-. simpl. rewrite Hg, Hy. reflexivity.
  - destruct (find_index p l) as [[j z]|] eqn:Hl; [|discriminate].
    intros E. injection E as <- <-. simpl. rewrite Hy, (IH j eq_refl).
    reflexivity.
Qed.

Lemma find_index_update_at_none {A} (p : A -> bool) (g : A -> A) l i :
  (forall r, p (g r) = p r) ->
  find_index p l = None -> find_index p (update_at i g l) = None.
Proof.
  intros Hg. revert i. induction l as [|y l IH]; intros [|i]; simpl; auto.
  - rewrite Hg. destruct (p y); [discriminate|]. auto.
  - destruct (p y); [discriminate|].
    destruct (find_index p l) as [[j z]|]; [discriminate|].
    intros _. rewrite (IH i eq_refl). reflexivity.
Qed.

Lemma Token_eqb_refl t : Token_eqb t t = true.
Proof. apply Token_eqb_eq. reflexivity. Qed.

Section TokenLife.

Context {C : Type}.

(** What a refresh does on a verified token whose row is revoked. *)
Lemma refresh_replay_run env presented (w : World C) decoded id stored user :
  storage_reliable w ->
  jwt.verify (env_now env) presented refreshSecret = Some decoded ->
  fst (prisma.refreshToken_findUnique presented (w_db w))
    = Resolved (Some (id, stored, user)) ->
  rt_isRevoked stored = true ->
  run (AuthService.refresh env presented) w
  = (Rejected (AppErr (UnauthorizedError
                         "Token reuse detected — all sessions revoked")),
     mkWorld
       (with_refreshTokens (w_db w)
          (family_revoked (rt_family stored) (refreshTokens (w_db w))))
       (w_cache w) []).
Proof.
  intros Hrel Hver Hfind Hrev. unfold run, AuthService.refresh. rewrite Hver.
  unfold bind at 1. rewrite (await_prisma_reliable _ _ Hrel).
  rewrite Hfind. simpl snd. cbv beta iota. rewrite Hrev.
  unfold bind, throw. rewrite await_prisma_reliable by reflexivity.
  reflexivity.
Qed.

(** The run of a rotation that goes through. *)
Lemma rotation_run env presented (w : World C) decoded id stored user :
  rotation_ready env presented w decoded id stored user ->
  nth_error (refreshTokens (w_db w)) id = Some stored
  /\ run (AuthService.refresh env presented) w
     = (Resolved
          (mkTokenPair
             (jwt.sign (env_now env) (user_id user) (Some (user_email user))
                (organizationId decoded) None accessSecret
                (expiresInSeconds (accessExpiry (env_jwt env))))
             (successor_token env user decoded stored)),
        mkWorld (db_after_rotation env (w_db w) id user decoded stored)
          (w_cache w) []).
Proof.
  intros (Hrel & Hver & Hfind & Hlive & Hfresh & Hactive & Hnew).
  assert (Hnth : nth_error (refreshTokens (w_db w)) id = Some stored).
  { unfold prisma.refreshToken_findUnique in Hfind. cbn [fst] in Hfind.
    destruct (prisma.refreshToken_byToken (w_db w) presented) as [[i r]|] eqn:E;
      [|discriminate].
    injection Hfind as -> -> _. apply find_index_Some in E. apply E. }
  split; [exact Hnth|].
  unfold run, AuthService.refresh. rewrite Hver.
  unfold bind at 1. rewrite (await_prisma_reliable _ _ Hrel).
  rewrite Hfind. unfold prisma.refreshToken_findUnique at 1. cbn [snd].
  rewrite Hlive, Hfresh, Hactive. cbn [negb].
  unfold bind at 1. unfold promise_all.
  rewrite await_prisma_reliable by reflexivity.
  unfold prisma.refreshToken_update at 1 2. cbn [w_db]. rewrite Hnth.
  cbn [fst snd]. unfold AuthService._generateTokenPair.
  unfold bind at 1. rewrite await_prisma_reliable by reflexivity.
  unfold prisma.refreshToken_create. cbn [w_db w_cache].
  fold (successor_token env user decoded stored).
  assert (Hnew' : prisma.refreshToken_byToken
                    (with_refreshTokens (w_db w)
                       (update_at id revoke (refreshTokens (w_db w))))
                    (successor_token env user decoded stored) = None).
  { unfold prisma.refreshToken_byToken in *.
    cbn [refreshTokens with_refreshTokens].
    apply find_index_update_at_none; [reflexivity | exact Hnew]. }
  rewrite Hnew'. reflexivity.
Qed.

Lemma refresh_unverified_run env presented (w : World C) :
  jwt.verify (env_now env) presented refreshSecret = None ->
  run (AuthService.refresh env presented) w
  = (Rejected (AppErr (UnauthorizedError "Invalid refresh token")), w).
Proof. intros Hver. unfold run, AuthService.refresh. rewrite Hver. reflexivity. Qed.

(** X1.  A rotation that goes through resolves with a new pair whose
    refresh token carries the family of the presented one, marks exactly
    the presented row revoked and appends exactly one live row, owned by
    the same user, for the successor. *)
Theorem rotation_succeeds :
  forall env presented (w : World C) decoded id stored user,
    rotation_ready env presented w decoded id stored user ->
    let db' := db_after_rotation env (w_db w) id user decoded stored in
    run (AuthService.refresh env presented) w
    = (Resolved
         (mkTokenPair
            (jwt.sign (env_now env) (user_id user) (Some (user_email user))
               (organizationId decoded) None accessSecret
               (expiresInSeconds (accessExpiry (env_jwt env))))
            (successor_token env user decoded stored)),
       mkWorld db' (w_cache w) [])
    /\ nth_error (refreshTokens db') id = Some (revoke stored)
    /\ (forall j r, j <> id -> nth_error (refreshTokens (w_db w)) j = Some r ->
                    nth_error (refreshTokens db') j = Some r)
    /\ refreshTokens db'
       = (update_at id revoke (refreshTokens (w_db w))
            ++ [mkRefreshToken (successor_token env user decoded stored)
                  (user_id user)
                  (AuthService.tokenFamily env (Some (rt_family stored)))
                  (expiryToDate (env_now env) (refreshExpiry (env_jwt env)))
                  false])%list.
Proof.
  intros env presented w decoded id stored user Hready db'.
  destruct (rotation_run env presented w decoded id stored user Hready)
    as [Hnth Hrun].
  split; [exact Hrun|]. split; [|split].
  - unfold db', db_after_rotation. cbn [refreshTokens with_refreshTokens].
    rewrite nth_error_app1.
    + rewrite nth_error_update_at, Nat.eqb_refl, Hnth. reflexivity.
    + rewrite length_update_at. apply nth_error_Some. congruence.
  - intros j r Hj Hr. unfold db', db_after_rotation.
    cbn [refreshTokens with_refreshTokens].
    rewrite nth_error_app1.
    + rewrite nth_error_update_at.
      destruct (Nat.eqb_spec id j); [congruence | exact Hr].
    + rewrite length_update_at. apply nth_error_Some. congruence.
  - reflexivity.
Qed.

(** X2.  Reuse after rotation.  Once a refresh token has been rotated,
    presenting it again (while its signature is still valid) fails with
    "Token reuse detected" and revokes the whole family, the successor
    issued by the rotation included; from then on the successor is
    refused as well, at any time. *)
Theorem replay_after_rotation :
  forall env env2 presented (w : World C) decoded decoded2 id stored user,
    rotation_ready env presented w decoded id stored user ->
    rt_family stored <> "" ->
    jwt.verify (env_now env2) presented refreshSecret = Some decoded2 ->
    let w1 := snd (run (AuthService.refresh env presented) w) in
    let w2 := snd (run (AuthService.refresh env2 presented) w1) in
    fst (run (AuthService.refresh env2 presented) w1)
      = Rejected (AppErr (UnauthorizedError
                            "Token reuse detected — all sessions revoked"))
    /\ (forall r, In r (refreshTokens (w_db w2)) ->
                  rt_family r = rt_family stored -> rt_isRevoked r = true)
    /\ In (revoke (successor_row env user decoded stored))
          (refreshTokens (w_db w2))
    /\ (forall env3,
          unauthorized
            (fst (run (AuthService.refresh env3
                         (successor_token env user decoded stored)) w2))).
Proof.
  intros env env2 presented w decoded decoded2 id stored user Hready Hfam Hver2
         w1 w2.
  destruct (rotation_run env presented w decoded id stored user Hready)
    as [Hnth Hrun].
  destruct Hready as (Hrel & Hver & Hfind & Hlive & Hfresh & Hactive & Hnew).
  assert (Hw1 : w1 = mkWorld (db_after_rotation env (w_db w) id user decoded stored)
                       (w_cache w) []).
  { unfold w1. rewrite Hrun. reflexivity. }
  assert (Hby : prisma.refreshToken_byToken (w_db w) presented = Some (id, stored)).
  { unfold prisma.refreshToken_findUnique in Hfind. cbn [fst] in Hfind.
    destruct (prisma.refreshToken_byToken (w_db w) presented) as [[i r]|];
      [|discriminate].
    injection Hfind as -> -> _. reflexivity. }
  assert (Hfind1 : fst (prisma.refreshToken_findUnique presented (w_db w1))
                   = Resolved (Some (id, revoke stored,
                                     prisma.user_byId (w_db w) (rt_userId stored)))).
  { rewrite Hw1. unfold prisma.refreshToken_findUnique, prisma.refreshToken_byToken.
    cbn [fst w_db db_after_rotation refreshTokens with_refreshTokens].
    unfold db_after_rotation. cbn [refreshTokens with_refreshTokens].
    rewrite (find_index_app_found _ _ _ id (revoke stored)).
    - reflexivity.
    - apply find_index_update_at; [reflexivity | exact Hby]. }
  assert (Hrun2 : run (AuthService.refresh env2 presented) w1
                  = (Rejected (AppErr (UnauthorizedError
                                         "Token reuse detected — all sessions revoked")),
                     mkWorld
                       (with_refreshTokens (w_db w1)
                          (family_revoked (rt_family stored)
                             (refreshTokens (w_db w1))))
                       (w_cache w1) [])).
  { apply (refresh_replay_run env2 presented w1 decoded2 id (revoke stored)
             (prisma.user_byId (w_db w) (rt_userId stored)));
      [rewrite Hw1; reflexivity | exact Hver2 | exact Hfind1 | reflexivity]. }
  assert (Hsame : AuthService.tokenFamily env (Some (rt_family stored))
                  = rt_family stored).
  { unfold AuthService.tokenFamily. apply String.eqb_neq in Hfam.
    rewrite Hfam. reflexivity. }
  assert (Hrts2 : refreshTokens (w_db w2)
                  = (family_revoked (rt_family stored)
                       (update_at id revoke (refreshTokens (w_db w)))
                     ++ [revoke (successor_row env user decoded stored)])%list).
  { unfold w2. rewrite Hrun2. cbn [snd w_db refreshTokens with_refreshTokens].
    rewrite Hw1. cbn [w_db]. unfold db_after_rotation.
    cbn [refreshTokens with_refreshTokens].
    unfold family_revoked, revoked_where. rewrite map_app. f_equal.
    cbn [map]. unfold successor_row at 1. cbn [rt_family].
    rewrite Hsame, String.eqb_refl. unfold successor_row.
    rewrite Hsame. reflexivity. }
  split; [rewrite Hrun2; reflexivity|]. split; [|split].
  - intros r Hin. unfold w2 in Hin. rewrite Hrun2 in Hin.
    cbn [snd w_db refreshTokens with_refreshTokens] in Hin.
    apply (family_revoked_all _ _ _ Hin).
  - rewrite Hrts2. apply in_or_app. right. left. reflexivity.
  - intros env3.
    destruct (jwt.verify (env_now env3) (successor_token env user decoded stored)
                refreshSecret) as [decoded3|] eqn:Hver3.
    + exists "Token reuse detected — all sessions revoked".
      assert (Hrel2 : storage_reliable w2).
      { unfold w2. rewrite Hrun2. reflexivity. }
      rewrite (refresh_replay_run env3 _ w2 decoded3
                 (length (family_revoked (rt_family stored)
                            (update_at id revoke (refreshTokens (w_db w)))))
                 (revoke (successor_row env user decoded stored))
                 (prisma.user_byId (w_db w2) (user_id user)) Hrel2 Hver3).
      * reflexivity.
      * unfold prisma.refreshToken_findUnique, prisma.refreshToken_byToken.
        cbn [fst]. rewrite Hrts2. rewrite find_index_app_last.
        -- cbn [rt_token revoke successor_row]. rewrite Token_eqb_refl.
           reflexivity.
        -- unfold family_revoked, revoked_where.
           rewrite find_index_map
             by (intros r; destruct (String.eqb (rt_family r) (rt_family stored));
                 reflexivity).
           rewrite find_index_update_at_none; [reflexivity | reflexivity | exact Hnew].
      * reflexivity.
    + exists "Invalid refresh token".
      rewrite (refresh_unverified_run env3 _ w2 Hver3). reflexivity.
Qed.

End TokenLife.

(** The lifetime of a token in seconds is its lifetime in milliseconds:
    every unit is a whole number of seconds. *)
Lemma expiry_ms_seconds (e : Expiry) :
  amount e * units (timeUnit e) = 1000 * expiresInSeconds e.
Proof.
  unfold expiresInSeconds. destruct (timeUnit e); simpl units.
  - rewrite Z.div_mul by lia. lia.
  - replace (amount e * 60000) with (amount e * 60 * 1000) by lia.
    rewrite Z.div_mul by lia. lia.
  - replace (amount e * 3600000) with (amount e * 3600 * 1000) by lia.
    rewrite Z.div_mul by lia. lia.
  - replace (amount e * 86400000) with (amount e * 86400 * 1000) by lia.
    rewrite Z.div_mul by lia. lia.
Qed.

(** Past the stored expiry of a row, the signature of its token has
    expired too. *)
Lemma verify_after_stored_expiry now0 now subject mail org fam secret lifetime :
  now > expiryToDate now0 lifetime ->
  jwt.verify now
    (jwt.sign now0 subject mail org fam secret (expiresInSeconds lifetime))
    secret = None.
Proof.
  intros Hpast. unfold jwt.verify, jwt.sign, jwt.clockTimestamp. cbn [exp].
  destruct (Secret_eqb secret secret); [|reflexivity].
  unfold expiryToDate in Hpast. rewrite expiry_ms_seconds in Hpast.
  assert (Hle : now0 / 1000 + expiresInSeconds lifetime <= now / 1000).
  { replace (now0 / 1000 + expiresInSeconds lifetime)
      with ((now0 + expiresInSeconds lifetime * 1000) / 1000)
      by (rewrite Z.div_add by lia; reflexivity).
    apply Z.div_le_mono; lia. }
  destruct (Z.geb_spec (now / 1000) (now0 / 1000 + expiresInSeconds lifetime));
    [reflexivity | lia].
Qed.

Lemma await_prisma_cases {C A} (q : prisma.Query A) (w : World C) :
  await_prisma q w
  = (Rejected (PrismaErr "P1001"),
     mkWorld (w_db w) (w_cache w) (tl (w_faults w)))
  \/ await_prisma q w
     = (fst (q (w_db w)),
        mkWorld (snd (q (w_db w))) (w_cache w) (tl (w_faults w))).
Proof.
  unfold await_prisma. destruct (w_faults w) as [|[|] rest]; cbn [tl];
    destruct (q (w_db w)); auto.
Qed.

Section Sessions.

Context {C : Type} `{CacheApi C}.

(** X3.  The refresh fails closed before it consults storage: a string
    that is no JWT, a token signed under any key but the refresh secret
    (a forged one, or an access token), and a token whose expiry claim
    has passed are all answered with Unauthorized "Invalid refresh
    token", and the world is left exactly as it was, whatever the state
    of the storage. *)
Theorem refresh_fails_closed :
  forall env presented (w : World C),
    (forall k c, presented = Jwt k c ->
       k <> refreshSecret
       \/ exists e, exp c = Some e /\ e <= env_now env / 1000) ->
    run (AuthService.refresh env presented) w
    = (Rejected (AppErr (UnauthorizedError "Invalid refresh token")), w).
Proof.
  intros env presented w Hbad. apply refresh_unverified_run.
  destruct presented as [k c|raw]; [|reflexivity].
  unfold jwt.verify. destruct (Secret_eqb k refreshSecret) eqn:Hk; [|reflexivity].
  apply Secret_eqb_eq in Hk.
  destruct (Hbad k c eq_refl) as [Hne | [e [He Hle]]]; [contradiction|].
  rewrite He. unfold jwt.clockTimestamp.
  destruct (Z.geb_spec (env_now env / 1000) e); [reflexivity | lia].
Qed.

(** [AuthService.refresh] is [refresh_clocked] when the clock is read at
    one instant. *)
Lemma refresh_clocked_at_one_instant env presented :
  refresh_clocked (C := C) env
    (mkRefreshClock (env_now env) (env_now env) (env_now env)) presented
  = AuthService.refresh env presented.
Proof. destruct env. reflexivity. Qed.

(** Closes the facts collected for one cause, [Huser] naming the owner
    the lookup found. *)
Ltac settle_cause Huser :=
  repeat split;
  solve [assumption | reflexivity | rewrite Huser; assumption
        | rewrite Huser; exact I].

(** Why a refresh rejects: each answer has its cause. *)
Lemma refresh_rejection_cause env clock presented (w : World C) e :
  fst (run (refresh_clocked env clock presented) w) = Rejected e ->
  (exists code, e = PrismaErr code)
  \/ (jwt.verify (at_verify clock) presented refreshSecret = None
      /\ e = AppErr (UnauthorizedError "Invalid refresh token"))
  \/ (jwt.verify (at_verify clock) presented refreshSecret <> None
      /\ prisma.refreshToken_byToken (w_db w) presented = None
      /\ e = AppErr (UnauthorizedError "Refresh token not found"))
  \/ (exists id stored,
        jwt.verify (at_verify clock) presented refreshSecret <> None
        /\ prisma.refreshToken_byToken (w_db w) presented = Some (id, stored)
        /\ ((rt_isRevoked stored = true
             /\ e = AppErr (UnauthorizedError
                              "Token reuse detected — all sessions revoked"))
            \/ (rt_isRevoked stored = false
                /\ (at_check clock >? rt_expiresAt stored) = true
                /\ e = AppErr (UnauthorizedError "Refresh token expired"))
            \/ (rt_isRevoked stored = false
                /\ (at_check clock >? rt_expiresAt stored) = false
                /\ match prisma.user_byId (w_db w) (rt_userId stored) with
                   | Some user => user_isActive user = false
                   | None => True
                   end
                /\ e = AppErr (UnauthorizedError "User account is deactivated")))).
Proof.
  unfold run, refresh_clocked.
  destruct (jwt.verify _ _ _) as [decoded|] eqn:Hver.
  2: { intros E. injection E as <-. right. left. settle_cause Huser. }
  assert (Hsome : Some decoded <> None) by discriminate.
  unfold bind at 1.
  destruct (await_prisma_cases (prisma.refreshToken_findUnique presented) w)
    as [E|E]; rewrite E; clear E.
  { intros E. injection E as <-. left. eauto. }
  unfold prisma.refreshToken_findUnique at 1 2. cbn [fst snd].
  destruct (prisma.refreshToken_byToken (w_db w) presented) as [[id stored]|] eqn:Hby.
  2: { intros E. injection E as <-. right. right. left. settle_cause Huser. }
  destruct (rt_isRevoked stored) eqn:Hrev.
  { unfold bind.
    match goal with
    | |- context [await_prisma ?q ?w0] =>
        destruct (await_prisma_cases q w0) as [E|E]; rewrite E; clear E
    end.
    - intros E. injection E as <-. left. eauto.
    - unfold prisma.refreshToken_updateMany. cbn [fst snd].
      intros E. injection E as <-. right. right. right.
      exists id, stored. split; [exact Hsome|]. split; [reflexivity|].
      left. settle_cause Huser. }
  destruct (at_check clock >? rt_expiresAt stored) eqn:Hexp.
  { intros E. injection E as <-. right. right. right.
    exists id, stored. split; [exact Hsome|]. split; [reflexivity|].
    right. left. settle_cause Huser. }
  destruct (prisma.user_byId (w_db w) (rt_userId stored)) as [user|] eqn:Huser.
  2: { intros E. injection E as <-. right. right. right.
       exists id, stored. split; [exact Hsome|]. split; [reflexivity|].
       right. right. settle_cause Huser. }
  destruct (user_isActive user) eqn:Hactive; cbn [negb].
  2: { intros E. injection E as <-. right. right. right.
       exists id, stored. split; [exact Hsome|]. split; [reflexivity|].
       right. right. settle_cause Huser. }
  intros E. left. revert E. unfold bind, promise_all.
  match goal with
  | |- context [await_prisma ?q ?w0] =>
      destruct (await_prisma_cases q w0) as [E|E]; rewrite E; clear E
  end.
  all: unfold AuthService._generateTokenPair, bind.
  all: match goal with
       | |- context [await_prisma ?q ?w0] =>
           destruct (await_prisma_cases q w0) as [E|E]; rewrite E; clear E
       end.
  all: cbn [fst snd w_db w_cache w_faults].
  all: try (intros E; injection E as <-; eauto).
  all: unfold prisma.refreshToken_update, prisma.refreshToken_create;
    cbn [w_db w_cache w_faults].
  all: repeat match goal with
       | |- context [match nth_error ?l ?i with _ => _ end] =>
           destruct (nth_error l i)
       | |- context [match prisma.refreshToken_byToken ?d ?t with _ => _ end] =>
           destruct (prisma.refreshToken_byToken d t)
       end; cbn [fst snd w_db w_cache w_faults].
  all: try (intros E; injection E as <-; eauto).
  all: try discriminate.
Qed.

(** X4.  The stored expiry decides only while the lookup is under way.
    Take a refresh token as [_generateTokenPair] issues it: signed for
    the lifetime its row is stored with, the row's expiry computed no
    earlier than the signature's.  If the clock is past the stored
    expiry when the token is verified, the answer is "Invalid refresh
    token" and nothing changes.  "Refresh token expired" is the answer
    only if the stored expiry lies strictly between the reading of the
    clock at verification and its reading at the expiry check, that is,
    if the token expires during the lookup; read at one instant, the
    clock never gives that answer. *)
Theorem stored_expiry_decides_only_during_the_lookup :
  forall env clock (w : World C) issued_at stored_at subject org fam lifetime,
    let presented :=
      jwt.sign issued_at subject None org fam refreshSecret
        (expiresInSeconds lifetime) in
    issued_at <= stored_at ->
    (forall id stored,
       prisma.refreshToken_byToken (w_db w) presented = Some (id, stored) ->
       rt_expiresAt stored = expiryToDate stored_at lifetime) ->
    (at_verify clock > expiryToDate stored_at lifetime ->
     run (refresh_clocked env clock presented) w
     = (Rejected (AppErr (UnauthorizedError "Invalid refresh token")), w))
    /\ (fst (run (refresh_clocked env clock presented) w)
        = Rejected (AppErr (UnauthorizedError "Refresh token expired")) ->
        at_verify clock < expiryToDate stored_at lifetime < at_check clock)
    /\ (at_check clock <= at_verify clock ->
        fst (run (refresh_clocked env clock presented) w)
        <> Rejected (AppErr (UnauthorizedError "Refresh token expired"))).
Proof.
  intros env clock w issued_at stored_at subject org fam lifetime presented
    Horder Hrow.
  assert (Hwindow :
            fst (run (refresh_clocked env clock presented) w)
            = Rejected (AppErr (UnauthorizedError "Refresh token expired")) ->
            at_verify clock < expiryToDate stored_at lifetime < at_check clock).
  { intros Hexpired.
    destruct (refresh_rejection_cause _ _ _ _ _ Hexpired)
      as [[code E] | [[_ E] | [(_ & _ & E) | (id & stored & Hver & Hby & Hcase)]]];
      try discriminate.
    destruct Hcase as [[_ E] | [(Hlive & Hgt & _) | (_ & _ & _ & E)]];
      try discriminate.
    rewrite (Hrow id stored Hby) in Hgt. apply Z.gtb_lt in Hgt.
    split; [|exact Hgt].
    destruct (Z.lt_ge_cases (at_verify clock) (expiryToDate stored_at lifetime))
      as [Hlt|Hge]; [exact Hlt|].
    exfalso. apply Hver. unfold presented.
    unfold jwt.verify, jwt.sign, jwt.clockTimestamp. cbn [exp Secret_eqb].
    unfold expiryToDate in Hge. rewrite expiry_ms_seconds in Hge.
    assert (Hle : issued_at / 1000 + expiresInSeconds lifetime
                  <= at_verify clock / 1000).
    { replace (issued_at / 1000 + expiresInSeconds lifetime)
        with ((issued_at + expiresInSeconds lifetime * 1000) / 1000)
        by (rewrite Z.div_add by lia; reflexivity).
      apply Z.div_le_mono; lia. }
    destruct (Z.geb_spec (at_verify clock / 1000)
                (issued_at / 1000 + expiresInSeconds lifetime));
      [reflexivity | lia]. }
  split; [|split].
  - intros Hgt. unfold run, refresh_clocked, presented.
    rewrite (verify_after_stored_expiry issued_at (at_verify clock));
      [reflexivity|].
    unfold expiryToDate in *. lia.
  - exact Hwindow.
  - intros Hone Hexpired. apply Hwindow in Hexpired. lia.
Qed.

(** X5.  Force logout ends every refresh session of the user.  When its
    storage call arrives, every RefreshToken row of the user is revoked,
    the rows of other users are left as they were, the user's cached
    permission sets are deleted by pattern; afterwards no refresh token
    whose row belongs to the user can be rotated: every attempt fails
    with Unauthorized. *)
Theorem forceLogout_ends_refresh_sessions :
  forall userId (w : World C),
    hd false (w_faults w) = false ->
    let w' := snd (run (AuthService.forceLogout userId) w) in
    (forall r, In r (refreshTokens (w_db w')) -> rt_userId r = userId ->
               rt_isRevoked r = true)
    /\ (forall i r, nth_error (refreshTokens (w_db w)) i = Some r ->
                    rt_userId r <> userId ->
                    nth_error (refreshTokens (w_db w')) i = Some r)
    /\ length (refreshTokens (w_db w')) = length (refreshTokens (w_db w))
    /\ w_cache w' = cache_delPattern (w_cache w) (permissionsOfUser userId)
    /\ (forall env presented id stored,
          storage_reliable w' ->
          prisma.refreshToken_byToken (w_db w') presented = Some (id, stored) ->
          rt_userId stored = userId ->
          unauthorized (fst (run (AuthService.refresh env presented) w'))).
Proof.
  intros userId w Harrives w'.
  set (where_ := fun r => String.eqb (rt_userId r) userId && negb (rt_isRevoked r)).
  assert (Hw' : w' = mkWorld
                       (with_refreshTokens (w_db w)
                          (revoked_where where_ (refreshTokens (w_db w))))
                       (cache_delPattern (w_cache w) (permissionsOfUser userId))
                       (tl (w_faults w))).
  { unfold w', run, AuthService.forceLogout, bind.
    rewrite (await_prisma_arrives _ _ Harrives). reflexivity. }
  assert (Hall : forall r, In r (refreshTokens (w_db w')) -> rt_userId r = userId ->
                           rt_isRevoked r = true).
  { rewrite Hw'. cbn [w_db refreshTokens with_refreshTokens].
    unfold revoked_where. intros r Hin Hu. apply in_map_iff in Hin.
    destruct Hin as [r0 [E _]]. unfold where_ in E.
    destruct (String.eqb (rt_userId r0) userId) eqn:Huid; cbn [andb] in E.
    - destruct (rt_isRevoked r0) eqn:Hr0; cbn [negb] in E; subst r;
        [exact Hr0 | reflexivity].
    - subst r. apply String.eqb_neq in Huid. contradiction. }
  split; [exact Hall|]. split; [|split; [|split]].
  - intros i r Hi Hne. rewrite Hw'. cbn [w_db refreshTokens with_refreshTokens].
    unfold revoked_where. rewrite nth_error_map, Hi. cbn [option_map].
    unfold where_. apply String.eqb_neq in Hne. rewrite Hne. reflexivity.
  - rewrite Hw'. cbn [w_db refreshTokens with_refreshTokens].
    unfold revoked_where. apply length_map.
  - rewrite Hw'. reflexivity.
  - intros env presented id stored Hrel Hby Hu.
    assert (Hrev : rt_isRevoked stored = true).
    { apply Hall; [|exact Hu]. apply find_index_Some in Hby.
      destruct Hby as [Hnth _]. apply nth_error_In in Hnth. exact Hnth. }
    destruct (jwt.verify (env_now env) presented refreshSecret) as [decoded|] eqn:Hver.
    + exists "Token reuse detected — all sessions revoked".
      rewrite (refresh_replay_run env presented w' decoded id stored
                 (prisma.user_byId (w_db w') (rt_userId stored)) Hrel Hver).
      * reflexivity.
      * unfold prisma.refreshToken_findUnique. rewrite Hby. reflexivity.
      * exact Hrev.
    + exists "Invalid refresh token".
      rewrite (refresh_unverified_run env presented w' Hver). reflexivity.
Qed.

End Sessions.

(* ====================================================================== *)
(** ** Further properties: the access token at the request gate *)
(* ====================================================================== *)

Lemma jwt_verify_result_verify now t secret :
  jwt.verify now t secret
  = match jwt_verify_result now t secret with
    | inl c => Some c
    | inr _ => None
    end.
Proof.
  destruct t as [k c|raw]; simpl; [|reflexivity].
  destruct (Secret_eqb k secret); [|reflexivity].
  destruct (exp c) as [e|]; [|reflexivity].
  destruct (jwt.clockTimestamp now >=? e); reflexivity.
Qed.

Lemma mem_cache_reads_own_writes : reads_own_writes MemCache.
Proof.
  intros c key v ttl. simpl.
  assert (E : CacheKey_eqb key key = true).
  { destruct key; simpl; [rewrite !String.eqb_refl; reflexivity
                         | apply Token_eqb_refl]. }
  rewrite E. reflexivity.
Qed.

Lemma mem_cache_spares_blacklist : delPattern_spares_blacklist MemCache.
Proof.
  intros c userId token. simpl.
  induction c as [|[[k v] ttl] c IH]; simpl; [reflexivity|].
  destruct k as [u o|t]; simpl.
  - destruct (String.eqb userId u); simpl; exact IH.
  - destruct (Token_eqb t token); [reflexivity | exact IH].
Qed.

Section RequestGate.

Context {C : Type} `{CacheApi C}.

(** A request the gate refuses: no user attached, an Unauthorized
    handed to [next]. *)
Ltac refused := split; [reflexivity | eexists; reflexivity].

(** X6.  The request gate accepts exactly the bearer tokens that are
    signed under the access secret, whose expiry claim, if any, lies in
    the future, and that carry no truthy blacklist mark in the cache or
    whose blacklist read fails (a failing read lets the request
    through, blacklisted or not); the identity and the tenant it
    attaches are those of the signed payload and of nothing else. *)
Theorem authenticate_accepts_exactly :
  forall now authHeader lost (cache : C),
    let handled := authenticate now authHeader lost cache in
    (auth_next handled = next_ok <->
       exists claims,
         authHeader = header_bearer (Jwt accessSecret claims)
         /\ (forall e, exp claims = Some e -> now / 1000 < e)
         /\ (lost = true
             \/ truthy (cache_get cache (blacklistKey (Jwt accessSecret claims)))
                = false))
    /\ (forall claims,
          authHeader = header_bearer (Jwt accessSecret claims) ->
          auth_next handled = next_ok ->
          auth_user handled
          = Some (mkAuthenticatedUser (sub claims) (email claims)
                    (organizationId claims)))
    /\ (auth_next handled <> next_ok ->
        auth_user handled = None
        /\ exists msg, auth_next handled = next_err (AppErr (UnauthorizedError msg))).
Proof.
  intros now authHeader lost cache handled. unfold handled, authenticate.
  destruct authHeader as [|raw|[k c|raw]]; cbn [jwt_verify_result].
  1,2,4: split; [split; [discriminate | intros (claims & E & _); discriminate]|];
         split; [intros claims E; discriminate|]; intros _; refused.
  destruct (Secret_eqb k accessSecret) eqn:Hk.
  2: { split; [split; [discriminate|]|].
       - intros (claims & E & _). injection E as -> ->. discriminate.
       - split; [|intros _; refused].
         intros claims E. injection E as -> ->. discriminate. }
  apply Secret_eqb_eq in Hk. subst k. unfold jwt.clockTimestamp.
  assert (Hverified :
            (forall e, exp c = Some e -> now / 1000 < e) ->
            let handled :=
              if lost then
                mkAuthenticated next_ok
                  (Some (mkAuthenticatedUser (sub c) (email c) (organizationId c)))
              else if truthy (cache_get cache (blacklistKey (Jwt accessSecret c)))
              then mkAuthenticated
                     (next_err (AppErr (UnauthorizedError
                                          "Token has been revoked"))) None
              else mkAuthenticated next_ok
                     (Some (mkAuthenticatedUser (sub c) (email c)
                              (organizationId c))) in
            (auth_next handled = next_ok <->
               exists claims,
                 header_bearer (Jwt accessSecret c)
                 = header_bearer (Jwt accessSecret claims)
                 /\ (forall e, exp claims = Some e -> now / 1000 < e)
                 /\ (lost = true
                     \/ truthy (cache_get cache
                                  (blacklistKey (Jwt accessSecret claims)))
                        = false))
            /\ (forall claims,
                  header_bearer (Jwt accessSecret c)
                  = header_bearer (Jwt accessSecret claims) ->
                  auth_next handled = next_ok ->
                  auth_user handled
                  = Some (mkAuthenticatedUser (sub claims) (email claims)
                            (organizationId claims)))
            /\ (auth_next handled <> next_ok ->
                auth_user handled = None
                /\ exists msg,
                     auth_next handled
                     = next_err (AppErr (UnauthorizedError msg)))).
  { intros Hfuture. cbv zeta. destruct lost.
    - split; [split; [intros _|reflexivity]|].
      + exists c. auto.
      + split; [|intros Hne; contradiction].
        intros claims E _. injection E as <-. reflexivity.
    - destruct (truthy (cache_get cache (blacklistKey (Jwt accessSecret c))))
        eqn:Hb.
      + split; [split; [discriminate|]|].
        * intros (claims & E & _ & [Hlost|Hclean]); [discriminate|].
          injection E as <-. congruence.
        * split; [intros claims _; discriminate | intros _; refused].
      + split; [split; [intros _|reflexivity]|].
        * exists c. auto.
        * split; [|intros Hne; contradiction].
          intros claims E _. injection E as <-. reflexivity. }
  destruct (exp c) as [e|] eqn:He.
  - destruct (Z.geb_spec (now / 1000) e) as [Hge|Hlt].
    + split; [split; [discriminate|]|].
      * intros (claims & E & Hfuture & _). injection E as <-.
        specialize (Hfuture e He). lia.
      * split; [intros claims _; discriminate | intros _; refused].
    + apply Hverified. intros e' E. injection E as <-. exact Hlt.
  - apply Hverified. intros e' E. discriminate.
Qed.

(** X7.  The access token a login returns opens the gate for the user
    who logged in, in the organization he logged in to, from its issue
    until its lifetime is over (unless it has been blacklisted and the
    blacklist can be read), and is answered with "Access token expired"
    from then on. *)
Theorem login_access_token_at_the_gate :
  forall env db organization user now lost (cache : C),
    let token := lr_accessToken (login_result env db organization user) in
    let expiry :=
      env_now env / 1000 + expiresInSeconds (accessExpiry (env_jwt env)) in
    (now / 1000 < expiry ->
     lost = true \/ truthy (cache_get cache (blacklistKey token)) = false ->
     authenticate now (header_bearer token) lost cache
     = mkAuthenticated next_ok
         (Some (mkAuthenticatedUser (user_id user) (Some (user_email user))
                  (org_id organization))))
    /\ (expiry <= now / 1000 ->
        authenticate now (header_bearer token) lost cache
        = mkAuthenticated
            (next_err (AppErr (UnauthorizedError "Access token expired"))) None).
Proof.
  intros env db organization user now lost cache token expiry.
  unfold token, login_result, authenticate. cbn [lr_accessToken].
  unfold jwt.sign, jwt_verify_result, jwt.clockTimestamp. cbn [Secret_eqb exp].
  fold expiry. split.
  - intros Hlt Hclean.
    destruct (Z.geb_spec (now / 1000) expiry); [lia|].
    destruct Hclean as [->|Hclean]; [reflexivity|].
    unfold jwt.clockTimestamp in Hclean. fold expiry in Hclean.
    rewrite Hclean. destruct lost; reflexivity.
  - intros Hge. destruct (Z.geb_spec (now / 1000) expiry); [reflexivity | lia].
Qed.

(** X8.  The refresh token of a session is of no use at the request
    gate: whatever the time and the cache, and whether or not the cache
    can be read, a bearer token signed under the refresh secret (or any
    key but the access secret) is answered with "Invalid access
    token". *)
Theorem gate_refuses_refresh_tokens :
  forall now key claims lost (cache : C),
    key <> accessSecret ->
    authenticate now (header_bearer (Jwt key claims)) lost cache
    = mkAuthenticated
        (next_err (AppErr (UnauthorizedError "Invalid access token"))) None.
Proof.
  intros now key claims lost cache Hkey. unfold authenticate, jwt_verify_result.
  destruct (Secret_eqb key accessSecret) eqn:Hk; [|reflexivity].
  apply Secret_eqb_eq in Hk. contradiction.
Qed.

End RequestGate.

Section GateAndLogout.

Context {C : Type} `{CacheApi C}.

(** X9.  Logout closes the gate behind it.  Over a cache that answers a
    read with what was last written, once a logout has presented an
    access token with lifetime left, the gate, whenever it can read the
    blacklist, no longer accepts that token at any time: while its
    signature is valid the answer is "Token has been revoked". *)
Theorem logout_closes_the_gate :
  reads_own_writes C ->
  forall env token claims expiry presented userId (w : World C) now,
    jwt.decode token = Some claims ->
    exp claims = Some expiry ->
    0 <= env_now env ->
    0 < expiry - env_now env / 1000 ->
    let w' := snd (run (AuthService.logout env (Some token) presented userId) w) in
    auth_next (authenticate now (header_bearer token) false (w_cache w'))
      <> next_ok
    /\ (jwt.verify now token accessSecret <> None ->
        authenticate now (header_bearer token) false (w_cache w')
        = mkAuthenticated
            (next_err (AppErr (UnauthorizedError "Token has been revoked"))) None).
Proof.
  intros Hlaw env token claims expiry presented userId w now Hdecode Hexp Hnow Hleft w'.
  destruct (logout_steps env (Some token) presented userId w)
    as [cache' [_ [Hcache Hrun]]].
  specialize (Hcache token claims expiry eq_refl Hdecode Hexp Hnow).
  assert (Hw' : w_cache w' = cache').
  { unfold w'. rewrite Hrun. unfold AuthService.revoke_presented.
    destruct presented as [t|]; [|reflexivity].
    destruct (token_truthy t); [|reflexivity].
    apply await_prisma_cache. }
  assert (Hmark : truthy (cache_get (w_cache w') (blacklistKey token)) = true).
  { rewrite Hw', Hcache.
    destruct (Z.ltb_spec 0 (expiry - env_now env / 1000)); [|lia].
    rewrite Hlaw. reflexivity. }
  unfold authenticate. rewrite (jwt_verify_result_verify now token accessSecret).
  destruct (jwt_verify_result now token accessSecret) as [decoded|[|]];
    rewrite ?Hmark; split; try discriminate; try reflexivity;
    intros Hne; contradiction Hne; reflexivity.
Qed.

(** X11.  Force logout does not reach the access token.  Over a cache
    whose pattern deletion of a user's permission entries leaves the
    blacklist marks alone, the gate answers every request after a
    force logout as it did before: an access token of the user that was
    accepted stays accepted until it expires. *)
Theorem forceLogout_leaves_the_gate :
  delPattern_spares_blacklist C ->
  forall userId (w : World C) now authHeader lost,
    authenticate now authHeader lost
      (w_cache (snd (run (AuthService.forceLogout userId) w)))
    = authenticate now authHeader lost (w_cache w).
Proof.
  intros Hlaw userId w now authHeader lost.
  assert (Hcache : w_cache (snd (run (AuthService.forceLogout userId) w)) = w_cache w
                   \/ w_cache (snd (run (AuthService.forceLogout userId) w))
                      = cache_delPattern (w_cache w) (permissionsOfUser userId)).
  { unfold run, AuthService.forceLogout, bind.
    match goal with
    | |- context [await_prisma ?q ?w0] =>
        destruct (await_prisma_cases q w0) as [E|E]; rewrite E; clear E
    end; [left; reflexivity | right; reflexivity]. }
  destruct Hcache as [-> | ->]; [reflexivity|].
  unfold authenticate. destruct authHeader as [|raw|token]; try reflexivity.
  rewrite Hlaw. reflexivity.
Qed.

End GateAndLogout.

(** X10.  With the cache module the repository ships, where Redis is
    disabled and every cache call is a no-op, a logout does not close
    the gate: the gate answers for the presented access token after the
    logout exactly as before, and accepts it for as long as its
    signature is valid. *)
Theorem logout_without_redis_leaves_the_gate_open :
  forall env token presented userId (w : World unit) now lost,
    let w' := snd (run (AuthService.logout env (Some token) presented userId) w) in
    authenticate now (header_bearer token) lost (w_cache w')
    = authenticate now (header_bearer token) lost (w_cache w)
    /\ (forall claims,
          jwt.verify now token accessSecret = Some claims ->
          authenticate now (header_bearer token) lost (w_cache w')
          = mkAuthenticated next_ok
              (Some (mkAuthenticatedUser (sub claims) (email claims)
                       (organizationId claims)))).
Proof.
  intros env token presented userId w now lost w'. split.
  - destruct (w_cache w'), (w_cache w). reflexivity.
  - intros claims Hver. unfold authenticate.
    rewrite jwt_verify_result_verify in Hver.
    destruct (jwt_verify_result now token accessSecret) as [c|e];
      [|discriminate].
    injection Hver as ->. destruct lost; reflexivity.
Qed.

(* ====================================================================== *)
(** ** The further properties on the seeded session *)
(* ====================================================================== *)

(** The payload of the refresh token of the seeded session, and its row. *)
Lemma loggedIn_rotation_ready :
  rotation_ready (Seed.env 5000 "f2") (Seed.refreshTokenOf 1000 "f1")
    Seed.world_loggedIn
    (mkClaims "u-manager" None "org-acme" (Some "f1") 1 (Some 604801))
    0%nat
    (mkRefreshToken (Seed.refreshTokenOf 1000 "f1") "u-manager" "f1"
       604801000 false)
    (touch_lastLogin 1000 Seed.manager).
Proof. repeat split. Qed.

(** The rotation of the seeded session at 5000 ms. *)
Lemma rotation_succeeds_witness :
  run (AuthService.refresh (Seed.env 5000 "f2") (Seed.refreshTokenOf 1000 "f1"))
    Seed.world_loggedIn
  = (Resolved
       (mkTokenPair
          (jwt.sign 5000 "u-manager" (Some "manager@acme.com") "org-acme" None
             accessSecret 900)
          (Seed.refreshTokenOf 5000 "f1")),
     Seed.world_rotated).
Proof.
  exact (proj1 (rotation_succeeds (Seed.env 5000 "f2")
                  (Seed.refreshTokenOf 1000 "f1") Seed.world_loggedIn _ _ _ _
                  loggedIn_rotation_ready)).
Defined.

(** The rotated-away token of the seeded session, presented again at
    9000 ms. *)
Lemma replay_after_rotation_witness :
  fst (run (AuthService.refresh (Seed.env 9000 "f3")
              (Seed.refreshTokenOf 1000 "f1"))
         (snd (run (AuthService.refresh (Seed.env 5000 "f2")
                      (Seed.refreshTokenOf 1000 "f1"))
                 Seed.world_loggedIn)))
  = Rejected (AppErr (UnauthorizedError
                        "Token reuse detected — all sessions revoked")).
Proof.
  refine (proj1 (replay_after_rotation (Seed.env 5000 "f2") (Seed.env 9000 "f3")
                   (Seed.refreshTokenOf 1000 "f1") Seed.world_loggedIn _ _ _ _ _
                   loggedIn_rotation_ready _ eq_refl)).
  discriminate.
Defined.

(** An access token presented for refresh. *)
Lemma refresh_fails_closed_witness :
  run (AuthService.refresh (Seed.env 5000 "f2") (Seed.accessTokenOf 1000))
    Seed.world_loggedIn
  = (Rejected (AppErr (UnauthorizedError "Invalid refresh token")),
     Seed.world_loggedIn).
Proof.
  apply refresh_fails_closed.
  intros k c E. injection E as <- _. left. discriminate.
Defined.

(** The refresh token of the seeded session, verified one millisecond
    before its stored expiry and checked one millisecond after it. *)
Lemma stored_expiry_witness :
  fst (run (refresh_clocked (Seed.env 604800999 "f2")
              (mkRefreshClock 604800999 604801001 604801001)
              (Seed.refreshTokenOf 1000 "f1"))
         Seed.world_loggedIn)
  = Rejected (AppErr (UnauthorizedError "Refresh token expired"))
  /\ 604800999 < 604801000 < 604801001.
Proof.
  split; [reflexivity|].
  refine (proj1 (proj2
            (stored_expiry_decides_only_during_the_lookup
               (Seed.env 604800999 "f2")
               (mkRefreshClock 604800999 604801001 604801001)
               Seed.world_loggedIn 1000 1000 "u-manager" "org-acme" (Some "f1")
               (refreshExpiry config.jwt_defaults) _ _)) eq_refl).
  - vm_compute. discriminate.
  - intros id stored E. vm_compute in E. injection E as <- <-. reflexivity.
Defined.

(** The manager's session after a forced logout. *)
Lemma forceLogout_witness :
  unauthorized
    (fst (run (AuthService.refresh (Seed.env 5000 "f2")
                 (Seed.refreshTokenOf 1000 "f1"))
            (snd (run (AuthService.forceLogout "u-manager")
                    Seed.world_loggedIn)))).
Proof.
  refine (proj2 (proj2 (proj2 (proj2
            (forceLogout_ends_refresh_sessions "u-manager" Seed.world_loggedIn
               eq_refl))))
            (Seed.env 5000 "f2") (Seed.refreshTokenOf 1000 "f1") 0%nat
            (revoke (mkRefreshToken (Seed.refreshTokenOf 1000 "f1") "u-manager"
                       "f1" 604801000 false))
            eq_refl eq_refl eq_refl).
Defined.

(** The manager's access token, blacklisted by a logout, at the gate
    while the blacklist cannot be read. *)
Lemma authenticate_failing_read_witness :
  auth_next
    (authenticate 3000 (header_bearer (Seed.accessTokenOf 1000)) true
       (w_cache (snd (run (AuthService.logout (Seed.env 2000 "f2")
                             (Some (Seed.accessTokenOf 1000))
                             (Some (Seed.refreshTokenOf 1000 "f1"))
                             "u-manager")
                        Seed.world_loggedIn))))
  = next_ok.
Proof.
  apply (proj2 (proj1 (authenticate_accepts_exactly 3000
                         (header_bearer (Seed.accessTokenOf 1000)) true _))).
  eexists. split; [reflexivity|]. split; [|left; reflexivity].
  intros e E. injection E as <-. reflexivity.
Defined.

(** The manager's access token of 1000 ms at the gate, a second later. *)
Lemma login_access_token_witness :
  authenticate 2000
    (header_bearer
       (lr_accessToken
          (login_result (Seed.env 1000 "f1") Seed.db Seed.acme Seed.manager)))
    false ([] : MemCache)
  = mkAuthenticated next_ok
      (Some (mkAuthenticatedUser "u-manager" (Some "manager@acme.com")
               "org-acme")).
Proof.
  exact (proj1 (login_access_token_at_the_gate (Seed.env 1000 "f1") Seed.db
                  Seed.acme Seed.manager 2000 false ([] : MemCache))
           eq_refl (or_intror eq_refl)).
Defined.

(** The refresh token of the seeded session as a bearer token. *)
Lemma gate_refuses_refresh_tokens_witness :
  authenticate 5000 (header_bearer (Seed.refreshTokenOf 1000 "f1")) false
    ([] : MemCache)
  = mkAuthenticated
      (next_err (AppErr (UnauthorizedError "Invalid access token"))) None.
Proof.
  refine (gate_refuses_refresh_tokens 5000 refreshSecret
            (mkClaims "u-manager" None "org-acme" (Some "f1") 1 (Some 604801))
            false ([] : MemCache) _).
  discriminate.
Defined.

(** The manager logs out at 2000 ms and presents the access token again
    at 3000 ms. *)
Lemma logout_closes_the_gate_witness :
  authenticate 3000 (header_bearer (Seed.accessTokenOf 1000)) false
    (w_cache (snd (run (AuthService.logout (Seed.env 2000 "f2")
                          (Some (Seed.accessTokenOf 1000))
                          (Some (Seed.refreshTokenOf 1000 "f1")) "u-manager")
                     Seed.world_loggedIn)))
  = mkAuthenticated
      (next_err (AppErr (UnauthorizedError "Token has been revoked"))) None.
Proof.
  refine (proj2 (logout_closes_the_gate mem_cache_reads_own_writes
                   (Seed.env 2000 "f2") (Seed.accessTokenOf 1000) _ 901
                   (Some (Seed.refreshTokenOf 1000 "f1")) "u-manager"
                   Seed.world_loggedIn 3000 eq_refl eq_refl _ eq_refl) _).
  - vm_compute. discriminate.
  - vm_compute. discriminate.
Defined.

(** The manager's access token after a forced logout. *)
Lemma forceLogout_leaves_the_gate_witness :
  authenticate 2000 (header_bearer (Seed.accessTokenOf 1000)) false
    (w_cache (snd (run (AuthService.forceLogout "u-manager")
                     Seed.world_loggedIn)))
  = mkAuthenticated next_ok
      (Some (mkAuthenticatedUser "u-manager" (Some "manager@acme.com")
               "org-acme")).
Proof.
  exact (forceLogout_leaves_the_gate mem_cache_spares_blacklist "u-manager"
           Seed.world_loggedIn 2000 (header_bearer (Seed.accessTokenOf 1000))
           false).
Defined.

(* ====================================================================== *)
(** ** Further properties: registration *)
(* ====================================================================== *)

Lemma find_app_none {A} (p : A -> bool) xs x :
  find p xs = None -> find p (xs ++ [x]) = if p x then Some x else None.
Proof.
  induction xs as [|y xs IH]; simpl; [reflexivity|].
  destruct (p y); [discriminate | exact IH].
Qed.

Section Registration.

Context {C : Type} `{BcryptHashApi}.
Variable saltRounds : Z.
Variable defaultRoleOf : Db -> string -> option Role.
Variable isActiveDefault : bool.
Variable newId : string.

(** The run of a registration that passes both guards, when none of its
    storage calls is lost. *)
Lemma register_run input organization (w : World C) :
  storage_reliable w ->
  prisma.organization_bySlug (w_db w) (reg_organizationSlug input)
    = Some organization ->
  org_isActive organization = true ->
  prisma.user_byEmail (w_db w) (reg_email input) (org_id organization) = None ->
  run (Register.register saltRounds defaultRoleOf isActiveDefault newId input) w
  = (Resolved (mkRegistered newId (reg_email input) (reg_firstName input)
                 (reg_lastName input) (org_id organization)),
     mkWorld
       (db_after_register (w_db w)
          (registered_user saltRounds isActiveDefault newId input organization)
          (defaultRoleOf (w_db w) (org_id organization)))
       (w_cache w) []).
Proof.
  intros Hrel Horg Hactive Hnone. unfold run, Register.register.
  unfold bind at 1. rewrite (await_prisma_reliable _ _ Hrel).
  unfold prisma.organization_findUnique. cbn [fst snd].
  rewrite Horg, Hactive. cbn [negb].
  unfold bind at 1. rewrite await_prisma_reliable by reflexivity.
  unfold prisma.user_findUnique. cbn [fst snd w_db w_cache].
  rewrite Hnone.
  unfold bind at 1. rewrite await_prisma_reliable by reflexivity.
  cbn [fst snd w_db w_cache].
  unfold bind at 1, transaction.
  unfold bind at 1. rewrite await_prisma_reliable by reflexivity.
  unfold user_create. cbn [w_db w_cache]. rewrite Hnone. cbn [fst snd].
  destruct (defaultRoleOf (w_db w) (org_id organization)) as [role|].
  - unfold bind at 1. rewrite await_prisma_reliable by reflexivity.
    reflexivity.
  - reflexivity.
Qed.

(** The runs of a registration, whichever storage calls are lost. *)
Lemma register_cases input (w : World C) r w' :
  run (Register.register saltRounds defaultRoleOf isActiveDefault newId input) w
  = (r, w') ->
  w_cache w' = w_cache w
  /\ ((exists e, r = Rejected e /\ w_db w' = w_db w)
      \/ (exists organization,
            prisma.organization_bySlug (w_db w) (reg_organizationSlug input)
              = Some organization
            /\ org_isActive organization = true
            /\ prisma.user_byEmail (w_db w) (reg_email input)
                 (org_id organization) = None
            /\ r = Resolved (mkRegistered newId (reg_email input)
                               (reg_firstName input) (reg_lastName input)
                               (org_id organization))
            /\ w_db w'
               = db_after_register (w_db w)
                   (registered_user saltRounds isActiveDefault newId input
                      organization)
                   (defaultRoleOf (w_db w) (org_id organization)))).
Proof.
  assert (Hrejected : forall e (w0 : World C) r0 w0',
            w_cache w0 = w_cache w -> w_db w0 = w_db w ->
            (Rejected e, w0) = (r0, w0') ->
            w_cache w0' = w_cache w
            /\ ((exists e, r0 = Rejected e /\ w_db w0' = w_db w)
                \/ (exists organization,
                      prisma.organization_bySlug (w_db w)
                        (reg_organizationSlug input) = Some organization
                      /\ org_isActive organization = true
                      /\ prisma.user_byEmail (w_db w) (reg_email input)
                           (org_id organization) = None
                      /\ r0 = Resolved (mkRegistered newId (reg_email input)
                                          (reg_firstName input)
                                          (reg_lastName input)
                                          (org_id organization))
                      /\ w_db w0'
                         = db_after_register (w_db w)
                             (registered_user saltRounds isActiveDefault newId
                                input organization)
                             (defaultRoleOf (w_db w) (org_id organization))))).
  { intros e w0 r0 w0' Hc Hd E. injection E as <- <-.
    split; [exact Hc | left; eauto]. }
  unfold run, Register.register.
  unfold bind at 1.
  destruct (await_prisma_cases
              (prisma.organization_findUnique (reg_organizationSlug input)) w)
    as [E|E]; rewrite E; clear E; [apply Hrejected; reflexivity|].
  unfold prisma.organization_findUnique. cbn [fst snd].
  destruct (prisma.organization_bySlug (w_db w) (reg_organizationSlug input))
    as [organization|] eqn:Horg; [|apply Hrejected; reflexivity].
  destruct (org_isActive organization) eqn:Hactive; cbn [negb];
    [|apply Hrejected; reflexivity].
  unfold bind at 1.
  match goal with
  | |- context [await_prisma ?q ?w0] =>
      destruct (await_prisma_cases q w0) as [E|E]; rewrite E; clear E
  end; [apply Hrejected; reflexivity|].
  unfold prisma.user_findUnique. cbn [fst snd w_db w_cache].
  destruct (prisma.user_byEmail (w_db w) (reg_email input) (org_id organization))
    as [existing|] eqn:Hnone; [apply Hrejected; reflexivity|].
  unfold bind at 1.
  match goal with
  | |- context [await_prisma ?q ?w0] =>
      destruct (await_prisma_cases q w0) as [E|E]; rewrite E; clear E
  end; [apply Hrejected; reflexivity|].
  cbn [fst snd w_db w_cache].
  unfold bind at 1, transaction. unfold bind at 1.
  match goal with
  | |- context [await_prisma ?q ?w0] =>
      destruct (await_prisma_cases q w0) as [E|E]; rewrite E; clear E
  end; [apply Hrejected; reflexivity|].
  unfold user_create. cbn [w_db w_cache]. rewrite Hnone. cbn [fst snd].
  destruct (defaultRoleOf (w_db w) (org_id organization)) as [role|] eqn:Hrole.
  - unfold bind at 1.
    match goal with
    | |- context [await_prisma ?q ?w0] =>
        destruct (await_prisma_cases q w0) as [E|E]; rewrite E; clear E
    end; [apply Hrejected; reflexivity|].
    intros E. injection E as <- <-.
    split; [reflexivity|]. right. exists organization.
    rewrite Hrole. repeat split; try assumption; reflexivity.
  - intros E. injection E as <- <-.
    split; [reflexivity|]. right. exists organization.
    rewrite Hrole. repeat split; try assumption; reflexivity.
Qed.

(** X12.  Registration is all or nothing.  Whichever of its storage
    calls are lost, a registration that rejects leaves the store exactly
    as it was, and one that resolves has stored the new account together
    with its default-role assignment (when a default role exists): an
    account without its default role is never left behind.  The cache is
    not touched. *)
Theorem register_all_or_nothing :
  forall input (w : World C),
    let out :=
      run (Register.register saltRounds defaultRoleOf isActiveDefault newId
             input) w in
    w_cache (snd out) = w_cache w
    /\ ((exists e, fst out = Rejected e /\ w_db (snd out) = w_db w)
        \/ (exists organization,
              prisma.organization_bySlug (w_db w) (reg_organizationSlug input)
                = Some organization
              /\ org_isActive organization = true
              /\ prisma.user_byEmail (w_db w) (reg_email input)
                   (org_id organization) = None
              /\ fst out
                 = Resolved (mkRegistered newId (reg_email input)
                               (reg_firstName input) (reg_lastName input)
                               (org_id organization))
              /\ w_db (snd out)
                 = db_after_register (w_db w)
                     (registered_user saltRounds isActiveDefault newId input
                        organization)
                     (defaultRoleOf (w_db w) (org_id organization)))).
Proof.
  intros input w out. unfold out.
  destruct (run (Register.register saltRounds defaultRoleOf isActiveDefault
                   newId input) w) as [r w'] eqn:Hrun.
  exact (register_cases input w r w' Hrun).
Qed.

Lemma db_after_register_facts db newUser defaultRole :
  prisma.user_byEmail db (user_email newUser) (user_organizationId newUser)
    = None ->
  organizations (db_after_register db newUser defaultRole) = organizations db
  /\ refreshTokens (db_after_register db newUser defaultRole) = refreshTokens db
  /\ prisma.user_byEmail (db_after_register db newUser defaultRole)
       (user_email newUser) (user_organizationId newUser) = Some newUser.
Proof.
  intros Hnone. unfold db_after_register.
  assert (Hfind : find (fun u => String.eqb (user_email u) (user_email newUser)
                               && String.eqb (user_organizationId u)
                                    (user_organizationId newUser))
                    (users db ++ [newUser]) = Some newUser).
  { rewrite find_app_none by exact Hnone. rewrite !String.eqb_refl. reflexivity. }
  destruct defaultRole as [role|]; repeat split; exact Hfind.
Qed.

(** X13.  An email registers once per organization.  After a
    registration has gone through, a second one for the same email in
    the same organization is refused with Conflict, whatever password,
    names and id it comes with, and changes nothing. *)
Theorem register_twice_conflicts :
  forall input again newId' (w : World C) reg w',
    storage_reliable w ->
    run (Register.register saltRounds defaultRoleOf isActiveDefault newId input) w
    = (Resolved reg, w') ->
    reg_email again = reg_email input ->
    reg_organizationSlug again = reg_organizationSlug input ->
    run (Register.register saltRounds defaultRoleOf isActiveDefault newId' again)
      w'
    = (Rejected (AppErr (ConflictError
         "User with this email already exists in this organization")),
       w').
Proof.
  intros input again newId' w reg w' Hrel Hrun Hmail Hslug.
  destruct (register_cases input w _ _ Hrun)
    as [_ [[e [E _]] | (organization & Horg & Hactive & Hnone & _ & Hdb)]];
    [discriminate|].
  assert (Hfaults : w_faults w' = []).
  { rewrite (register_run input organization w Hrel Horg Hactive Hnone) in Hrun.
    injection Hrun as _ <-. reflexivity. }
  destruct (db_after_register_facts (w_db w)
              (registered_user saltRounds isActiveDefault newId input organization)
              (defaultRoleOf (w_db w) (org_id organization)) Hnone)
    as (Horgs & _ & Hfound).
  rewrite <- Hdb in Horgs, Hfound. cbn [registered_user user_email
    user_organizationId] in Hfound.
  unfold run, Register.register.
  unfold bind at 1. rewrite (await_prisma_reliable _ _ Hfaults).
  unfold prisma.organization_findUnique, prisma.organization_bySlug.
  cbn [fst snd]. rewrite Horgs, Hslug.
  unfold prisma.organization_bySlug in Horg. rewrite Horg, Hactive.
  cbn [negb].
  unfold bind at 1. rewrite await_prisma_reliable by reflexivity.
  unfold prisma.user_findUnique. cbn [fst snd w_db w_cache].
  rewrite Hmail, Hfound. unfold throw. rewrite <- Hfaults, world_eta.
  reflexivity.
Qed.

End Registration.

Section RegisterThenLogin.

Context {C : Type} `{CacheApi C} `{BcryptApi} `{BcryptHashApi}.
Variable saltRounds : Z.
Variable defaultRoleOf : Db -> string -> option Role.
Variable newId : string.

(** X14.  Round trip register -> login.  When a password matches its own
    hash and accounts start active, the credentials a registration went
    through with log in: the login resolves for the account just
    stored, with its id and the organization it registered in. *)
Theorem register_then_login :
  hash_then_compare ->
  forall env input (w : World C) reg w',
    storage_reliable w ->
    run (Register.register saltRounds defaultRoleOf true newId input) w
    = (Resolved reg, w') ->
    uuid_unused (w_db w) (env_uuid env) ->
    exists organization,
      prisma.organization_bySlug (w_db w) (reg_organizationSlug input)
        = Some organization
      /\ run (AuthService.login env (credentials_of input)) w'
         = (Resolved (login_result env (w_db w') organization
                        (registered_user saltRounds true newId input
                           organization)),
            mkWorld (db_after_login env (w_db w') organization
                       (registered_user saltRounds true newId input
                          organization))
              (w_cache w) [])
      /\ us_id (lr_user (login_result env (w_db w') organization
                           (registered_user saltRounds true newId input
                              organization)))
         = registered_id reg.
Proof.
  intros Hlaw env input w reg w' Hrel Hrun Hu.
  destruct (register_cases saltRounds defaultRoleOf true newId input w _ _ Hrun)
    as [Hcache [[e [E _]] | (organization & Horg & Hactive & Hnone & Hreg & Hdb)]];
    [discriminate|].
  exists organization. split; [exact Horg|].
  assert (Hfaults : storage_reliable w').
  { rewrite (register_run saltRounds defaultRoleOf true newId input organization
               w Hrel Horg Hactive Hnone) in Hrun.
    injection Hrun as _ <-. reflexivity. }
  destruct (db_after_register_facts (w_db w)
              (registered_user saltRounds true newId input organization)
              (defaultRoleOf (w_db w) (org_id organization)) Hnone)
    as (Horgs & Hrts & Hfound).
  rewrite <- Hdb in Horgs, Hrts, Hfound.
  split.
  - rewrite <- Hcache.
    apply login_succeeds; [exact Hfaults | | ].
    + unfold valid_credentials, credentials_of.
      cbn [login_email login_password login_organizationSlug].
      split; [|split; [exact Hactive|split; [exact Hfound|split; [reflexivity|]]]].
      * unfold prisma.organization_bySlug in *. rewrite Horgs. exact Horg.
      * apply Hlaw.
    + intros r Hin. apply Hu. rewrite <- Hrts. exact Hin.
  - injection Hreg as ->. reflexivity.
Qed.

End RegisterThenLogin.
(* ====================================================================== *)
(** ** Further properties: account status *)
(* ====================================================================== *)

Lemma find_map_status {A} (p : A -> bool) (f : A -> A) xs :
  (forall x, p (f x) = p x) ->
  find p (map f xs) = option_map f (find p xs).
Proof.
  intros Hp. induction xs as [|x xs IH]; simpl; [reflexivity|].
  rewrite Hp. destruct (p x); [reflexivity | exact IH].
Qed.

Lemma db_with_status_byId db id b target :
  prisma.user_byId (db_with_status db id b) target
  = option_map (fun u => if String.eqb (user_id u) id then set_isActive b u
                         else u)
      (prisma.user_byId db target).
Proof.
  unfold prisma.user_byId, db_with_status. cbn [users with_users].
  apply find_map_status. intros x. destruct (String.eqb (user_id x) id);
    reflexivity.
Qed.

Lemma db_with_status_byEmail db id b mail orgId :
  prisma.user_byEmail (db_with_status db id b) mail orgId
  = option_map (fun u => if String.eqb (user_id u) id then set_isActive b u
                         else u)
      (prisma.user_byEmail db mail orgId).
Proof.
  unfold prisma.user_byEmail, db_with_status. cbn [users with_users].
  apply find_map_status. intros x. destruct (String.eqb (user_id x) id);
    reflexivity.
Qed.

Lemma user_inTenant_byId db id orgId u :
  userRepository.user_inTenant db id orgId = Some u ->
  exists first, prisma.user_byId db id = Some first.
Proof.
  unfold userRepository.user_inTenant, prisma.user_byId. intros Hfind.
  apply find_some in Hfind. destruct Hfind as [Hin Hp].
  apply andb_prop in Hp. destruct Hp as [Hid _].
  destruct (find _ (users db)) as [first|] eqn:E; [eauto|].
  exfalso. apply (find_none _ _ E) in Hin. cbv beta in Hin. congruence.
Qed.

Section AccountStatus.

Context {C : Type} `{CacheApi C}.

(** The runs of [findAndUpdate], whichever storage calls are lost: the
    store changes, in the status of the rows with that id, only when the
    update is answered. *)
Lemma findAndUpdate_cases id orgId b (w : World C) r w' :
  run (userRepository.findAndUpdate id orgId b) w = (r, w') ->
  w_cache w' = w_cache w
  /\ ((w_db w' = w_db w
       /\ ((exists e, r = Rejected e)
           \/ (r = Resolved None
               /\ userRepository.user_inTenant (w_db w) id orgId = None)))
      \/ (exists u v,
            userRepository.user_inTenant (w_db w) id orgId = Some u
            /\ r = Resolved (Some v)
            /\ uv_id v = id /\ uv_isActive v = b
            /\ w_db w' = db_with_status (w_db w) id b)).
Proof.
  unfold run, userRepository.findAndUpdate.
  unfold bind at 1.
  match goal with
  | |- context [await_prisma ?q ?w0] =>
      destruct (await_prisma_cases q w0) as [E|E]; rewrite E; clear E
  end.
  { intros E. injection E as <- <-. split; [reflexivity|]. left. eauto. }
  cbn [fst snd].
  destruct (userRepository.user_inTenant (w_db w) id orgId) as [u|] eqn:Hu.
  2: { intros E. injection E as <- <-. split; [reflexivity|]. left. eauto. }
  unfold bind at 1.
  match goal with
  | |- context [await_prisma ?q ?w0] =>
      destruct (await_prisma_cases q w0) as [E|E]; rewrite E; clear E
  end.
  { intros E. injection E as <- <-. split; [reflexivity|]. left. eauto. }
  unfold userRepository.user_update_isActive. cbn [w_db w_cache].
  destruct (user_inTenant_byId _ _ _ _ Hu) as [first Hfirst].
  rewrite Hfirst. cbn [fst snd].
  intros E. injection E as <- <-. split; [reflexivity|]. right.
  exists u. eexists. split; [reflexivity|]. split; [reflexivity|].
  cbn [view uv_id uv_isActive set_isActive user_id user_isActive w_db].
  repeat split.
  unfold prisma.user_byId in Hfirst. apply find_some in Hfirst.
  destruct Hfirst as [_ Hid]. apply String.eqb_eq in Hid. exact Hid.
Qed.

(** The runs of [deactivateUser], whichever storage calls are lost. *)
Lemma deactivateUser_cases id orgId requester (w : World C) r w' :
  run (UserService.deactivateUser id orgId requester) w = (r, w') ->
  (w_db w' = w_db w /\ w_cache w' = w_cache w /\ exists e, r = Rejected e)
  \/ (id <> requester
      /\ exists u v,
           userRepository.user_inTenant (w_db w) id orgId = Some u
           /\ r = Resolved (Some v)
           /\ uv_id v = id /\ uv_isActive v = false
           /\ w_db w' = db_with_status (w_db w) id false
           /\ w_cache w'
              = cache_delPattern (w_cache w) (permissionsOfUser id)).
Proof.
  unfold run, UserService.deactivateUser.
  destruct (String.eqb_spec id requester) as [Heq|Hne].
  { intros E. injection E as <- <-. left. eauto. }
  unfold bind at 1. unfold userRepository.findById.
  match goal with
  | |- context [await_prisma ?q ?w0] =>
      destruct (await_prisma_cases q w0) as [E|E]; rewrite E; clear E
  end.
  { intros E. injection E as <- <-. left. eauto. }
  cbn [fst snd].
  destruct (userRepository.user_inTenant (w_db w) id orgId) as [u|] eqn:Hu;
    cbn [option_map].
  2: { intros E. injection E as <- <-. left. eauto. }
  unfold bind at 1. unfold userRepository.deactivate.
  match goal with
  | |- context [userRepository.findAndUpdate ?i ?o ?b ?w0] =>
      destruct (userRepository.findAndUpdate i o b w0) as [r1 w1] eqn:E1;
      destruct (findAndUpdate_cases i o b w0 r1 w1 E1)
        as [Hc [[Hd [[e ->] | [-> Hnone]]]
                | (u1 & v & Hu1 & -> & Hid & Hact & Hd)]];
      cbn [w_db w_cache] in *
  end.
  - intros E. injection E as <- <-. left. eauto.
  - congruence.
  - unfold bind, await_cache_delPattern, ret.
    intros E. injection E as <- <-. right. split; [exact Hne|].
    exists u, v. cbn [w_db w_cache]. rewrite Hc. repeat split; assumption.
Qed.

(** The runs of [activateUser], whichever storage calls are lost. *)
Lemma activateUser_cases id orgId (w : World C) r w' :
  run (UserService.activateUser id orgId) w = (r, w') ->
  w_cache w' = w_cache w
  /\ ((w_db w' = w_db w /\ exists e, r = Rejected e)
      \/ (exists u v,
            userRepository.user_inTenant (w_db w) id orgId = Some u
            /\ r = Resolved (Some v)
            /\ uv_id v = id /\ uv_isActive v = true
            /\ w_db w' = db_with_status (w_db w) id true)).
Proof.
  unfold run, UserService.activateUser.
  unfold bind at 1. unfold userRepository.findById.
  match goal with
  | |- context [await_prisma ?q ?w0] =>
      destruct (await_prisma_cases q w0) as [E|E]; rewrite E; clear E
  end.
  { intros E. injection E as <- <-. split; [reflexivity|]. left. eauto. }
  cbn [fst snd].
  destruct (userRepository.user_inTenant (w_db w) id orgId) as [u|] eqn:Hu;
    cbn [option_map].
  2: { intros E. injection E as <- <-. split; [reflexivity|]. left. eauto. }
  unfold userRepository.activate. intros E1.
  destruct (findAndUpdate_cases _ _ _ _ _ _ E1)
    as [Hc [[Hd [[e ->] | [-> Hnone]]] | (u1 & v & Hu1 & -> & Hid & Hact & Hd)]];
    cbn [w_db w_cache] in *.
  - split; [exact Hc|]. left. eauto.
  - congruence.
  - split; [exact Hc|]. right. exists u, v. repeat split; assumption.
Qed.

(** The run of a deactivation that goes through. *)
Lemma deactivateUser_run id orgId requester (w : World C) v w' :
  storage_reliable w ->
  run (UserService.deactivateUser id orgId requester) w = (Resolved v, w') ->
  w' = mkWorld (db_with_status (w_db w) id false)
         (cache_delPattern (w_cache w) (permissionsOfUser id)) [].
Proof.
  intros Hrel Hrun.
  destruct (deactivateUser_cases _ _ _ _ _ _ Hrun)
    as [(_ & _ & e & E) | (Hne & u & v0 & Hu & _)]; [discriminate|].
  revert Hrun. unfold run, UserService.deactivateUser.
  destruct (String.eqb_spec id requester) as [Heq|_]; [contradiction|].
  unfold bind at 1. unfold userRepository.findById.
  rewrite (await_prisma_reliable _ _ Hrel). cbn [fst snd]. rewrite Hu.
  cbn [option_map].
  unfold bind at 1.
  unfold userRepository.deactivate, userRepository.findAndUpdate.
  unfold bind at 1. rewrite await_prisma_reliable by reflexivity.
  cbn [fst snd w_db w_cache]. rewrite Hu.
  unfold bind at 1. rewrite await_prisma_reliable by reflexivity.
  unfold userRepository.user_update_isActive. cbn [w_db w_cache].
  destruct (user_inTenant_byId _ _ _ _ Hu) as [first Hfirst].
  rewrite Hfirst. cbn [fst snd].
  unfold bind, await_cache_delPattern, ret. cbn [w_db w_cache w_faults].
  intros E. injection E as _ <-. reflexivity.
Qed.

(** The run of an activation that goes through. *)
Lemma activateUser_run id orgId (w : World C) v w' :
  storage_reliable w ->
  run (UserService.activateUser id orgId) w = (Resolved v, w') ->
  w' = mkWorld (db_with_status (w_db w) id true) (w_cache w) [].
Proof.
  intros Hrel Hrun.
  destruct (activateUser_cases _ _ _ _ _ Hrun)
    as [_ [[_ [e E]] | (u & v0 & Hu & _)]]; [discriminate|].
  revert Hrun. unfold run, UserService.activateUser.
  unfold bind at 1. unfold userRepository.findById.
  rewrite (await_prisma_reliable _ _ Hrel). cbn [fst snd]. rewrite Hu.
  cbn [option_map].
  unfold userRepository.activate, userRepository.findAndUpdate.
  unfold bind at 1. rewrite await_prisma_reliable by reflexivity.
  cbn [fst snd w_db w_cache]. rewrite Hu.
  unfold bind at 1. rewrite await_prisma_reliable by reflexivity.
  unfold userRepository.user_update_isActive. cbn [w_db w_cache].
  destruct (user_inTenant_byId _ _ _ _ Hu) as [first Hfirst].
  rewrite Hfirst. cbn [fst snd]. unfold ret.
  intros E. injection E as _ <-. reflexivity.
Qed.

(** X15.  Account status is tenant-scoped, and nobody deactivates
    himself.  If the id names no account of the caller's organization
    (an account of another organization, or none at all), both
    [deactivateUser] and [activateUser] reject and leave the store and
    the cache as they were, whichever storage calls are lost; with the
    storage reachable the answer is NotFound "User not found" in both
    cases alike.  A caller who names his own id is refused with
    BadRequest before anything is looked up. *)
Theorem account_status_is_tenant_scoped :
  forall id orgId requester (w : World C),
    (userRepository.user_inTenant (w_db w) id orgId = None ->
     (exists e, fst (run (UserService.deactivateUser id orgId requester) w)
                = Rejected e)
     /\ w_db (snd (run (UserService.deactivateUser id orgId requester) w))
        = w_db w
     /\ w_cache (snd (run (UserService.deactivateUser id orgId requester) w))
        = w_cache w
     /\ (exists e, fst (run (UserService.activateUser id orgId) w) = Rejected e)
     /\ w_db (snd (run (UserService.activateUser id orgId) w)) = w_db w
     /\ w_cache (snd (run (UserService.activateUser id orgId) w)) = w_cache w
     /\ (storage_reliable w ->
         run (UserService.activateUser id orgId) w
         = (Rejected (AppErr (NotFoundError "User")), w)
         /\ (id <> requester ->
             run (UserService.deactivateUser id orgId requester) w
             = (Rejected (AppErr (NotFoundError "User")), w))))
    /\ run (UserService.deactivateUser id orgId id) w
       = (Rejected (AppErr (BadRequestError
                              "Cannot deactivate your own account")), w).
Proof.
  intros id orgId requester w. split.
  - intros Hnone.
    destruct (run (UserService.deactivateUser id orgId requester) w)
      as [r w'] eqn:Hrun.
    destruct (deactivateUser_cases _ _ _ _ _ _ Hrun)
      as [(Hd & Hc & e & ->) | (_ & u & v & Hu & _)]; [|congruence].
    destruct (run (UserService.activateUser id orgId) w) as [r2 w2] eqn:Hrun2.
    destruct (activateUser_cases _ _ _ _ _ Hrun2)
      as [Hc2 [[Hd2 [e2 ->]] | (u & v & Hu & _)]]; [|congruence].
    cbn [fst snd].
    split; [eauto|]. split; [exact Hd|]. split; [exact Hc|].
    split; [eauto|]. split; [exact Hd2|]. split; [exact Hc2|].
    intros Hrel. split.
    + rewrite <- Hrun2. unfold run, UserService.activateUser.
      unfold bind at 1. unfold userRepository.findById.
      rewrite (await_prisma_reliable _ _ Hrel). cbn [fst snd].
      rewrite Hnone. cbn [option_map]. unfold throw.
      rewrite <- Hrel, world_eta. reflexivity.
    + intros Hne. rewrite <- Hrun. unfold run, UserService.deactivateUser.
      destruct (String.eqb_spec id requester) as [Heq|_]; [contradiction|].
      unfold bind at 1. unfold userRepository.findById.
      rewrite (await_prisma_reliable _ _ Hrel). cbn [fst snd].
      rewrite Hnone. cbn [option_map]. unfold throw.
      rewrite <- Hrel, world_eta. reflexivity.
  - unfold run, UserService.deactivateUser. rewrite String.eqb_refl.
    reflexivity.
Qed.

(** X16.  A deactivation changes one flag.  Whatever happens to its
    storage calls, [deactivateUser] leaves every table but User as it
    was, in particular no refresh token is revoked, and in the User
    table every row stays in its place, the rows with another id
    untouched, a row with the id changed, of the columns the store
    carries here, in nothing but its status. *)
Theorem deactivateUser_changes_one_flag :
  forall id orgId requester (w : World C),
    let db := w_db w in
    let db' := w_db (snd (run (UserService.deactivateUser id orgId requester) w)) in
    organizations db' = organizations db
    /\ roles db' = roles db
    /\ permissions db' = permissions db
    /\ userRoles db' = userRoles db
    /\ rolePermissions db' = rolePermissions db
    /\ refreshTokens db' = refreshTokens db
    /\ length (users db') = length (users db)
    /\ (forall i u, nth_error (users db) i = Some u ->
          exists u', nth_error (users db') i = Some u'
            /\ (user_id u <> id -> u' = u)
            /\ (u' = u \/ u' = set_isActive false u)).
Proof.
  intros id orgId requester w db db'. unfold db', db.
  destruct (run (UserService.deactivateUser id orgId requester) w)
    as [r w'] eqn:Hrun.
  cbn [snd].
  destruct (deactivateUser_cases _ _ _ _ _ _ Hrun)
    as [(Hd & _) | (_ & u0 & v & _ & _ & _ & _ & Hd & _)]; rewrite Hd.
  - repeat split; try reflexivity. intros i u Hu. exists u. auto.
  - unfold db_with_status. cbn [organizations roles permissions userRoles
      rolePermissions refreshTokens users with_users].
    repeat split; try reflexivity; [apply length_map|].
    intros i u Hu. rewrite nth_error_map, Hu. cbn [option_map].
    eexists. split; [reflexivity|].
    destruct (String.eqb_spec (user_id u) id); split; auto; contradiction.
Qed.

End AccountStatus.

Section StatusAndSessions.

Context {C : Type} `{CacheApi C} `{BcryptApi}.

(** What a refresh does on a live, unexpired row whose owner is not
    active. *)
Lemma refresh_deactivated_run env presented (w : World C) decoded id stored user :
  storage_reliable w ->
  jwt.verify (env_now env) presented refreshSecret = Some decoded ->
  fst (prisma.refreshToken_findUnique presented (w_db w))
    = Resolved (Some (id, stored, user)) ->
  rt_isRevoked stored = false ->
  (env_now env >? rt_expiresAt stored) = false ->
  match user with Some u => user_isActive u = false | None => True end ->
  run (AuthService.refresh env presented) w
  = (Rejected (AppErr (UnauthorizedError "User account is deactivated")), w).
Proof.
  intros Hrel Hver Hfind Hlive Hfresh Hoff.
  unfold run, AuthService.refresh. rewrite Hver.
  unfold bind at 1. rewrite (await_prisma_reliable _ _ Hrel).
  rewrite Hfind. unfold prisma.refreshToken_findUnique at 1. cbn [snd].
  rewrite Hlive, Hfresh. unfold throw.
  destruct user as [u|]; [rewrite Hoff; cbn [negb]|];
    rewrite <- Hrel, world_eta; reflexivity.
Qed.

(** X17.  Deactivation locks the account out without ending its
    sessions.  After a deactivation has gone through, the credentials
    that logged the account in are answered "Invalid credentials", and a
    refresh token of the account that was live is answered "User account
    is deactivated"; but no row of the RefreshToken table has been
    revoked, neither by the deactivation nor by the refused refresh. *)
Theorem deactivation_locks_out_without_revoking :
  forall env id orgId requester (w : World C) v w',
    storage_reliable w ->
    run (UserService.deactivateUser id orgId requester) w = (Resolved v, w') ->
    refreshTokens (w_db w') = refreshTokens (w_db w)
    /\ (forall input organization user,
          valid_credentials (w_db w) input organization user ->
          user_id user = id ->
          run (AuthService.login env input) w'
          = (Rejected (AppErr (UnauthorizedError "Invalid credentials")), w'))
    /\ (forall presented decoded i stored,
          jwt.verify (env_now env) presented refreshSecret = Some decoded ->
          prisma.refreshToken_byToken (w_db w) presented = Some (i, stored) ->
          rt_userId stored = id ->
          rt_isRevoked stored = false ->
          (env_now env >? rt_expiresAt stored) = false ->
          run (AuthService.refresh env presented) w'
          = (Rejected (AppErr (UnauthorizedError
                                 "User account is deactivated")), w')).
Proof.
  intros env id orgId requester w v w' Hrel Hrun.
  pose proof (deactivateUser_run _ _ _ _ _ _ Hrel Hrun) as ->.
  cbn [w_db]. split; [reflexivity|]. split.
  - intros input organization user (Horg & Hactive & Huser & _ & _) Hid.
    apply login_bad_credentials with (organization := organization);
      [reflexivity | exact Horg | exact Hactive |].
    unfold bad_credentials. cbn [w_db].
    rewrite db_with_status_byEmail, Huser. cbn [option_map].
    rewrite Hid, String.eqb_refl. left. reflexivity.
  - intros presented decoded i stored Hver Hby Hown Hlive Hfresh.
    apply refresh_deactivated_run
      with (decoded := decoded) (id := i) (stored := stored)
           (user := prisma.user_byId (db_with_status (w_db w) id false)
                      (rt_userId stored));
      try assumption; try reflexivity.
    + unfold prisma.refreshToken_findUnique. cbn [fst w_db].
      unfold prisma.refreshToken_byToken in *.
      cbn [refreshTokens db_with_status with_users]. rewrite Hby. reflexivity.
    + rewrite db_with_status_byId, Hown.
      destruct (prisma.user_byId (w_db w) id) as [u|] eqn:Hu;
        cbn [option_map]; [|exact I].
      unfold prisma.user_byId in Hu. apply find_some in Hu.
      destruct Hu as [_ Hu]. rewrite Hu. reflexivity.
Qed.

Lemma status_round_trip id (us : list User) :
  (forall u, In u us -> user_id u = id -> user_isActive u = true) ->
  map (fun u => if String.eqb (user_id u) id then set_isActive true u else u)
    (map (fun u => if String.eqb (user_id u) id then set_isActive false u
                   else u) us)
  = us.
Proof.
  intros Hactive. rewrite map_map. rewrite <- (map_id us) at 2.
  apply map_ext_in. intros u Hin.
  destruct (String.eqb_spec (user_id u) id) as [Hid|Hne].
  - cbn [set_isActive user_id]. rewrite Hid, String.eqb_refl.
    specialize (Hactive u Hin Hid). destruct u. cbn in *. subst. reflexivity.
  - destruct (String.eqb_spec (user_id u) id); [contradiction | reflexivity].
Qed.

(** X18.  Reactivation gives the sessions back.  For an account that was
    active, a deactivation followed by an activation leaves the store,
    in the columns it carries here, exactly as it was before the two; a
    refresh token of the account that could be rotated before the
    deactivation can be rotated again. *)
Theorem reactivation_restores_sessions :
  forall id orgId requester (w : World C) v1 w1 v2 w2,
    storage_reliable w ->
    run (UserService.deactivateUser id orgId requester) w = (Resolved v1, w1) ->
    run (UserService.activateUser id orgId) w1 = (Resolved v2, w2) ->
    (forall u, In u (users (w_db w)) -> user_id u = id ->
               user_isActive u = true) ->
    w_db w2 = w_db w
    /\ (forall env presented decoded i stored user,
          rotation_ready env presented w decoded i stored user ->
          rotation_ready env presented w2 decoded i stored user).
Proof.
  intros id orgId requester w v1 w1 v2 w2 Hrel Hrun1 Hrun2 Hactive.
  pose proof (deactivateUser_run _ _ _ _ _ _ Hrel Hrun1) as ->.
  assert (Hw2 := Hrun2). apply activateUser_run in Hw2; [|reflexivity].
  cbn [w_db w_cache] in Hw2. subst w2.
  assert (Hdb : db_with_status (db_with_status (w_db w) id false) id true
                = w_db w).
  { unfold db_with_status. cbn [users with_users organizations roles
      permissions userRoles rolePermissions refreshTokens].
    rewrite (status_round_trip id _ Hactive). destruct (w_db w). reflexivity. }
  cbn [w_db]. split; [exact Hdb|].
  intros env presented decoded i stored user Hready.
  unfold rotation_ready in *. cbn [w_db]. rewrite Hdb.
  destruct Hready as (_ & Hrest). split; [reflexivity | exact Hrest].
Qed.

End StatusAndSessions.

Section StatusAndGates.

Context {C : Type} `{CacheApi C}.

Lemma findMany_permissions_ignores_users userId db us :
  prisma.userRole_findMany_permissions userId (with_users db us)
  = (fst (prisma.userRole_findMany_permissions userId db), with_users db us).
Proof. reflexivity. Qed.

Lemma authorize_ignores_users db us required req (cache : C) faults :
  fst (Authorize.authorize required req (mkWorld (with_users db us) cache faults))
  = fst (Authorize.authorize required req (mkWorld db cache faults)).
Proof.
  unfold Authorize.authorize, Authorize.loadUserPermissions, bind,
    await_cache_get, await_cache_set, ret.
  cbn [w_cache w_db w_faults].
  destruct (truthy (cache_get cache
                      (permissionsKey (req_id req) (req_organizationId req))));
    cbn [negb].
  - destruct (some required _) as [[|]|e]; reflexivity.
  - unfold await_prisma. cbn [w_faults w_db w_cache].
    rewrite findMany_permissions_ignores_users.
    destruct (prisma.userRole_findMany_permissions (req_id req) db)
      as [[rows|e] db0].
    + destruct faults as [|[|] rest]; try reflexivity; cbn [fst];
        destruct (some required (includes (JArr (Authorize.flatten rows))))
          as [[|]|e]; reflexivity.
    + destruct faults as [|[|] rest]; reflexivity.
Qed.

(** X19.  Neither gate looks at the account status.  Over a cache whose
    pattern deletion of permission entries leaves the blacklist marks
    alone, the request gate answers after a deactivation as it did
    before, so an access token of the deactivated account stays accepted
    until it expires; and the permission check decides on the store the
    deactivation leaves exactly as on the one it found, whatever the
    cache holds. *)
Theorem account_status_is_not_checked_at_the_gates :
  delPattern_spares_blacklist C ->
  forall id orgId requester (w : World C),
    let w' := snd (run (UserService.deactivateUser id orgId requester) w) in
    (forall now authHeader lost,
       authenticate now authHeader lost (w_cache w')
       = authenticate now authHeader lost (w_cache w))
    /\ (forall required req cache faults,
          fst (Authorize.authorize required req
                 (mkWorld (w_db w') cache faults))
          = fst (Authorize.authorize required req
                   (mkWorld (w_db w) cache faults))).
Proof.
  intros Hlaw id orgId requester w w'. unfold w'.
  destruct (run (UserService.deactivateUser id orgId requester) w)
    as [r w1] eqn:Hrun.
  cbn [snd].
  destruct (deactivateUser_cases _ _ _ _ _ _ Hrun)
    as [(Hd & Hc & _) | (_ & u0 & v & _ & _ & _ & _ & Hd & Hc)];
    rewrite Hd, Hc.
  - split; reflexivity.
  - split.
    + intros now authHeader lost. unfold authenticate.
      destruct authHeader as [|raw|token]; try reflexivity.
      rewrite Hlaw. reflexivity.
    + intros required req cache faults. unfold db_with_status.
      apply authorize_ignores_users.
Qed.

End StatusAndGates.

(* ====================================================================== *)
(** ** Registration and account status on the seeded store *)
(* ====================================================================== *)

Lemma plain_hash_then_compare : hash_then_compare.
Proof. intros password rounds. simpl. apply String.eqb_refl. Qed.

Lemma newcomer_registers :
  run (Register.register 12 Newcomer.defaultRoleOf true "u-new" Newcomer.input)
    (Seed.world [])
  = (Resolved (mkRegistered "u-new" "new@acme.com" "New" "Comer" "org-acme"),
     Newcomer.world_registered).
Proof. reflexivity. Qed.

(** The newcomer's email, registered a second time in the same
    organization. *)
Lemma register_twice_witness :
  run (Register.register 12 Newcomer.defaultRoleOf true "u-new2" Newcomer.again)
    Newcomer.world_registered
  = (Rejected (AppErr (ConflictError
       "User with this email already exists in this organization")),
     Newcomer.world_registered).
Proof.
  exact (register_twice_conflicts 12 Newcomer.defaultRoleOf true "u-new"
           Newcomer.input Newcomer.again "u-new2" (Seed.world []) _ _
           eq_refl newcomer_registers eq_refl eq_refl).
Defined.

(** The newcomer logs in with the credentials of the registration. *)
Lemma register_then_login_witness :
  exists organization,
    prisma.organization_bySlug Seed.db "acme-corp" = Some organization
    /\ run (AuthService.login (Seed.env 1000 "f1")
              (credentials_of Newcomer.input))
         Newcomer.world_registered
       = (Resolved (login_result (Seed.env 1000 "f1") Newcomer.db_registered
                      organization Newcomer.user),
          mkWorld (db_after_login (Seed.env 1000 "f1") Newcomer.db_registered
                     organization Newcomer.user) [] [])
    /\ us_id (lr_user (login_result (Seed.env 1000 "f1") Newcomer.db_registered
                         organization Newcomer.user))
       = "u-new".
Proof.
  exact (register_then_login 12 Newcomer.defaultRoleOf "u-new"
           plain_hash_then_compare (Seed.env 1000 "f1") Newcomer.input
           (Seed.world []) _ _ eq_refl newcomer_registers
           (seed_uuid_unused "f1")).
Defined.

(** The manager of one organization names the administrator of
    another. *)
Lemma tenant_scope_witness :
  run (UserService.deactivateUser "u-startup" "org-acme" "u-manager")
    (Seed.world [])
  = (Rejected (AppErr (NotFoundError "User")), Seed.world []).
Proof.
  refine (proj2 (proj2 (proj2 (proj2 (proj2 (proj2 (proj2
            (proj1 (account_status_is_tenant_scoped "u-startup" "org-acme"
                      "u-manager" (Seed.world []))
               eq_refl)))))) eq_refl) _).
  discriminate.
Defined.

Lemma manager_deactivated :
  run (UserService.deactivateUser "u-manager" "org-acme" "u-user")
    Seed.world_loggedIn
  = (Resolved
       (Some (view Suspended.db
                (set_isActive false (touch_lastLogin 1000 Seed.manager)))),
     Suspended.world).
Proof. reflexivity. Qed.

(** The manager's session after his account was deactivated. *)
Lemma deactivation_witness :
  run (AuthService.refresh (Seed.env 5000 "f2") (Seed.refreshTokenOf 1000 "f1"))
    Suspended.world
  = (Rejected (AppErr (UnauthorizedError "User account is deactivated")),
     Suspended.world).
Proof.
  exact (proj2 (proj2
           (deactivation_locks_out_without_revoking (H0 := plain_bcrypt)
              (Seed.env 5000 "f2") "u-manager" "org-acme" "u-user"
              Seed.world_loggedIn _ _ eq_refl manager_deactivated))
           (Seed.refreshTokenOf 1000 "f1") _ 0%nat _
           eq_refl eq_refl eq_refl eq_refl eq_refl).
Defined.

Lemma manager_reactivated :
  run (UserService.activateUser "u-manager" "org-acme")
    Suspended.world
  = (Resolved
       (Some (view Seed.db_loggedIn (touch_lastLogin 1000 Seed.manager))),
     Seed.world_loggedIn).
Proof. reflexivity. Qed.

(** The manager's account, deactivated and activated again. *)
Lemma reactivation_witness :
  rotation_ready (Seed.env 5000 "f2") (Seed.refreshTokenOf 1000 "f1")
    Seed.world_loggedIn
    (mkClaims "u-manager" None "org-acme" (Some "f1") 1 (Some 604801))
    0%nat
    (mkRefreshToken (Seed.refreshTokenOf 1000 "f1") "u-manager" "f1"
       604801000 false)
    (touch_lastLogin 1000 Seed.manager).
Proof.
  refine (proj2 (reactivation_restores_sessions
                   "u-manager" "org-acme" "u-user"
                   Seed.world_loggedIn _ _ _ Seed.world_loggedIn eq_refl
                   manager_deactivated manager_reactivated _)
            _ _ _ _ _ _ loggedIn_rotation_ready).
  intros u [<-|[<-|[<-|[<-|[]]]]] E; try discriminate E; reflexivity.
Defined.

(** The manager's access token at the gate after his account was
    deactivated. *)
Lemma status_gate_witness :
  authenticate 2000 (header_bearer (Seed.accessTokenOf 1000)) false
    (w_cache (snd (run (UserService.deactivateUser "u-manager" "org-acme"
                          "u-user")
                     Seed.world_loggedIn)))
  = mkAuthenticated next_ok
      (Some (mkAuthenticatedUser "u-manager" (Some "manager@acme.com")
               "org-acme")).
Proof.
  exact (proj1 (account_status_is_not_checked_at_the_gates
                  mem_cache_spares_blacklist "u-manager" "org-acme" "u-user"
                  Seed.world_loggedIn)
           2000 (header_bearer (Seed.accessTokenOf 1000)) false).
Defined.

(* ====================================================================== *)
(** ** Further properties: role assignment *)
(* ====================================================================== *)

Lemma NoDup_map_filter {A B} (f : A -> B) (p : A -> bool) xs :
  NoDup (map f xs) -> NoDup (map f (filter p xs)).
Proof.
  induction xs as [|x xs IH]; simpl; [auto|].
  intros Hnd. inversion Hnd as [|? ? Hnotin Hrest]; subst.
  destruct (p x); simpl; [|auto].
  constructor; [|auto].
  intros Hin. apply Hnotin. apply in_map_iff in Hin.
  destruct Hin as [y [E Hy]]. apply filter_In in Hy.
  apply in_map_iff. exists y. split; [exact E | apply Hy].
Qed.

Lemma distinct_rows_map userId ids :
  NoDup ids -> distinct_rows (map (mkUserRole userId) ids) = true.
Proof.
  induction ids as [|id ids IH]; simpl; [reflexivity|].
  intros Hnd. inversion Hnd as [|? ? Hnotin Hrest]; subst.
  rewrite (IH Hrest), andb_true_r.
  destruct (existsb _ (map (mkUserRole userId) ids)) eqn:Hex; [|reflexivity].
  exfalso. apply existsb_exists in Hex. destruct Hex as [r [Hin Heq]].
  apply in_map_iff in Hin. destruct Hin as [id' [<- Hin]].
  unfold UserRole_eqb in Heq. cbn [ur_userId ur_roleId] in Heq.
  apply andb_prop in Heq. destruct Heq as [_ Heq].
  apply String.eqb_eq in Heq. subst. contradiction.
Qed.

Lemma NoDup_map_mkUserRole userId ids :
  NoDup ids -> NoDup (map (mkUserRole userId) ids).
Proof.
  induction 1 as [|id ids Hnotin Hnd IH]; simpl; constructor; [|exact IH].
  intros Hin. apply in_map_iff in Hin. destruct Hin as [id' [E Hin]].
  injection E as ->. contradiction.
Qed.

Lemma no_stored_pair userId ids (urs : list UserRole) :
  existsb (fun r => existsb (UserRole_eqb r)
                      (filter (fun ur => negb (String.eqb (ur_userId ur) userId))
                         urs))
    (map (mkUserRole userId) ids) = false.
Proof.
  destruct (existsb _ (map _ ids)) eqn:Hex; [|reflexivity].
  exfalso. apply existsb_exists in Hex. destruct Hex as [r [Hin Hex]].
  apply in_map_iff in Hin. destruct Hin as [id [<- _]].
  apply existsb_exists in Hex. destruct Hex as [ur [Hur Heq]].
  apply filter_In in Hur. destruct Hur as [_ Hother].
  unfold UserRole_eqb in Heq. cbn [ur_userId ur_roleId] in Heq.
  apply andb_prop in Heq. destruct Heq as [Heq _].
  rewrite String.eqb_sym in Heq. rewrite Heq in Hother. discriminate.
Qed.

Section RoleSets.

Context {C : Type} `{CacheApi C}.
Variable role_organizationId : Role -> option string.

Lemma validRoleIds_In db orgId roleIds id :
  In id (validRoleIds role_organizationId db orgId roleIds)
  <-> In id roleIds /\ assignable role_organizationId db orgId id.
Proof.
  unfold validRoleIds, assignable. rewrite in_map_iff. split.
  - intros [role [Hid Hin]]. apply filter_In in Hin.
    destruct Hin as [Hin Hp].
    apply andb_prop in Hp. destruct Hp as [Hp Hacc].
    apply andb_prop in Hp. destruct Hp as [Hmem Hact].
    apply existsb_eqb_In in Hmem. subst id. split; [exact Hmem|].
    exists role. auto.
  - intros [Hmem [role (Hin & Hid & Hact & Hacc)]].
    exists role. split; [exact Hid|]. apply filter_In. split; [exact Hin|].
    rewrite Hact, Hacc, !andb_true_r. apply existsb_eqb_In.
    rewrite Hid. exact Hmem.
Qed.

(** The ids the validation reports as invalid. *)
Lemma invalidRoleIds_In db orgId roleIds id :
  In id (filter (fun id => negb (existsb (String.eqb id)
                                   (validRoleIds role_organizationId db orgId
                                      roleIds)))
           roleIds)
  <-> In id roleIds /\ ~ assignable role_organizationId db orgId id.
Proof.
  rewrite filter_In. split.
  - intros [Hmem Hneg]. split; [exact Hmem|]. intros Hass.
    assert (Hin : In id (validRoleIds role_organizationId db orgId roleIds))
      by (apply validRoleIds_In; auto).
    apply existsb_eqb_In in Hin. rewrite Hin in Hneg. discriminate.
  - intros [Hmem Hnot]. split; [exact Hmem|].
    destruct (existsb _ _) eqn:Hex; [|reflexivity].
    exfalso. apply Hnot. apply existsb_eqb_In in Hex.
    apply validRoleIds_In in Hex. apply Hex.
Qed.

(** Every id passed the validation when none is reported invalid. *)
Lemma all_assignable db orgId roleIds :
  filter (fun id => negb (existsb (String.eqb id)
                            (validRoleIds role_organizationId db orgId roleIds)))
    roleIds = [] ->
  forall id, In id roleIds -> assignable role_organizationId db orgId id.
Proof.
  intros Hnone id Hmem.
  destruct (existsb (String.eqb id)
              (validRoleIds role_organizationId db orgId roleIds)) eqn:Hex.
  - apply existsb_eqb_In in Hex. apply validRoleIds_In in Hex. apply Hex.
  - assert (Hin : In id (filter (fun id => negb (existsb (String.eqb id)
                            (validRoleIds role_organizationId db orgId roleIds)))
                           roleIds)).
    { apply filter_In. split; [exact Hmem|]. rewrite Hex. reflexivity. }
    rewrite Hnone in Hin. contradiction.
Qed.

(** The runs of the repository's transaction, whichever storage calls
    are lost. *)
Lemma repository_assignRoles_cases userId orgId roleIds (w : World C) r w' :
  run (RoleAssignment.repository_assignRoles role_organizationId userId orgId
         roleIds) w = (r, w') ->
  w_cache w' = w_cache w
  /\ (((exists e, r = Rejected e) /\ w_db w' = w_db w)
      \/ ((exists v, r = Resolved v)
          /\ w_db w'
             = db_after_assignRoles role_organizationId (w_db w) userId orgId
                 roleIds
          /\ (forall id, In id roleIds ->
                assignable role_organizationId (w_db w) orgId id))).
Proof.
  unfold run, RoleAssignment.repository_assignRoles, transaction.
  match goal with
  | |- context [let (_, _) := ?body w in _] =>
      destruct (body w) as [r0 w0] eqn:Hbody
  end.
  intros E.
  assert (Hgoal : w_cache w0 = w_cache w
                  /\ ((exists e, r0 = Rejected e)
                      \/ ((exists v, r0 = Resolved v)
                          /\ w_db w0
                             = db_after_assignRoles role_organizationId (w_db w)
                                 userId orgId roleIds
                          /\ (forall id, In id roleIds ->
                                assignable role_organizationId (w_db w) orgId
                                  id)))).
  { clear E. revert Hbody.
    unfold bind at 1.
    match goal with
    | |- context [await_prisma ?q ?w1] =>
        destruct (await_prisma_cases q w1) as [E|E]; rewrite E; clear E
    end.
    { intros E. injection E as <- <-. split; [reflexivity | left; eauto]. }
    unfold RoleAssignment.role_findMany_valid. cbn [fst snd].
    fold (validRoleIds role_organizationId (w_db w) orgId roleIds).
    destruct (filter (fun id => negb (existsb (String.eqb id)
                (validRoleIds role_organizationId (w_db w) orgId roleIds)))
                roleIds) as [|bad rest] eqn:Hinvalid; cbn [length Nat.ltb Nat.leb].
    2: { intros E. injection E as <- <-. split; [reflexivity | left; eauto]. }
    pose proof (all_assignable _ _ _ Hinvalid) as Hall.
    unfold bind at 1.
    match goal with
    | |- context [await_prisma ?q ?w1] =>
        destruct (await_prisma_cases q w1) as [E|E]; rewrite E; clear E
    end.
    { intros E. injection E as <- <-. split; [reflexivity | left; eauto]. }
    unfold userRole_deleteMany. cbn [fst snd w_db w_cache].
    unfold bind at 1.
    match goal with
    | |- context [await_prisma ?q ?w1] =>
        destruct (await_prisma_cases q w1) as [E|E]; rewrite E; clear E
    end.
    { intros E. injection E as <- <-. split; [reflexivity | left; eauto]. }
    unfold userRole_createMany. cbn [w_db w_cache userRoles with_userRoles].
    rewrite no_stored_pair. cbn [negb]. rewrite andb_true_r.
    destruct (distinct_rows _); cbn [fst snd].
    2: { intros E. injection E as <- <-. split; [reflexivity | left; eauto]. }
    match goal with
    | |- context [await_prisma ?q ?w1] =>
        destruct (await_prisma_cases q w1) as [E|E]; rewrite E; clear E
    end.
    { intros E. injection E as <- <-. split; [reflexivity | left; eauto]. }
    cbn [fst snd w_db w_cache].
    intros E. injection E as <- <-. split; [reflexivity|]. right.
    split; [eauto|]. split; [reflexivity | exact Hall]. }
  destruct Hgoal as [Hc [[e ->] | ([v ->] & Hd & Hall)]].
  - injection E as <- <-. split; [exact Hc|]. left. eauto.
  - injection E as <- <-. split; [exact Hc|]. right. eauto.
Qed.

(** The runs of [assignRoles], whichever storage calls are lost. *)
Lemma assignRoles_cases userId orgId roleIds (w : World C) r w' :
  run (RoleAssignment.assignRoles role_organizationId userId orgId roleIds) w
  = (r, w') ->
  ((exists e, r = Rejected e) /\ w_db w' = w_db w /\ w_cache w' = w_cache w)
  \/ ((exists v, r = Resolved v)
      /\ (exists u, userRepository.user_inTenant (w_db w) userId orgId = Some u)
      /\ w_db w'
         = db_after_assignRoles role_organizationId (w_db w) userId orgId roleIds
      /\ w_cache w' = cache_delPattern (w_cache w) (permissionsOfUser userId)
      /\ (forall id, In id roleIds ->
            assignable role_organizationId (w_db w) orgId id)).
Proof.
  unfold run, RoleAssignment.assignRoles.
  unfold bind at 1. unfold userRepository.findById.
  match goal with
  | |- context [await_prisma ?q ?w0] =>
      destruct (await_prisma_cases q w0) as [E|E]; rewrite E; clear E
  end.
  { intros E. injection E as <- <-. left. eauto. }
  cbn [fst snd].
  destruct (userRepository.user_inTenant (w_db w) userId orgId) as [u|] eqn:Hu;
    cbn [option_map].
  2: { intros E. injection E as <- <-. left. eauto. }
  unfold bind at 1.
  match goal with
  | |- context [RoleAssignment.repository_assignRoles ?s ?i ?o ?l ?w0] =>
      destruct (RoleAssignment.repository_assignRoles s i o l w0)
        as [r1 w1] eqn:E1;
      destruct (repository_assignRoles_cases i o l w0 r1 w1 E1)
        as [Hc [[[e ->] Hd] | ([v ->] & Hd & Hall)]];
      cbn [w_db w_cache] in *
  end.
  - intros E. injection E as <- <-. left. eauto.
  - unfold bind, await_cache_delPattern, ret.
    intros E. injection E as <- <-. right. cbn [w_db w_cache].
    rewrite Hc. split; [eauto|]. split; [eauto|]. auto.
Qed.

(** The run of a role assignment that goes through. *)
Lemma assignRoles_run userId orgId roleIds (w : World C) u :
  storage_reliable w ->
  role_ids_unique (w_db w) ->
  userRepository.user_inTenant (w_db w) userId orgId = Some u ->
  (forall id, In id roleIds ->
     assignable role_organizationId (w_db w) orgId id) ->
  run (RoleAssignment.assignRoles role_organizationId userId orgId roleIds) w
  = (Resolved
       (option_map
          (view (db_after_assignRoles role_organizationId (w_db w) userId orgId
                   roleIds))
          (prisma.user_byId (w_db w) userId)),
     mkWorld
       (db_after_assignRoles role_organizationId (w_db w) userId orgId roleIds)
       (cache_delPattern (w_cache w) (permissionsOfUser userId)) []).
Proof.
  intros Hrel Huniq Hu Hall.
  unfold run, RoleAssignment.assignRoles.
  unfold bind at 1. unfold userRepository.findById.
  rewrite (await_prisma_reliable _ _ Hrel). cbn [fst snd]. rewrite Hu.
  cbn [option_map].
  unfold bind at 1.
  unfold RoleAssignment.repository_assignRoles, transaction.
  unfold bind at 1. rewrite await_prisma_reliable by reflexivity.
  unfold RoleAssignment.role_findMany_valid. cbn [fst snd w_db w_cache].
  fold (validRoleIds role_organizationId (w_db w) orgId roleIds).
  assert (Hinvalid : filter (fun id => negb (existsb (String.eqb id)
                       (validRoleIds role_organizationId (w_db w) orgId roleIds)))
                       roleIds = []).
  { destruct (filter _ roleIds) as [|bad rest] eqn:E; [reflexivity|].
    exfalso.
    assert (Hin : In bad (bad :: rest)) by (left; reflexivity).
    rewrite <- E in Hin. apply invalidRoleIds_In in Hin.
    destruct Hin as [Hmem Hnot]. apply Hnot, Hall, Hmem. }
  rewrite Hinvalid. cbn [length Nat.ltb Nat.leb].
  unfold bind at 1. rewrite await_prisma_reliable by reflexivity.
  unfold userRole_deleteMany. cbn [fst snd w_db w_cache].
  unfold bind at 1. rewrite await_prisma_reliable by reflexivity.
  unfold userRole_createMany. cbn [w_db w_cache userRoles with_userRoles].
  rewrite no_stored_pair. cbn [negb]. rewrite andb_true_r.
  rewrite distinct_rows_map
    by (unfold validRoleIds; apply NoDup_map_filter; exact Huniq).
  cbn [fst snd]. rewrite await_prisma_reliable by reflexivity.
  reflexivity.
Qed.

(** The decision of the permission check on a cache miss. *)
Lemma authorize_miss required req (w : World C) :
  truthy (cache_get (w_cache w)
            (permissionsKey (req_id req) (req_organizationId req))) = false ->
  storage_reliable w ->
  next (fst (Authorize.authorize required req w)) = next_ok
  <-> exists perm, In perm required /\ granted (w_db w) (req_id req) perm.
Proof.
  intros Hmiss Hrel.
  pose proof (load_miss (req_id req) (req_organizationId req) w Hmiss Hrel)
    as Hload.
  cbv zeta in Hload. unfold run in Hload.
  unfold Authorize.authorize. rewrite Hload. rewrite some_includes.
  destruct (prisma.userRole_findMany_permissions (req_id req) (w_db w))
    as [[rows|e] db0] eqn:Hq; [|discriminate Hq].
  cbn [fst].
  assert (Hrows : forall a, In a (Authorize.flatten rows)
                            <-> granted (w_db w) (req_id req) a).
  { intros a. apply (flatten_granted (w_db w) (req_id req) a).
    rewrite Hq. reflexivity. }
  destruct (existsb _ required) eqn:Hex; cbn [fst next].
  - split; [intros _|reflexivity].
    apply existsb_exists in Hex. destruct Hex as [perm [Hin Hp]].
    exists perm. split; [exact Hin|]. apply Hrows, existsb_eqb_In, Hp.
  - split; [discriminate|]. intros [perm [Hin Hg]]. exfalso.
    assert (existsb (fun perm => existsb (String.eqb perm)
                                   (Authorize.flatten rows)) required = true).
    { apply existsb_exists. exists perm. split; [exact Hin|].
      apply existsb_eqb_In, Hrows, Hg. }
    congruence.
Qed.

(** What the store of a completed assignment grants to the user. *)
Lemma granted_after_assignRoles db userId orgId roleIds a :
  (forall id, In id roleIds -> assignable role_organizationId db orgId id) ->
  granted (db_after_assignRoles role_organizationId db userId orgId roleIds)
    userId a
  <-> exists roleId, In roleId roleIds /\ role_grants db roleId a.
Proof.
  intros Hall. unfold granted, role_grants, db_after_assignRoles. split.
  - intros (ur & role & rp & p & Hur & Huid & Hrole & Hrest).
    cbn [userRoles with_userRoles] in Hur. apply in_app_or in Hur.
    destruct Hur as [Hur|Hur].
    + apply filter_In in Hur. destruct Hur as [_ Hother].
      rewrite Huid, String.eqb_refl in Hother. discriminate.
    + apply in_map_iff in Hur. destruct Hur as [roleId [<- Hin]].
      apply validRoleIds_In in Hin. exists roleId. split; [apply Hin|].
      exists role, rp, p. split; [exact Hrole | exact Hrest].
  - intros (roleId & Hmem & role & rp & p & Hrole & Hrest).
    exists (mkUserRole userId roleId), role, rp, p.
    split; [|split; [reflexivity | split; [exact Hrole | exact Hrest]]].
    cbn [userRoles with_userRoles]. apply in_or_app. right.
    apply in_map. apply validRoleIds_In. auto.
Qed.

(** X20.  A role assignment replaces the role set.  When the user
    belongs to the caller's organization and every id names an active
    role the organization may use, the assignment resolves; afterwards
    the user holds exactly the roles named, each once even if an id was
    named twice, the assignments of every other user are as they were,
    no other table has changed, and the user's cached permission sets
    are deleted by pattern. *)
Theorem assignRoles_replaces_the_role_set :
  forall userId orgId roleIds (w : World C) u,
    storage_reliable w ->
    role_ids_unique (w_db w) ->
    userRepository.user_inTenant (w_db w) userId orgId = Some u ->
    (forall id, In id roleIds ->
       assignable role_organizationId (w_db w) orgId id) ->
    let out :=
      run (RoleAssignment.assignRoles role_organizationId userId orgId roleIds)
        w in
    let db' := w_db (snd out) in
    (exists v, fst out = Resolved (Some v) /\ uv_id v = userId)
    /\ (forall ur, In ur (userRoles db')
          <-> (In ur (userRoles (w_db w)) /\ ur_userId ur <> userId)
              \/ (ur_userId ur = userId /\ In (ur_roleId ur) roleIds))
    /\ NoDup (filter (fun ur => String.eqb (ur_userId ur) userId)
                (userRoles db'))
    /\ with_userRoles db' (userRoles (w_db w)) = w_db w
    /\ w_cache (snd out)
       = cache_delPattern (w_cache w) (permissionsOfUser userId).
Proof.
  intros userId orgId roleIds w u Hrel Huniq Hu Hall out db'.
  unfold db', out.
  rewrite (assignRoles_run userId orgId roleIds w u Hrel Huniq Hu Hall).
  cbn [fst snd w_db w_cache].
  split; [|split; [|split; [|split]]].
  - destruct (user_inTenant_byId _ _ _ _ Hu) as [first Hfirst].
    rewrite Hfirst. cbn [option_map]. eexists. split; [reflexivity|].
    cbn [view uv_id]. unfold prisma.user_byId in Hfirst.
    apply find_some in Hfirst. destruct Hfirst as [_ Hid].
    apply String.eqb_eq in Hid. exact Hid.
  - intros ur. unfold db_after_assignRoles. cbn [userRoles with_userRoles].
    rewrite in_app_iff, filter_In, in_map_iff. split.
    + intros [[Hin Hother] | [roleId [<- Hin]]].
      * left. split; [exact Hin|]. intros E. rewrite E, String.eqb_refl in Hother.
        discriminate.
      * right. split; [reflexivity|]. apply validRoleIds_In in Hin. apply Hin.
    + intros [[Hin Hother] | [Hid Hmem]].
      * left. split; [exact Hin|].
        destruct (String.eqb_spec (ur_userId ur) userId); [contradiction|].
        reflexivity.
      * right. exists (ur_roleId ur). split.
        -- destruct ur. cbn in *. subst. reflexivity.
        -- apply validRoleIds_In. auto.
  - unfold db_after_assignRoles. cbn [userRoles with_userRoles].
    rewrite filter_app.
    assert (Hnone : filter (fun ur => String.eqb (ur_userId ur) userId)
                      (filter (fun ur => negb (String.eqb (ur_userId ur) userId))
                         (userRoles (w_db w))) = []).
    { induction (userRoles (w_db w)) as [|x xs IH]; [reflexivity|].
      cbn [filter]. destruct (String.eqb (ur_userId x) userId) eqn:E;
        cbn [negb filter]; [exact IH | rewrite E; exact IH]. }
    rewrite Hnone. cbn [app].
    assert (Hall' : forall ids,
              filter (fun ur => String.eqb (ur_userId ur) userId)
                (map (mkUserRole userId) ids) = map (mkUserRole userId) ids).
    { induction ids as [|x xs IH]; [reflexivity|].
      cbn [map filter ur_userId]. rewrite String.eqb_refl, IH. reflexivity. }
    rewrite Hall'. apply NoDup_map_mkUserRole.
    unfold validRoleIds. apply NoDup_map_filter. exact Huniq.
  - unfold db_after_assignRoles. destruct (w_db w). reflexivity.
  - reflexivity.
Qed.

(** X21.  A role assignment is all or nothing, and assigns nothing the
    organization may not use.  Whichever storage calls are lost, an
    assignment that rejects leaves the store and the cache as they
    were: the old role set is never lost without the new one in place.
    It resolves only for a user of the caller's organization and only
    if every id names an active role the organization may use; with the
    storage reachable, a single id that does not is answered with
    BadRequest and nothing changes. *)
Theorem assignRoles_all_or_nothing :
  forall userId orgId roleIds (w : World C),
    let out :=
      run (RoleAssignment.assignRoles role_organizationId userId orgId roleIds)
        w in
    ((exists e, fst out = Rejected e) ->
     w_db (snd out) = w_db w /\ w_cache (snd out) = w_cache w)
    /\ ((exists v, fst out = Resolved v) ->
        (exists u, userRepository.user_inTenant (w_db w) userId orgId = Some u)
        /\ (forall id, In id roleIds ->
              assignable role_organizationId (w_db w) orgId id))
    /\ (forall u bad,
          storage_reliable w ->
          userRepository.user_inTenant (w_db w) userId orgId = Some u ->
          In bad roleIds ->
          ~ assignable role_organizationId (w_db w) orgId bad ->
          exists msg, out = (Rejected (AppErr (BadRequestError msg)), w)).
Proof.
  intros userId orgId roleIds w out. unfold out.
  destruct (run (RoleAssignment.assignRoles role_organizationId userId orgId
                   roleIds) w) as [r w'] eqn:Hrun.
  cbn [fst snd].
  pose proof (assignRoles_cases _ _ _ _ _ _ Hrun) as Hcases.
  split; [|split].
  - intros [e ->].
    destruct Hcases as [(_ & Hd & Hc) | ([v E] & _)]; [auto | discriminate].
  - intros [v ->].
    destruct Hcases as [([e E] & _) | (_ & Hu & _ & _ & Hall)];
      [discriminate | auto].
  - intros u bad Hrel Hu Hmem Hnot. rewrite <- Hrun.
    unfold run, RoleAssignment.assignRoles.
    unfold bind at 1. unfold userRepository.findById.
    rewrite (await_prisma_reliable _ _ Hrel). cbn [fst snd]. rewrite Hu.
    cbn [option_map].
    unfold bind at 1.
    unfold RoleAssignment.repository_assignRoles, transaction.
    unfold bind at 1. rewrite await_prisma_reliable by reflexivity.
    unfold RoleAssignment.role_findMany_valid. cbn [fst snd w_db w_cache].
    fold (validRoleIds role_organizationId (w_db w) orgId roleIds).
    destruct (filter (fun id => negb (existsb (String.eqb id)
                (validRoleIds role_organizationId (w_db w) orgId roleIds)))
                roleIds) as [|first rest] eqn:Hinvalid.
    + exfalso.
      assert (Hin : In bad (filter (fun id => negb (existsb (String.eqb id)
                (validRoleIds role_organizationId (w_db w) orgId roleIds)))
                roleIds)) by (apply invalidRoleIds_In; auto).
      rewrite Hinvalid in Hin. contradiction.
    + cbn [length Nat.ltb Nat.leb]. unfold throw.
      cbn [w_db w_cache w_faults]. eexists.
      apply f_equal2; [reflexivity|]. cbn [w_db w_cache w_faults].
      rewrite <- Hrel. apply world_eta.
Qed.

(** X22.  After a role assignment the permission check follows the new
    roles.  Over a cache that forgets a user's permission sets when they
    are deleted by pattern, once an assignment has gone through the
    check lets the user pass exactly when one of the required
    permissions is granted by one of the roles just assigned: nothing
    of the former roles is left, in the store or in the cache. *)
Theorem assignRoles_then_authorize :
  delPattern_clears_permissions C ->
  forall userId orgId roleIds (w : World C) v w',
    storage_reliable w ->
    role_ids_unique (w_db w) ->
    run (RoleAssignment.assignRoles role_organizationId userId orgId roleIds) w
    = (Resolved v, w') ->
    forall required mail org,
      next (fst (Authorize.authorize required (mkReqUser userId mail org) w'))
      = next_ok
      <-> exists perm roleId,
            In perm required /\ In roleId roleIds
            /\ role_grants (w_db w) roleId perm.
Proof.
  intros Hlaw userId orgId roleIds w v w' Hrel Huniq Hrun required mail org.
  destruct (assignRoles_cases _ _ _ _ _ _ Hrun)
    as [([e E] & _) | (_ & [u Hu] & _ & _ & Hall)]; [discriminate|].
  rewrite (assignRoles_run userId orgId roleIds w u Hrel Huniq Hu Hall) in Hrun.
  injection Hrun as _ <-.
  rewrite authorize_miss; cbn [req_id req_organizationId w_db w_cache];
    [|rewrite Hlaw; reflexivity | reflexivity].
  split.
  - intros [perm [Hin Hg]].
    apply (granted_after_assignRoles _ _ _ _ _ Hall) in Hg.
    destruct Hg as [roleId [Hmem Hgr]]. exists perm, roleId. auto.
  - intros (perm & roleId & Hin & Hmem & Hgr). exists perm.
    split; [exact Hin|].
    apply (granted_after_assignRoles _ _ _ _ _ Hall). eauto.
Qed.

End RoleSets.
(* ====================================================================== *)
(** ** Role assignment on the seeded store *)
(* ====================================================================== *)

Lemma mem_cache_clears_permissions : delPattern_clears_permissions MemCache.
Proof.
  intros c userId orgId. simpl.
  induction c as [|[[k v] ttl] c IH]; simpl; [reflexivity|].
  destruct k as [u o|t]; simpl.
  - destruct (String.eqb_spec userId u) as [->|Hne]; simpl; [exact IH|].
    destruct (String.eqb_spec u userId) as [E|_]; [congruence|].
    simpl. exact IH.
  - exact IH.
Qed.

Lemma seed_role_ids_unique : role_ids_unique Seed.db.
Proof.
  unfold role_ids_unique. simpl.
  repeat constructor; simpl; intuition discriminate.
Qed.

Lemma manager_role_assignable :
  forall id, In id ["r-manager"; "r-manager"] ->
    assignable Scoped.role_organizationId Seed.db "org-acme" id.
Proof.
  intros id [<-|[<-|[]]]; exists Seed.MANAGER; simpl; auto.
Qed.

Lemma john_promoted :
  run (RoleAssignment.assignRoles Scoped.role_organizationId "u-user" "org-acme"
         ["r-manager"; "r-manager"])
    (Seed.world [])
  = (Resolved (Some (view Scoped.db_promoted Seed.john)),
     mkWorld Scoped.db_promoted ([] : MemCache) []).
Proof. reflexivity. Qed.

(** John is given the role MANAGER, named twice. *)
Lemma assignRoles_witness :
  filter (fun ur => String.eqb (ur_userId ur) "u-user")
    (userRoles
       (w_db (snd (run (RoleAssignment.assignRoles Scoped.role_organizationId
                          "u-user" "org-acme" ["r-manager"; "r-manager"])
                     (Seed.world [])))))
  = [mkUserRole "u-user" "r-manager"]
  /\ NoDup (filter (fun ur => String.eqb (ur_userId ur) "u-user")
              (userRoles
                 (w_db (snd (run (RoleAssignment.assignRoles
                                    Scoped.role_organizationId "u-user"
                                    "org-acme" ["r-manager"; "r-manager"])
                               (Seed.world [])))))).
Proof.
  split; [reflexivity|].
  exact (proj1 (proj2 (proj2
           (assignRoles_replaces_the_role_set Scoped.role_organizationId
              "u-user" "org-acme" ["r-manager"; "r-manager"] (Seed.world [])
              Seed.john eq_refl seed_role_ids_unique eq_refl
              manager_role_assignable)))).
Defined.

(** The administrator of the other organization is refused the role that
    belongs to Acme. *)
Lemma assignRoles_refusal_witness :
  exists msg,
    run (RoleAssignment.assignRoles Scoped.role_organizationId "u-startup"
           "org-startup" ["r-user"; "r-manager"])
      (Seed.world [])
    = (Rejected (AppErr (BadRequestError msg)), Seed.world []).
Proof.
  refine (proj2 (proj2
            (assignRoles_all_or_nothing Scoped.role_organizationId "u-startup"
               "org-startup" ["r-user"; "r-manager"] (Seed.world [])))
            Seed.startupAdmin "r-manager" eq_refl eq_refl _ _).
  - right. left. reflexivity.
  - intros [role (Hin & Hid & _ & Hacc)].
    destruct Hin as [<-|[<-|[<-|[]]]]; discriminate.
Defined.

(** With the role MANAGER alone, John passes the check for USER_READ. *)
Lemma assignRoles_authorize_witness :
  next (fst (Authorize.authorize ["USER_DELETE"; "USER_READ"]
               (mkReqUser "u-user" "user@acme.com" "org-acme")
               (mkWorld Scoped.db_promoted ([] : MemCache) [])))
  = next_ok.
Proof.
  apply (proj2 (assignRoles_then_authorize Scoped.role_organizationId
                  mem_cache_clears_permissions "u-user" "org-acme"
                  ["r-manager"; "r-manager"] (Seed.world []) _ _ eq_refl
                  seed_role_ids_unique john_promoted
                  ["USER_DELETE"; "USER_READ"] "user@acme.com" "org-acme")).
  exists "USER_READ", "r-manager".
  split; [right; left; reflexivity|]. split; [left; reflexivity|].
  exists Seed.MANAGER, (mkRolePermission "r-manager" "p-user-read"),
    Seed.USER_READ.
  repeat split. left. reflexivity.
Defined.

(* ====================================================================== *)
(** ** Further properties: feature flags *)
(* ====================================================================== *)

Section Flags.

Context {C : Type} `{FlagCacheApi C}.

Lemma insert_In id_desc x y sorted :
  In y (FeatureFlagService.insert id_desc x sorted) <-> y = x \/ In y sorted.
Proof.
  induction sorted as [|h rest IH]; simpl; [intuition|].
  destruct (FeatureFlagService.precedes id_desc x h); simpl; [intuition|].
  rewrite IH. intuition.
Qed.

Lemma orderBy_In id_desc y rows :
  In y (FeatureFlagService.orderBy id_desc rows) <-> In y rows.
Proof.
  unfold FeatureFlagService.orderBy.
  induction rows as [|x rows IH]; simpl; [reflexivity|].
  rewrite insert_In, IH. intuition.
Qed.

(** Among the rows of one query, the order of the query follows the
    specificity of the scope. *)
Lemma precedes_specificity id_desc key organizationId roleIds a b :
  FeatureFlagService.where_ key organizationId roleIds a = true ->
  FeatureFlagService.where_ key organizationId roleIds b = true ->
  if FeatureFlagService.precedes id_desc a b
  then (specificity a <= specificity b)%nat
  else (specificity b <= specificity a)%nat.
Proof.
  unfold FeatureFlagService.where_, FeatureFlagService.precedes,
    FeatureFlagService.desc_nulls_last, FeatureFlagService.roleId_in,
    FeatureFlagService.is_some, FeatureFlagService.is_null, specificity.
  destruct (ff_organizationId a) as [oa|], (ff_organizationId b) as [ob|],
    (ff_roleId a) as [ra|], (ff_roleId b) as [rb|];
    cbn [andb orb]; rewrite ?andb_false_r, ?orb_false_r, ?andb_true_r;
    intros Ha Hb;
    repeat match goal with
           | Hx : _ && _ = true |- _ => apply andb_prop in Hx; destruct Hx
           | Hx : _ || _ = true |- _ => apply orb_prop in Hx; destruct Hx
           | Hx : false = true |- _ => discriminate Hx
           | Hx : String.eqb _ _ = true |- _ => apply String.eqb_eq in Hx
           end; subst;
    rewrite ?String.eqb_refl;
    repeat match goal with
           | |- context [if ?c then _ else _] => destruct c
           end; try lia; try discriminate.
Qed.

(** The first row of the ordered result is one of the rows, and none is
    more specific. *)
Lemma orderBy_head id_desc key organizationId roleIds rows :
  (forall f, In f rows ->
     FeatureFlagService.where_ key organizationId roleIds f = true) ->
  match FeatureFlagService.orderBy id_desc rows with
  | [] => rows = []
  | first :: _ =>
      In first rows
      /\ forall g, In g rows -> (specificity first <= specificity g)%nat
  end.
Proof.
  unfold FeatureFlagService.orderBy.
  induction rows as [|x rows IH]; intros Hwhere; [reflexivity|].
  cbn [fold_right].
  assert (IH' := IH (fun f Hf => Hwhere f (or_intror Hf))). clear IH.
  fold (FeatureFlagService.orderBy id_desc rows) in *.
  destruct (FeatureFlagService.orderBy id_desc rows) as [|h rest] eqn:Hsorted.
  - subst rows. simpl. split; [auto|]. intros g [<-|[]]. lia.
  - destruct IH' as [Hh Hmin]. cbn [FeatureFlagService.insert].
    pose proof (precedes_specificity id_desc key organizationId roleIds x h
                  (Hwhere x (or_introl eq_refl)) (Hwhere h (or_intror Hh)))
      as Hrank.
    destruct (FeatureFlagService.precedes id_desc x h).
    + split; [left; reflexivity|]. intros g [<-|Hg]; [lia|].
      specialize (Hmin g Hg). lia.
    + split; [right; exact Hh|]. intros g [<-|Hg]; [exact Hrank | auto].
Qed.

(** X23.  The most specific flag decides, in the order the query gives:
    a row scoped to the organization and one of the roles, then a row
    scoped to the organization alone, then a row scoped to one of the
    roles alone, then a global row.  On a cache miss with the storage
    reachable, [isEnabled] answers with the switch of a row the query
    selects such that no selected row is more specific, whatever order
    the store has on ids, and with [false] when the query selects
    nothing; the answer is written to the cache under the key of
    (key, organization) for 300 seconds. *)
Theorem isEnabled_most_specific_wins :
  forall featureFlags id_desc key organizationId roleIds (w : World C),
    not_null (flags_get (w_cache w)
                (FeatureFlagService.cacheKey key organizationId)) = false ->
    storage_reliable w ->
    exists b,
      run (FeatureFlagService.isEnabled featureFlags id_desc key organizationId
             roleIds) w
      = (Resolved (JBool b),
         mkWorld (w_db w)
           (flags_set (w_cache w)
              (FeatureFlagService.cacheKey key organizationId) (JBool b) 300)
           [])
      /\ ((forall f, ~ applicable featureFlags key organizationId roleIds f) ->
          b = false)
      /\ ((exists f, applicable featureFlags key organizationId roleIds f) ->
          exists first,
            applicable featureFlags key organizationId roleIds first
            /\ ff_isEnabled first = b
            /\ forall g, applicable featureFlags key organizationId roleIds g ->
                         (specificity first <= specificity g)%nat).
Proof.
  intros featureFlags id_desc key organizationId roleIds w Hmiss Hrel.
  unfold run, FeatureFlagService.isEnabled.
  unfold bind at 1. unfold await_flags_get at 1. rewrite Hmiss.
  unfold bind at 1. rewrite (await_prisma_reliable _ _ Hrel).
  unfold FeatureFlagService.featureFlag_findMany. cbn [fst snd].
  pose proof (orderBy_head id_desc key organizationId roleIds
                (filter (FeatureFlagService.where_ key organizationId roleIds)
                   featureFlags)) as Hhead.
  destruct (FeatureFlagService.orderBy id_desc _) as [|first rest].
  - exists false. split; [reflexivity|]. split; [reflexivity|].
    intros [f [Hin Hw]]. exfalso.
    assert (Hf : In f (filter (FeatureFlagService.where_ key organizationId
                                 roleIds) featureFlags))
      by (apply filter_In; auto).
    rewrite Hhead in Hf; [contradiction|].
    intros g Hg. apply filter_In in Hg. apply Hg.
  - exists (ff_isEnabled first). split; [reflexivity|].
    destruct Hhead as [Hfirst Hmin].
    { intros g Hg. apply filter_In in Hg. apply Hg. }
    apply filter_In in Hfirst. split.
    + intros Hnone. exfalso. apply (Hnone first). exact Hfirst.
    + intros _. exists first. split; [exact Hfirst|]. split; [reflexivity|].
      intros g Hg. apply Hmin. apply filter_In. exact Hg.
Qed.

(** X24.  The cached answer is per key and organization.  Over a cache
    that answers a read with what was last written, once [isEnabled]
    has resolved for a key and an organization, every later call for
    that key and organization resolves with the same value and changes
    nothing, whatever roles it is asked for, whatever the FeatureFlag
    table holds by then, even a cached [false], and even while the
    storage cannot be reached. *)
Theorem isEnabled_answer_is_cached_per_organization :
  flags_read_own_writes C ->
  forall featureFlags id_desc key organizationId roleIds (w : World C) v w',
    run (FeatureFlagService.isEnabled featureFlags id_desc key organizationId
           roleIds) w
    = (Resolved v, w') ->
    forall featureFlags' id_desc' roleIds' db faults,
      run (FeatureFlagService.isEnabled featureFlags' id_desc' key
             organizationId roleIds')
        (mkWorld db (w_cache w') faults)
      = (Resolved v, mkWorld db (w_cache w') faults).
Proof.
  intros Hlaw featureFlags id_desc key organizationId roleIds w v w' Hrun
    featureFlags' id_desc' roleIds' db faults.
  assert (Hhit : flags_get (w_cache w')
                   (FeatureFlagService.cacheKey key organizationId) = v
                 /\ not_null v = true).
  { revert Hrun. unfold run, FeatureFlagService.isEnabled.
    unfold bind at 1. unfold await_flags_get at 1.
    destruct (not_null (flags_get (w_cache w)
                (FeatureFlagService.cacheKey key organizationId))) eqn:Hcached.
    - unfold ret. intros E. injection E as <- <-. auto.
    - unfold bind at 1.
      match goal with
      | |- context [await_prisma ?q ?w0] =>
          destruct (await_prisma_cases q w0) as [E|E]; rewrite E; clear E
      end; [discriminate|].
      cbn [fst snd]. unfold bind, await_flags_set, ret.
      cbn [w_db w_cache w_faults].
      intros E. injection E as <- <-. cbn [w_cache].
      rewrite Hlaw. auto. }
  destruct Hhit as [Hget Hnn].
  unfold run, FeatureFlagService.isEnabled.
  unfold bind at 1. unfold await_flags_get at 1. cbn [w_cache].
  rewrite Hget, Hnn. reflexivity.
Qed.

End Flags.
(* ====================================================================== *)
(** ** Feature flags on a small table *)
(* ====================================================================== *)

Lemma mem_flag_cache_reads_own_writes : flags_read_own_writes MemFlagCache.
Proof. intros c key v ttl. simpl. rewrite String.eqb_refl. reflexivity. Qed.

(** For a manager of Acme the flag of the organization decides, not the
    flag of the role. *)
Lemma isEnabled_witness :
  exists b,
    run (FeatureFlagService.isEnabled Flags.table Flags.id_desc "beta"
           "org-acme" ["r-manager"]) Flags.world
    = (Resolved (JBool b), mkWorld Seed.db Flags.resolved [])
    /\ b = false.
Proof.
  destruct (isEnabled_most_specific_wins (H := mem_flag_cache) Flags.table Flags.id_desc "beta"
              "org-acme" ["r-manager"] Flags.world eq_refl eq_refl)
    as [b [Hrun _]].
  exists b. revert Hrun. vm_compute. intros E. injection E as <-.
  split; reflexivity.
Defined.

Lemma flag_resolved :
  run (FeatureFlagService.isEnabled Flags.table Flags.id_desc "beta" "org-acme"
         ["r-manager"]) Flags.world
  = (Resolved (JBool false), mkWorld Seed.db Flags.resolved []).
Proof. reflexivity. Qed.

(** The cached answer, served for other roles, over an empty table and
    an unreachable store. *)
Lemma isEnabled_cached_witness :
  run (FeatureFlagService.isEnabled [] Flags.id_desc "beta" "org-acme"
         ["r-user"])
    (mkWorld Seed.db Flags.resolved [true])
  = (Resolved (JBool false), mkWorld Seed.db Flags.resolved [true]).
Proof.
  exact (isEnabled_answer_is_cached_per_organization
           mem_flag_cache_reads_own_writes Flags.table Flags.id_desc "beta"
           "org-acme" ["r-manager"] Flags.world _ _ flag_resolved
           [] Flags.id_desc ["r-user"] Seed.db [true]).
Defined.

(* ====================================================================== *)
(** ** Further properties: account creation by an administrator *)
(* ====================================================================== *)

Section Creation.

Context {C : Type} `{BcryptHashApi}.
Variable saltRounds : Z.
Variable role_organizationId : Role -> option string.
Variable isActiveDefault : bool.
Variable newId : string.

(** X25.  An account created with roles that are refused stays.  The
    account is stored before its roles are assigned, and not in one
    transaction with them: when the email is free but one of the role
    ids names no active role the organization may use, [createUser]
    rejects with BadRequest, yet the account has been stored, without
    any role; the same request sent again is answered with Conflict,
    whatever roles it names. *)
Theorem createUser_keeps_the_account_when_roles_are_refused :
  forall data orgId roleIds bad (w : World C),
    storage_reliable w ->
    prisma.user_byEmail (w_db w) (cu_email data) orgId = None ->
    cu_roleIds data = Some roleIds ->
    In bad roleIds ->
    ~ assignable role_organizationId (w_db w) orgId bad ->
    let newUser :=
      mkUser newId (cu_email data) (bcrypt_hash (cu_password data) saltRounds)
        (cu_firstName data) (cu_lastName data) isActiveDefault orgId None in
    let w' := mkWorld (with_users (w_db w) (users (w_db w) ++ [newUser]))
                (w_cache w) [] in
    (exists msg,
       run (UserCreation.createUser saltRounds role_organizationId
              isActiveDefault newId data orgId) w
       = (Rejected (AppErr (BadRequestError msg)), w'))
    /\ (forall again newId',
          cu_email again = cu_email data ->
          run (UserCreation.createUser saltRounds role_organizationId
                 isActiveDefault newId' again orgId) w'
          = (Rejected (AppErr (ConflictError
                                 "User with this email already exists")), w')).
Proof.
  intros data orgId roleIds bad w Hrel Hfree Hroles Hmem Hnot newUser w'.
  assert (Hfound : prisma.user_byEmail (w_db w') (cu_email data) orgId
                   = Some newUser).
  { unfold w', prisma.user_byEmail. cbn [w_db users with_users].
    rewrite find_app_none by exact Hfree.
    unfold newUser. cbn [user_email user_organizationId].
    rewrite !String.eqb_refl. reflexivity. }
  split.
  - unfold run, UserCreation.createUser.
    unfold bind at 1. unfold UserCreation.findByEmail.
    rewrite (await_prisma_reliable _ _ Hrel). cbn [fst snd].
    rewrite Hfree. cbn [option_map].
    unfold bind at 1. unfold UserCreation.create.
    unfold bind at 1. rewrite await_prisma_reliable by reflexivity.
    unfold user_create. cbn [w_db w_cache]. rewrite Hfree. cbn [fst snd].
    unfold ret at 1. fold newUser. rewrite Hroles.
    destruct roleIds as [|r0 rest]; [contradiction|].
    cbn [length Nat.ltb Nat.leb].
    unfold bind at 1.
    unfold RoleAssignment.repository_assignRoles, transaction.
    unfold bind at 1. rewrite await_prisma_reliable by reflexivity.
    unfold RoleAssignment.role_findMany_valid. cbn [fst snd w_db w_cache].
    match goal with
    | |- context [filter ?p (r0 :: rest)] =>
        destruct (filter p (r0 :: rest)) as [|first more] eqn:Hinvalid
    end.
    + exfalso.
      assert (Hin : In bad
                (filter (fun id => negb (existsb (String.eqb id)
                           (validRoleIds role_organizationId (w_db w) orgId
                              (r0 :: rest))))
                   (r0 :: rest)))
        by (apply invalidRoleIds_In; auto).
      unfold validRoleIds in Hin. cbn [selected sel_id user_id newUser] in *.
      change (roles (with_users (w_db w) (users (w_db w) ++ [newUser])))
        with (roles (w_db w)) in Hinvalid.
      rewrite Hinvalid in Hin. contradiction.
    + cbn [length Nat.ltb Nat.leb]. unfold throw.
      cbn [w_db w_cache w_faults]. eexists. reflexivity.
  - intros again newId' Hmail.
    unfold run, UserCreation.createUser.
    unfold bind at 1. unfold UserCreation.findByEmail.
    rewrite await_prisma_reliable by reflexivity. cbn [fst snd].
    rewrite Hmail, Hfound. reflexivity.
Qed.

End Creation.

(** The newcomer, created by an administrator with the retired role. *)
Lemma createUser_witness :
  exists msg,
    run (UserCreation.createUser 12 Scoped.role_organizationId true "u-new"
           (mkCreateUserInput "new@acme.com" "Secret@1" "New" "Comer"
              (Some ["r-retired"]))
           "org-acme")
      (Seed.world [])
    = (Rejected (AppErr (BadRequestError msg)),
       mkWorld (with_users Seed.db (users Seed.db ++ [Newcomer.user]))
         ([] : MemCache) []).
Proof.
  refine (proj1 (createUser_keeps_the_account_when_roles_are_refused 12
                   Scoped.role_organizationId true "u-new"
                   (mkCreateUserInput "new@acme.com" "Secret@1" "New" "Comer"
                      (Some ["r-retired"]))
                   "org-acme" ["r-retired"] "r-retired" (Seed.world [])
                   eq_refl eq_refl eq_refl _ _)).
  - left. reflexivity.
  - intros [role (Hin & Hid & Hact & _)].
    destruct Hin as [<-|[<-|[<-|[]]]]; discriminate.
Defined.

(* ====================================================================== *)
(** ** Further properties: the status written through an update *)
(* ====================================================================== *)

Section StatusByUpdate.

Context {C : Type} `{CacheApi C}.

(** X26.  An update switches an account off as a deactivation does, but
    without its guards.  For an account of the caller's organization,
    [updateUser] with [{ isActive: false }] resolves and leaves the
    store a deactivation of that account leaves; it does so for every
    id, where [deactivateUser] refuses the caller's own, and it leaves
    the cache alone, where [deactivateUser] deletes the account's
    permission sets. *)
Theorem updateUser_switches_off_without_the_guards :
  forall id orgId (w : World C) u,
    storage_reliable w ->
    userRepository.user_inTenant (w_db w) id orgId = Some u ->
    (exists v,
       run (UserUpdate.updateUser id orgId switch_off) w
       = (Resolved (Some v),
          mkWorld (db_with_status (w_db w) id false) (w_cache w) [])
       /\ uv_id v = id /\ uv_isActive v = false)
    /\ run (UserService.deactivateUser id orgId id) w
       = (Rejected (AppErr (BadRequestError
                              "Cannot deactivate your own account")), w)
    /\ (forall requester v w',
          run (UserService.deactivateUser id orgId requester) w
          = (Resolved v, w') ->
          w_db w' = db_with_status (w_db w) id false
          /\ w_cache w' = cache_delPattern (w_cache w) (permissionsOfUser id)).
Proof.
  intros id orgId w u Hrel Hu. split; [|split].
  - unfold run, UserUpdate.updateUser.
    unfold bind at 1. unfold userRepository.findById.
    rewrite (await_prisma_reliable _ _ Hrel). cbn [fst snd]. rewrite Hu.
    cbn [option_map no_keys pick_updateData switch_off up_firstName
         up_lastName up_email up_isActive].
    unfold bind at 1. unfold ret at 1.
    unfold UserUpdate.findAndUpdate.
    unfold bind at 1. rewrite await_prisma_reliable by reflexivity.
    cbn [fst snd w_db w_cache]. rewrite Hu.
    unfold bind at 1. rewrite await_prisma_reliable by reflexivity.
    unfold user_update. cbn [w_db w_cache up_email].
    destruct (user_inTenant_byId _ _ _ _ Hu) as [first Hfirst].
    rewrite Hfirst. cbn [fst snd].
    eexists. split; [reflexivity|].
    cbn [view uv_id uv_isActive apply_updateData user_id user_isActive
         up_isActive or_else].
    split; [|reflexivity].
    unfold prisma.user_byId in Hfirst. apply find_some in Hfirst.
    destruct Hfirst as [_ Hid]. apply String.eqb_eq in Hid. exact Hid.
  - unfold run, UserService.deactivateUser. rewrite String.eqb_refl.
    reflexivity.
  - intros requester v w' Hrun.
    destruct (deactivateUser_cases _ _ _ _ _ _ Hrun)
      as [(_ & _ & e & E) | (_ & u0 & v0 & _ & _ & _ & _ & Hd & Hc)];
      [discriminate | auto].
Qed.

End StatusByUpdate.

(** John switches his own account off through an update. *)
Lemma updateUser_witness :
  exists v,
    run (UserUpdate.updateUser "u-user" "org-acme" switch_off) (Seed.world [])
    = (Resolved (Some v),
       mkWorld (db_with_status Seed.db "u-user" false) ([] : MemCache) [])
    /\ uv_id v = "u-user" /\ uv_isActive v = false.
Proof.
  exact (proj1 (updateUser_switches_off_without_the_guards "u-user" "org-acme"
                  (Seed.world []) Seed.john eq_refl eq_refl)).
Defined.
